(** * MLIREmitter: lowering of EDSC expression trees to IR

    A shallow embedding of [lib/EDSC/MLIREmitter.cpp].  The emitter walks a
    symbolic expression tree, materialises every node as an IR value and
    memoises the result in [ssaBindings].  The IR builder is modelled as an
    explicit state (instruction table, block table, insertion cursor); the
    emitter's methods are state-passing functions whose result distinguishes
    a normal return ([Ok]) from a process abort ([Fatal]: a failed [assert],
    [llvm_unreachable], or the dereference of a null pointer). *)

From stdpp Require Import gmap strings list.

Open Scope string_scope.
Open Scope Z_scope.

(** ** Outcomes of stateful, abortable code *)

Inductive Outcome (S A : Type) : Type :=
| Ok (a : A) (s : S)
| Fatal (msg : string) (s : S).
Arguments Ok {S A} a s.
Arguments Fatal {S A} msg s.

(** The state in which a computation stopped, whether it returned or not. *)
Definition final_state {S A} (o : Outcome S A) : S :=
  match o with Ok _ s => s | Fatal _ s => s end.

Definition returns {S A} (o : Outcome S A) : Prop :=
  match o with Ok _ _ => True | Fatal _ _ => False end.

Definition aborts {S A} (o : Outcome S A) : Prop :=
  match o with Ok _ _ => False | Fatal _ _ => True end.

Definition M (S A : Type) : Type := S -> Outcome S A.

Definition ret {S A} (a : A) : M S A := fun s => Ok a s.

Definition bnd {S A B} (m : M S A) (k : A -> M S B) : M S B :=
  fun s => match m s with
           | Ok a s' => k a s'
           | Fatal msg s' => Fatal msg s'
           end.

Definition fatal {S A} (msg : string) : M S A := fun s => Fatal msg s.

(** [assert(c && msg)] of a build with assertions enabled. *)
Definition assert_ {S} (c : bool) (msg : string) : M S unit :=
  fun s => if c then Ok tt s else Fatal msg s.

(** A relation between the state before a computation and the state in
    which it stops, kept by every step. *)
Definition preserves {S A} (R : relation S) (m : M S A) : Prop :=
  forall s, R s (final_state (m s)).

Declare Scope emit_scope.
Delimit Scope emit_scope with emit.
Notation "'let*' x ':=' m 'in' k" := (bnd m (fun x => k))
  (at level 10, x name, m at level 200, k at level 200) : emit_scope.
Notation "'let*' ' p ':=' m 'in' k" := (bnd m (fun x => match x with p => k end))
  (at level 10, p pattern, m at level 200, k at level 200) : emit_scope.
Notation "'run' m 'in' k" := (bnd m (fun _ => k))
  (at level 10, m at level 200, k at level 200) : emit_scope.
Open Scope emit_scope.

(** ** IR types *)

Inductive FloatKind := BF16 | F16 | F32 | F64.

(** Modelled from the spec: the host IR's type system is outside this file;
    the emitter only asks whether a type is the index type, an integer type,
    a float type, a vector or a memref (buffer), and for the element type
    and shape of the latter two.  A shape entry is a 64-bit integer; the
    entry [-1] marks a dynamic extent. *)
Inductive MType :=
| IndexType
| IntegerType (width : N)
| FloatType (k : FloatKind)
| VectorType (shape : list Z) (elementType : MType)
| MemRefType (shape : list Z) (elementType : MType)
| OpaqueType (name : string).

Definition MType_isIndex (t : MType) : bool :=
  match t with IndexType => true | _ => false end.
Definition MType_isa_IntegerType (t : MType) : bool :=
  match t with IntegerType _ => true | _ => false end.
Definition MType_isa_FloatType (t : MType) : bool :=
  match t with FloatType _ => true | _ => false end.
Definition MType_isa_MemRefType (t : MType) : bool :=
  match t with MemRefType _ _ => true | _ => false end.

(** ** Affine maps *)

Inductive AffineExpr :=
| AffineDimExpr (position : nat)
| AffineAddExpr (lhs rhs : AffineExpr)
| AffineSubExpr (lhs rhs : AffineExpr).

Record AffineMap := mkAffineMap {
  numDims : nat;
  numSymbols : nat;
  mapResults : list AffineExpr
}.

Definition getAffineDimExpr (position : nat) : AffineExpr :=
  AffineDimExpr position.

(** Modelled from the spec: [Builder::getDimIdentityMap] is the
    one-dimensional map (d0) -> (d0). *)
Definition getDimIdentityMap : AffineMap := mkAffineMap 1 0 [AffineDimExpr 0].

(** ** Instructions, values, blocks *)

Definition InstId := positive.
Definition BlockId := positive.

(** The two overloads of the [AffineForOp] builder used by the emitter. *)
Inductive ForBounds :=
| ConstantBounds (lb ub : Z)
| MapBounds (lbMap ubMap : AffineMap).

Inductive OpKind :=
| ConstantIndexOp (value : Z)
| AffineApplyOp (map : AffineMap)
| AffineForOp (bounds : ForBounds) (step : Z)
| DimOp (index : nat)
| AddIOp | AddFOp
| SubIOp | SubFOp
| MulIOp | MulFOp
| NamedOp (name : string).

(** A [Value*] (non-null).  A value is either the result of an instruction
    (it then remembers the operation that defines it) or a block argument
    (function arguments and loop induction variables are block arguments);
    [getDefiningInst] is null for the latter. *)
Inductive ValueDef :=
| DefInst (inst : InstId) (op : OpKind)
| DefBlockArg (owner : BlockId) (argNo : nat).

Record Value := mkValue { vdef : ValueDef; vtype : MType }.

Definition getDefiningInst (v : Value) : option OpKind :=
  match vdef v with
  | DefInst _ op => Some op
  | DefBlockArg _ _ => None
  end.

Definition isa_ConstantIndexOp (op : OpKind) : bool :=
  match op with ConstantIndexOp _ => true | _ => false end.
Definition isa_AffineApplyOp (op : OpKind) : bool :=
  match op with AffineApplyOp _ => true | _ => false end.
Definition isa_AffineForOp (op : OpKind) : bool :=
  match op with AffineForOp _ _ => true | _ => false end.

Record Instruction := mkInstruction {
  iop : OpKind;
  ioperands : list Value;
  iresults : list MType;
  ibody : option BlockId
}.

Record Block := mkBlock {
  bparent : option InstId;
  bargs : list MType;
  binsts : list InstId
}.

(** An insertion point inside a block: before a given instruction, or at
    the end of the block ([None]).  It is an iterator, not an index:
    inserting in front of it leaves it unchanged. *)
Definition InsertPoint := option InstId.

(** Modelled from the spec: the IR builder ([FuncBuilder]) is outside this
    file.  It owns the IR under construction and the insertion cursor, a
    (block, position) pair, which is unset ([None]) while the builder has no
    insertion block. *)
Record Builder := mkBuilder {
  insts : gmap InstId Instruction;
  blocks : gmap BlockId Block;
  funcBlocks : list BlockId;
  cursor : option (BlockId * InsertPoint);
  nextInst : InstId;
  nextBlock : BlockId
}.

(** Insert [new] in front of the instruction [j] of the list [l] (at the
    end when [j] is not there). *)
Fixpoint insert_before (j : InstId) (new : list InstId) (l : list InstId)
  : list InstId :=
  match l with
  | [] => new
  | i :: l' => if Pos.eqb i j then new ++ i :: l'
               else i :: insert_before j new l'
  end.

(** Insert [new] at the position [pos] of the list [l]. *)
Definition insert_at (pos : InsertPoint) (new : list InstId) (l : list InstId)
  : list InstId :=
  match pos with
  | None => l ++ new
  | Some j => insert_before j new l
  end.

Definition Block_insert (pos : InsertPoint) (i : InstId) (B : Block) : Block :=
  mkBlock (bparent B) (bargs B) (insert_at pos [i] (binsts B)).

(** Modelled from the spec: [builder->create<Op>(location, ...)] creates one
    instruction and inserts it at the insertion cursor, which stays where it
    was.  Creating an instruction while no insertion point is set is an
    error. *)
Definition create (op : OpKind) (operands : list Value) (resultTypes : list MType)
  : M Builder InstId :=
  fun b =>
    match cursor b with
    | None => Fatal "no insertion point" b
    | Some (blk, pos) =>
        let i := nextInst b in
        Ok i (mkBuilder (<[i := mkInstruction op operands resultTypes None]> (insts b))
                        (alter (Block_insert pos i) blk (blocks b))
                        (funcBlocks b)
                        (cursor b)
                        (Pos.succ i)
                        (nextBlock b))
    end.

(** [create<Op>(...)->getResult()] for a single-result operation. *)
Definition create1 (op : OpKind) (operands : list Value) (ty : MType)
  : M Builder Value :=
  let* i := create op operands [ty] in
  ret (mkValue (DefInst i op) ty).

(** Modelled from the spec: [makeComposedAffineApply(builder, loc, map,
    operands)] emits one affine-apply instruction for [map] over [operands]
    at the cursor and returns its index-typed result.  The composition with
    the maps that define the operands is not modelled: the instruction
    records the map and operands of the request. *)
Definition makeComposedAffineApply (map : AffineMap) (operands : list Value)
  : M Builder Value :=
  create1 (AffineApplyOp map) operands IndexType.

(** ** Operator lowering by element category (lines 76-130) *)

Definition getElementType (v : Value) : MType :=
  match vtype v with
  | VectorType _ elt => elt
  | MemRefType _ elt => elt
  | t => t
  end.

Definition isIndexElement (v : Value) : bool := MType_isIndex (getElementType v).
Definition isIntElement (v : Value) : bool := MType_isa_IntegerType (getElementType v).
Definition isFloatElement (v : Value) : bool := MType_isa_FloatType (getElementType v).

Definition add (a b : Value) : M Builder Value :=
  if isIndexElement a then
    let d0 := getAffineDimExpr 0 in
    let d1 := getAffineDimExpr 1 in
    let map := mkAffineMap 2 0 [AffineAddExpr d0 d1] in
    makeComposedAffineApply map [a; b]
  else if isIntElement a then
    create1 AddIOp [a; b] (vtype a)
  else
    run assert_ (isFloatElement a) "Expected float element" in
    create1 AddFOp [a; b] (vtype a).

Definition sub (a b : Value) : M Builder Value :=
  if isIndexElement a then
    let d0 := getAffineDimExpr 0 in
    let d1 := getAffineDimExpr 1 in
    let map := mkAffineMap 2 0 [AffineSubExpr d0 d1] in
    makeComposedAffineApply map [a; b]
  else if isIntElement a then
    create1 SubIOp [a; b] (vtype a)
  else
    run assert_ (isFloatElement a) "Expected float element" in
    create1 SubFOp [a; b] (vtype a).

Definition mul (a b : Value) : M Builder Value :=
  if negb (isFloatElement a) then
    create1 MulIOp [a; b] (vtype a)
  else
    run assert_ (isFloatElement a) "Expected float element" in
    create1 MulFOp [a; b] (vtype a).

(** ** Symbolic expressions *)

(** Modelled from the spec: the kind tag of a symbolic node.  [Unbound] is a
    placeholder; [Unary], [Binary], [Ternary] and [Variadic] are operator
    applications; [For] is the structured (statement-block-like) bounded
    loop. *)
Inductive ExprKind := Unbound | Unary | Binary | Ternary | Variadic | For.

(** Modelled from the spec: a symbolic node is an immutable handle on
    interned storage.  Two handles are equal iff they have the same storage,
    and the binding table is keyed by it, so a node carries the identity of
    its storage besides its kind, operation name, result types and child
    expressions. *)
#[local] Unset Elimination Schemes.
Inductive Expr :=
| mkExpr (storage : positive) (kind : ExprKind) (name : string)
         (resultTypes : list MType) (children : list Expr).

Definition getStoragePtr (e : Expr) : positive :=
  match e with mkExpr s _ _ _ _ => s end.
Definition getKind (e : Expr) : ExprKind :=
  match e with mkExpr _ k _ _ _ => k end.
Definition getName (e : Expr) : string :=
  match e with mkExpr _ _ n _ _ => n end.
Definition getResultTypes (e : Expr) : list MType :=
  match e with mkExpr _ _ _ tys _ => tys end.
Definition getChildExpressions (e : Expr) : list Expr :=
  match e with mkExpr _ _ _ _ cs => cs end.

(** [e.isa<UnaryExpr>() || e.isa<BinaryExpr>() || e.isa<TernaryExpr>() ||
    e.isa<VariadicExpr>()] *)
Definition isOperatorExpr (e : Expr) : bool :=
  match getKind e with
  | Unary | Binary | Ternary | Variadic => true
  | Unbound | For => false
  end.

Definition isFor (e : Expr) : bool :=
  match getKind e with For => true | _ => false end.

Definition isUnbound (e : Expr) : bool :=
  match getKind e with Unbound => true | _ => false end.

(** Modelled from the spec: [Bindable(e)] is the same handle, viewed as a
    bindable. *)
Definition Bindable (e : Expr) : Expr := e.

(** Modelled from the spec: a statement pairs a left-hand-side node with a
    right-hand-side expression and has an ordered sequence of enclosed
    statements. *)
Inductive Stmt :=
| mkStmt (lhs rhs : Expr) (enclosed : list Stmt).
#[local] Set Elimination Schemes.

Definition getLHS (s : Stmt) : Expr := match s with mkStmt l _ _ => l end.
Definition getRHS (s : Stmt) : Expr := match s with mkStmt _ r _ => r end.
Definition getEnclosedStmts (s : Stmt) : list Stmt :=
  match s with mkStmt _ _ b => b end.

(** Modelled from the spec: a structured block has an identity, declared
    arguments with their types, and an ordered statement body. *)
Record StmtBlock := mkStmtBlock {
  blockStorage : positive;
  getArguments : list Expr;
  getArgumentTypes : list MType;
  getBody : list Stmt
}.

(** Modelled from the spec: the names of the three zero-result operations
    ([DeallocOp], [StoreOp] and [ReturnOp]'s [getOperationName()]). *)
Definition DeallocOp_getOperationName : string := "dealloc".
Definition StoreOp_getOperationName : string := "store".
Definition ReturnOp_getOperationName : string := "return".

(** ** The emitter *)

(** What the emitter writes on [llvm::errs()]. *)
Inductive Diagnostic :=
| DiagError (e : positive) (found : option (option Value))
| DiagRebinding (e : positive) (v : option Value).

(** The emitter object.  [ssaBindings] maps a node to a [Value*], which is
    null ([None]) for a memoised zero-result operation.  [arena] is the next
    free storage of the expression arena (it lives outside the emitter in
    the source, and is threaded here because the emitter allocates fresh
    nodes); [errs] is the diagnostic stream. *)
Record MLIREmitter := mkEmitter {
  builder : Builder;
  ssaBindings : gmap positive (option Value);
  blockBindings : gmap positive BlockId;
  zeroIndex : Expr;
  oneIndex : Expr;
  arena : positive;
  errs : list Diagnostic
}.

Definition set_builder (st : MLIREmitter) (b : Builder) : MLIREmitter :=
  mkEmitter b (ssaBindings st) (blockBindings st) (zeroIndex st) (oneIndex st)
            (arena st) (errs st).
Definition set_ssaBindings (st : MLIREmitter) (m : gmap positive (option Value))
  : MLIREmitter :=
  mkEmitter (builder st) m (blockBindings st) (zeroIndex st) (oneIndex st)
            (arena st) (errs st).
Definition set_blockBindings (st : MLIREmitter) (m : gmap positive BlockId)
  : MLIREmitter :=
  mkEmitter (builder st) (ssaBindings st) m (zeroIndex st) (oneIndex st)
            (arena st) (errs st).
Definition set_arena (st : MLIREmitter) (a : positive) : MLIREmitter :=
  mkEmitter (builder st) (ssaBindings st) (blockBindings st) (zeroIndex st)
            (oneIndex st) a (errs st).
Definition report (d : Diagnostic) (st : MLIREmitter) : MLIREmitter :=
  mkEmitter (builder st) (ssaBindings st) (blockBindings st) (zeroIndex st)
            (oneIndex st) (arena st) (errs st ++ [d]).

Definition gets {S A} (f : S -> A) : M S A := fun s => Ok (f s) s.
Definition modify {S} (f : S -> S) : M S unit := fun s => Ok tt (f s).

(** Run a builder computation on the emitter's builder. *)
Definition onBuilder {A} (m : M Builder A) : M MLIREmitter A :=
  fun st => match m (builder st) with
            | Ok a b' => Ok a (set_builder st b')
            | Fatal msg b' => Fatal msg (set_builder st b')
            end.

(** Modelled from the spec: [Expr b(type)] allocates a fresh placeholder of
    the given type in the expression arena. *)
Definition newExpr (ty : MType) : M MLIREmitter Expr :=
  fun st => Ok (mkExpr (arena st) Unbound "" [ty] [])
               (set_arena st (Pos.succ (arena st))).

(** Modelled from the spec: [edsc::makeNewExprs(n, type)] allocates [n]
    fresh placeholders of the given type. *)
Fixpoint makeNewExprs (n : nat) (ty : MType) : M MLIREmitter (list Expr) :=
  match n with
  | O => ret []
  | S n' => let* e := newExpr ty in
            let* es := makeNewExprs n' ty in
            ret (e :: es)
  end.

(** [MLIREmitter::bind] (lines 155-167) *)
Definition bind (e : Expr) (v : option Value) : M MLIREmitter unit :=
  fun st =>
    match ssaBindings st !! getStoragePtr e with
    | None => Ok tt (set_ssaBindings st (<[getStoragePtr e := v]> (ssaBindings st)))
    | Some _ => Fatal "Double binding!" (report (DiagRebinding (getStoragePtr e) v) st)
    end.

(** Modelled from the spec: [bindConstant<ConstantIndexOp>(e, value)], a
    template of the class declaration, creates the constant at the cursor
    and binds [e] to it. *)
Definition bindConstantIndex (e : Expr) (value : Z) : M MLIREmitter unit :=
  let* v := onBuilder (create1 (ConstantIndexOp value) [] IndexType) in
  bind e (Some v).

(** Modelled from the spec: [bindZipRange(llvm::zip(exprs, values))], a
    template of the class declaration, binds the nodes to the values pair by
    pair, up to the shorter of the two ranges. *)
Fixpoint bindZipRange (exprs : list Expr) (values : list Value)
  : M MLIREmitter unit :=
  match exprs, values with
  | e :: exprs', v :: values' =>
      run bind e (Some v) in bindZipRange exprs' values'
  | _, _ => ret tt
  end.

(** The constructor (lines 147-153). *)
Definition MLIREmitter_new (b : Builder) (arena0 : positive)
  : Outcome MLIREmitter unit :=
  let zero := mkExpr arena0 Unbound "" [IndexType] [] in
  let one := mkExpr (Pos.succ arena0) Unbound "" [IndexType] [] in
  (run bindConstantIndex (Bindable zero) 0 in
   bindConstantIndex (Bindable one) 1)
    (mkEmitter b ∅ ∅ zero one (Pos.succ (Pos.succ arena0)) []).

(** *** Loops *)

(** Modelled from the spec: [forOp->createBody()] gives the loop its body
    block, whose single argument is the induction variable; the cursor is
    left alone. *)
Definition createBody (forOp : InstId) : M Builder BlockId :=
  fun b =>
    let body := nextBlock b in
    Ok body (mkBuilder
               (alter (fun I => mkInstruction (iop I) (ioperands I) (iresults I)
                                              (Some body)) forOp (insts b))
               (<[body := mkBlock (Some forOp) [IndexType] []]> (blocks b))
               (funcBlocks b) (cursor b) (nextInst b) (Pos.succ body)).

(** Modelled from the spec: [forOp->getInductionVar()] is the argument of
    the loop's body block. *)
Definition getInductionVar (body : BlockId) : Value :=
  mkValue (DefBlockArg body 0%nat) IndexType.

(** Modelled from the spec: [getForInductionVarOwner(v)]: the loop whose
    body block [v] is an argument of, if any. *)
Definition getForInductionVarOwner (b : Builder) (v : Value) : option Instruction :=
  match vdef v with
  | DefBlockArg owner _ =>
      B ← blocks b !! owner;
      i ← bparent B;
      I ← insts b !! i;
      if isa_AffineForOp (iop I) then Some I else None
  | DefInst _ _ => None
  end.

(** Modelled from the spec: [builder->setInsertionPoint(block, position)]
    moves the cursor. *)
Definition setInsertionPoint (c : option (BlockId * InsertPoint)) : M Builder unit :=
  modify (fun b => mkBuilder (insts b) (blocks b) (funcBlocks b) c
                             (nextInst b) (nextBlock b)).

(** Modelled from the spec: [builder->setInsertionPointToStart(block)]
    moves the cursor in front of the first instruction of the block. *)
Definition setInsertionPointToStart (blk : BlockId) : M Builder unit :=
  fun b => setInsertionPoint
             (Some (blk, head (default [] (binsts <$> blocks b !! blk)))) b.

(** The defining instruction of a loop bound is absent, or a constant index,
    an affine apply or an affine for (lines 203-204 and 208-209). *)
Definition hasAffineProvenance (def : option OpKind) : bool :=
  match def with
  | None => true
  | Some op => isa_ConstantIndexOp op || isa_AffineApplyOp op || isa_AffineForOp op
  end.

(** Lines 216-230: the concise form for static bounds, the general form
    with identity maps over the two bounds otherwise. *)
Definition createAffineFor (lb ub : Value) (step : Z) : M Builder InstId :=
  match getDefiningInst lb, getDefiningInst ub with
  | Some (ConstantIndexOp lbConst), Some (ConstantIndexOp ubConst) =>
      create (AffineForOp (ConstantBounds lbConst ubConst) step) [] []
  | _, _ =>
      let map := getDimIdentityMap in
      create (AffineForOp (MapBounds map map) step) [lb; ub] []
  end.

(** Lines 195-232: the loop itself, once its three control expressions are
    materialised to non-null values. *)
Definition emitForOp (exprs : list (option Value)) : M MLIREmitter Value :=
  run assert_ (length exprs =? 3)%nat "Expected 3 exprs" in
  match exprs with
  | [Some lb; Some ub; Some stepValue] =>
      let lbDef := getDefiningInst lb in
      run assert_ (hasAffineProvenance lbDef)
          "lower bound expression does not have affine provenance" in
      let ubDef := getDefiningInst ub in
      run assert_ (hasAffineProvenance ubDef)
          "upper bound expression does not have affine provenance" in
      let* step :=
        match getDefiningInst stepValue with
        | Some (ConstantIndexOp c) => ret c
        | Some _ => fatal "cast<ConstantIndexOp>() argument of incompatible type"
        | None => fatal "step has no defining instruction"
        end in
      let* forOp := onBuilder (createAffineFor lb ub step) in
      let* body := onBuilder (createBody forOp) in
      ret (getInductionVar body)
  | _ => fatal "null control expression"
  end.

Definition isNull (v : option Value) : bool :=
  match v with None => true | Some _ => false end.

(** Lines 236-253: report a missing binding, or record the result. *)
Definition emitExpr_finish (e : Expr) (res : option Value) (expectedEmpty : bool)
  : M MLIREmitter (option Value) :=
  if isNull res && negb expectedEmpty then
    let* found := gets (fun st => ssaBindings st !! getStoragePtr e) in
    run modify (report (DiagError (getStoragePtr e) found)) in
    ret None
  else
    let* found := gets (fun st => ssaBindings st !! getStoragePtr e) in
    run assert_ (bool_decide (found = None)) "insertion failed" in
    run modify (fun st => set_ssaBindings st (<[getStoragePtr e := res]> (ssaBindings st))) in
    ret res.

Section Emitter.

(** [Expr::build(builder, ssaBindings)] is declared outside this file: it
    builds the operation of an operator node with its operands resolved
    through the binding table, which it only reads, and returns the results
    of the operation. *)
Variable build :
  Expr -> gmap positive (option Value) -> M Builder (list (option Value)).

(** Lines 178-187: the result of an operator node. *)
Definition buildOperator (e : Expr) : M MLIREmitter (option Value * bool) :=
  if isOperatorExpr e then
    let* bindings := gets ssaBindings in
    let* results := onBuilder (build e bindings) in
    run assert_ (length results <=? 1)%nat
        "2+-result exprs are not supported" in
    ret (mjoin (head results), bool_decide (results = []))
  else ret (None, false).

(** [MLIREmitter::emitExpr] (lines 169-254), with [emitExprs] (lines
    256-266) as its inner loop.  The [LLVM_DEBUG] traces are left out. *)
Fixpoint emitExpr (e : Expr) : M MLIREmitter (option Value) :=
  let emitExprs :=
    fix emitExprs (exprs : list Expr) : M MLIREmitter (list (option Value)) :=
      match exprs with
      | [] => ret []
      | e' :: rest =>
          let* v := emitExpr e' in
          let* vs := emitExprs rest in
          ret (v :: vs)
      end in
  let* it := gets (fun st => ssaBindings st !! getStoragePtr e) in
  match it with
  | Some v => ret v
  | None =>
      let* '(res, expectedEmpty) := buildOperator e in
      if isFor e then
        let* exprs := emitExprs (getChildExpressions e) in
        if existsb isNull exprs then ret None
        else
          let* iv := emitForOp exprs in
          emitExpr_finish e (Some iv) expectedEmpty
      else emitExpr_finish e res expectedEmpty
  end.

Fixpoint emitExprs (exprs : list Expr) : M MLIREmitter (list (option Value)) :=
  match exprs with
  | [] => ret []
  | e :: rest =>
      let* v := emitExpr e in
      let* vs := emitExprs rest in
      ret (v :: vs)
  end.

(** Line 283: [builder->setInsertionPointToStart(
    getForInductionVarOwner(val)->getBody())]. *)
Definition stepIntoLoop (val : Value) : M MLIREmitter unit :=
  let* b := gets builder in
  match getForInductionVarOwner b val with
  | None => fatal "null loop: the value is not an induction variable"
  | Some forOp =>
      match ibody forOp with
      | None => fatal "the loop has no body"
      | Some body => onBuilder (setInsertionPointToStart body)
      end
  end.

(** The right-hand side is one of the operations that have no result
    (lines 273-275). *)
Definition isZeroResultOp (rhs : Expr) : bool :=
  bool_decide (getName rhs = DeallocOp_getOperationName)
  || bool_decide (getName rhs = StoreOp_getOperationName)
  || bool_decide (getName rhs = ReturnOp_getOperationName).

(** [MLIREmitter::emitStmt] (lines 268-287), with [emitStmts] (lines
    289-293) as its inner loop. *)
Fixpoint emitStmt (stmt : Stmt) : M MLIREmitter unit :=
  let emitStmts :=
    fix emitStmts (stmts : list Stmt) : M MLIREmitter unit :=
      match stmts with
      | [] => ret tt
      | s :: rest => run emitStmt s in emitStmts rest
      end in
  let* block_ip := gets (fun st => cursor (builder st)) in
  let* val := emitExpr (getRHS stmt) in
  match val with
  | None =>
      run assert_ (isZeroResultOp (getRHS stmt))
          "dealloc, store or return expected as the only 0-result ops" in
      ret tt
  | Some v =>
      run bind (Bindable (getLHS stmt)) (Some v) in
      run (if isFor (getRHS stmt) then stepIntoLoop v else ret tt) in
      run emitStmts (getEnclosedStmts stmt) in
      onBuilder (setInsertionPoint block_ip)
  end.

Fixpoint emitStmts (stmts : list Stmt) : M MLIREmitter unit :=
  match stmts with
  | [] => ret tt
  | s :: rest => run emitStmt s in emitStmts rest
  end.

(** Modelled from the spec: [builder->createBlock()] appends a new, empty
    block to the function and moves the cursor to its end. *)
Definition createBlock : M Builder BlockId :=
  fun b =>
    let blk := nextBlock b in
    Ok blk (mkBuilder (insts b) (<[blk := mkBlock None [] []]> (blocks b))
                      (funcBlocks b ++ [blk]) (Some (blk, None))
                      (nextInst b) (Pos.succ blk)).

(** Modelled from the spec: [irBlock->addArgument(type)] appends an argument
    to the block and returns it. *)
Definition addArgument (irBlock : BlockId) (ty : MType) : M Builder Value :=
  fun b =>
    match blocks b !! irBlock with
    | None => Fatal "null block" b
    | Some B =>
        Ok (mkValue (DefBlockArg irBlock (length (bargs B))) ty)
           (mkBuilder (insts b)
                      (<[irBlock := mkBlock (bparent B) (bargs B ++ [ty]) (binsts B)]>
                         (blocks b))
                      (funcBlocks b) (cursor b) (nextInst b) (nextBlock b))
    end.

(** Lines 309-316: the loop over [llvm::zip(arguments, argumentTypes)]. *)
Fixpoint bindBlockArguments (irBlock : BlockId) (args : list Expr)
    (types : list MType) : M MLIREmitter unit :=
  match args, types with
  | expr :: args', type :: types' =>
      run assert_ (isUnbound expr)
          "cannot use bound expressions as block arguments" in
      let* arg := onBuilder (addArgument irBlock type) in
      run bind (Bindable expr) (Some arg) in
      bindBlockArguments irBlock args' types'
  | _, _ => ret tt
  end.

(** [MLIREmitter::emitBlock] (lines 295-322) *)
Definition emitBlock (block : StmtBlock) : M MLIREmitter unit :=
  let* known := gets (fun st => blockBindings st !! blockStorage block) in
  match known with
  | Some _ => ret tt
  | None =>
      let* previous := gets (fun st => cursor (builder st)) in
      let* irBlock := onBuilder createBlock in
      run modify (fun st => set_blockBindings st
                    (<[blockStorage block := irBlock]> (blockBindings st))) in
      run bindBlockArguments irBlock (getArguments block) (getArgumentTypes block) in
      run emitStmts (getBody block) in
      onBuilder (setInsertionPoint previous)
  end.

End Emitter.

(** ** Memory-region views (lines 324-429) *)

(** The value of a shape entry as the C [int] that [isDynamicSize] takes:
    the entry is 64 bits wide where it is stored and is handed over as an
    [int], which keeps it modulo [2^32], in [-2^31 .. 2^31 - 1]. *)
Definition to_int (z : Z) : Z := (z + 2 ^ 31) mod 2 ^ 32 - 2 ^ 31.

(** [isDynamicSize(int size)] (line 324) *)
Definition isDynamicSize (size : Z) : bool := size <? 0.

(** The loop of [getMemRefSizes] from dimension [idx] on. *)
Fixpoint getMemRefSizes_from (memRef : Value) (shape : list Z) (idx : nat)
  : M Builder (list Value) :=
  match shape with
  | [] => ret []
  | size :: shape' =>
      let* v := if isDynamicSize (to_int size)
                then create1 (DimOp idx) [memRef] IndexType
                else create1 (ConstantIndexOp size) [] IndexType in
      let* vs := getMemRefSizes_from memRef shape' (S idx) in
      ret (v :: vs)
  end.

(** [memRef->getType().cast<MemRefType>().getShape()] *)
Definition getShape (memRef : Value) : option (list Z) :=
  match vtype memRef with
  | MemRefType shape _ => Some shape
  | _ => None
  end.

Definition getMemRefSizes (memRef : Value) : M Builder (list Value) :=
  match getShape memRef with
  | None => fatal "Expected a MemRef value"
  | Some shape => getMemRefSizes_from memRef shape 0
  end.

Definition makeBoundMemRefShape (memRef : Value) : M MLIREmitter (list Expr) :=
  match getShape memRef with
  | None => fatal "Expected a MemRef value"
  | Some shape =>
      let* memRefSizes := makeNewExprs (length shape) IndexType in
      let* memrefSizeValues := onBuilder (getMemRefSizes memRef) in
      run assert_ (length memrefSizeValues =? length memRefSizes)%nat
          "memrefSizeValues.size() == memRefSizes.size()" in
      run bindZipRange memRefSizes memrefSizeValues in
      ret memRefSizes
  end.

Record BoundMemRefView := mkBoundMemRefView {
  lbs : list Expr;
  ubs : list Expr;
  steps : list Expr
}.

(** [MLIREmitter::makeBoundMemRefView(Value *memRef)] (lines 398-422) *)
Definition makeBoundMemRefView (memRef : Value) : M MLIREmitter BoundMemRefView :=
  match getShape memRef with
  | None => fatal "cast<MemRefType>() argument of incompatible type"
  | Some shape =>
      let rank := length shape in
      let* zero := newExpr IndexType in
      run bindConstantIndex (Bindable zero) 0 in
      let lbs := replicate rank zero in
      let* ubs := makeBoundMemRefShape memRef in
      let* one := newExpr IndexType in
      run bindConstantIndex (Bindable one) 1 in
      let steps := replicate rank one in
      ret (mkBoundMemRefView lbs ubs steps)
  end.

(** Modelled from the spec: [getValue(e)], of the class declaration, is the
    binding of [e], null if there is none. *)
Definition getValue (e : Expr) (st : MLIREmitter) : option Value :=
  mjoin (ssaBindings st !! getStoragePtr e).

(** [MLIREmitter::makeBoundMemRefView(Expr boundMemRef)] (lines 424-429) *)
Definition makeBoundMemRefView_expr (boundMemRef : Expr)
  : M MLIREmitter BoundMemRefView :=
  let* v := gets (getValue boundMemRef) in
  match v with
  | None => fatal "Expected a bound Expr"
  | Some v => makeBoundMemRefView v
  end.

(** The instruction that gives the size of dimension [idx]. *)
Definition sizeInstruction (memRef : Value) (size : Z) (idx : nat) : Instruction :=
  if isDynamicSize (to_int size)
  then mkInstruction (DimOp idx) [memRef] [IndexType] None
  else mkInstruction (ConstantIndexOp size) [] [IndexType] None.

(** ** Consecutive identities *)

(** The [n]-th identity after [p], and the [n] identities from [p] on. *)
Fixpoint pos_plus (p : positive) (n : nat) : positive :=
  match n with
  | O => p
  | S n' => Pos.succ (pos_plus p n')
  end.

Definition pos_seq (p : positive) (n : nat) : list positive :=
  map (pos_plus p) (seq 0 n).

(** [b'] is [b] after the instructions [new] have been created, in this
    order, at the cursor [(blk, pos)]. *)
Definition Emitted (b : Builder) (blk : BlockId) (pos : InsertPoint)
    (new : list Instruction) (b' : Builder) : Prop :=
  cursor b' = cursor b
  /\ funcBlocks b' = funcBlocks b
  /\ nextBlock b' = nextBlock b
  /\ nextInst b' = pos_plus (nextInst b) (length new)
  /\ (forall i I, new !! i = Some I -> insts b' !! pos_plus (nextInst b) i = Some I)
  /\ blocks b' =
     alter (fun B => mkBlock (bparent B) (bargs B)
                             (insert_at pos (pos_seq (nextInst b) (length new))
                                        (binsts B)))
           blk (blocks b).

(** The insertion position is an instruction that exists already. *)
Definition cursor_before (b : Builder) (pos : InsertPoint) : Prop :=
  match pos with
  | Some j => (j < nextInst b)%positive
  | None => True
  end.

(** The storages the arena has not handed out yet have no binding. *)
Definition fresh_arena (st : MLIREmitter) : Prop :=
  forall k, (arena st <= k)%positive -> ssaBindings st !! k = None.

(** ** A build contract for operator nodes *)

(** Modelled from the spec: [Expr::build], which is outside this file.  A
    node that has a binding yields it.  Otherwise an operator node
    materialises its operands (each must yield exactly one result) and, when
    they all have a value, creates one instruction named after the node with
    the node's result types; when an operand has no value, no instruction is
    created and no value is produced.  A node that is neither bound nor an
    operator produces no value. *)
Fixpoint Expr_build (e : Expr) (bindings : gmap positive (option Value))
  : M Builder (list (option Value)) :=
  let buildOperands :=
    fix buildOperands (cs : list Expr) : M Builder (list (option Value)) :=
      match cs with
      | [] => ret []
      | c :: cs' =>
          let* subResults := Expr_build c bindings in
          match subResults with
          | [v] => let* vs := buildOperands cs' in ret (v :: vs)
          | _ => fatal "expected single-result expression as operand"
          end
      end in
  match bindings !! getStoragePtr e with
  | Some v => ret [v]
  | None =>
      if isOperatorExpr e then
        let* operands := buildOperands (getChildExpressions e) in
        if existsb isNull operands then ret [None]
        else
          let op := NamedOp (getName e) in
          let* i := create op (omap id operands) (getResultTypes e) in
          ret (map (fun ty => Some (mkValue (DefInst i op) ty)) (getResultTypes e))
      else ret [None]
  end.

(** The operand loop of [Expr_build]. *)
Definition Expr_buildOperands (bindings : gmap positive (option Value))
  : list Expr -> M Builder (list (option Value)) :=
  fix buildOperands (cs : list Expr) : M Builder (list (option Value)) :=
    match cs with
    | [] => ret []
    | c :: cs' =>
        let* subResults := Expr_build c bindings in
        match subResults with
        | [v] => let* vs := buildOperands cs' in ret (v :: vs)
        | _ => fatal "expected single-result expression as operand"
        end
    end.

(** The instructions [Expr_build] creates for [e] on the way to a value:
    none for a node that has a binding; for an operator node that has none,
    those of its operands, each operand counted as often as it occurs, and
    one for the node itself. *)
Fixpoint Expr_cost (bindings : gmap positive (option Value)) (e : Expr) : nat :=
  match bindings !! getStoragePtr e with
  | Some _ => 0
  | None =>
      if isOperatorExpr e
      then S (list_sum (map (Expr_cost bindings) (getChildExpressions e)))
      else 0
  end.

(** ** The provenance of loop bounds, in the words of the specification *)

(** A bound is derived from a constant, from a composed affine application,
    or is the induction variable of a bounded loop. *)
Definition spec_affine_provenance (b : Builder) (v : Value) : bool :=
  match getDefiningInst v with
  | Some op => isa_ConstantIndexOp op || isa_AffineApplyOp op
  | None => bool_decide (is_Some (getForInductionVarOwner b v))
  end.

(** The computation [m], run on the builder [b], creates exactly the
    instruction [op] over [operands] with one result of type [ty], and
    returns that result. *)
Definition lowersTo (m : M Builder Value) (b : Builder) (op : OpKind)
    (operands : list Value) (ty : MType) : Prop :=
  exists b',
    m b = Ok (mkValue (DefInst (nextInst b) op) ty) b'
    /\ insts b' !! nextInst b = Some (mkInstruction op operands [ty] None).

(** [def->dyn_cast<ConstantIndexOp>()] succeeds on a non-null [def]. *)
Definition isConstantIndex (v : Value) : bool :=
  match getDefiningInst v with
  | Some (ConstantIndexOp _) => true
  | _ => false
  end.

(** ** Vocabulary of the properties *)

(** The instruction selected for a loop. *)
Definition forInstruction (lb ub : Value) (step : Z) : OpKind * list Value :=
  match getDefiningInst lb, getDefiningInst ub with
  | Some (ConstantIndexOp l), Some (ConstantIndexOp u) =>
      (AffineForOp (ConstantBounds l u) step, [])
  | _, _ =>
      (AffineForOp (MapBounds getDimIdentityMap getDimIdentityMap) step, [lb; ub])
  end.

(** The builder after a loop instruction and its body have been created. *)
Definition withLoop (b : Builder) (blk : BlockId) (pos : InsertPoint)
    (op : OpKind) (operands : list Value) : Builder :=
  mkBuilder
    (alter (fun I => mkInstruction (iop I) (ioperands I) (iresults I)
                                   (Some (nextBlock b)))
           (nextInst b)
           (<[nextInst b := mkInstruction op operands [] None]> (insts b)))
    (<[nextBlock b := mkBlock (Some (nextInst b)) [IndexType] []]>
       (alter (Block_insert pos (nextInst b)) blk (blocks b)))
    (funcBlocks b) (cursor b) (Pos.succ (nextInst b)) (Pos.succ (nextBlock b)).

(** The storages of a node and of the nodes below it. *)
Fixpoint storages (e : Expr) : list positive :=
  getStoragePtr e :: flat_map storages (getChildExpressions e).

(** The contract of [Expr::build] on the builder: it inserts instructions
    at the cursor, and neither moves the cursor nor adds blocks to the
    function. *)
Definition inserts_at_cursor
    (build : Expr -> gmap positive (option Value) -> M Builder (list (option Value)))
  : Prop :=
  forall e m b,
    cursor (final_state (build e m b)) = cursor b
    /\ funcBlocks (final_state (build e m b)) = funcBlocks b.

(** Relations between the emitter before and after a step: the cursor is
    the same; the function has the same blocks; the binding table has only
    grown, and the block table is the same. *)
Definition keepsCursor (st st' : MLIREmitter) : Prop :=
  cursor (builder st') = cursor (builder st).

Definition keepsFuncBlocks (st st' : MLIREmitter) : Prop :=
  funcBlocks (builder st') = funcBlocks (builder st).

Definition growsBindings (st st' : MLIREmitter) : Prop :=
  ssaBindings st ⊆ ssaBindings st' /\ blockBindings st' = blockBindings st.

(** The bindings of the nodes outside [X] are left alone. *)
Definition bindsWithin (X : list positive) (st st' : MLIREmitter) : Prop :=
  forall k, k ∉ X -> ssaBindings st' !! k = ssaBindings st !! k.

(** The same cursor and the same function blocks, on builders. *)
Definition sameCursor (b b' : Builder) : Prop :=
  cursor b' = cursor b /\ funcBlocks b' = funcBlocks b.

(** ** Sample inputs

    A function with one entry block, whose arguments are an index, a
    [memref<?x4x?xf32>], an [f32], an [i32] and a [vector<8xf32>]; the
    builder inserts at the end of that block. *)
Module Sample.

Definition f32 : MType := FloatType F32.
Definition i32 : MType := IntegerType 32.
Definition memrefTy : MType := MemRefType [-1; 4; -1] f32.

Definition entry : BlockId := 1%positive.

Definition entryBlock : Block :=
  mkBlock None [IndexType; memrefTy; f32; i32; VectorType [8] f32] [].

Definition bld : Builder :=
  mkBuilder ∅ {[entry := entryBlock]} [entry]
            (Some (entry, None)) 1%positive 2%positive.

Definition argIndex : Value := mkValue (DefBlockArg entry 0) IndexType.
Definition argMemRef : Value := mkValue (DefBlockArg entry 1) memrefTy.
Definition argF32 : Value := mkValue (DefBlockArg entry 2) f32.
Definition argI32 : Value := mkValue (DefBlockArg entry 3) i32.
Definition argVecF32 : Value := mkValue (DefBlockArg entry 4) (VectorType [8] f32).

Definition placeholder (s : positive) (ty : MType) : Expr :=
  mkExpr s Unbound "" [ty] [].

Definition emitter : MLIREmitter :=
  mkEmitter bld ∅ ∅ (placeholder 1 IndexType) (placeholder 2 IndexType)
            100%positive [].

(** The emitter after node 10 has been bound to the index argument. *)
Definition emitter1 : MLIREmitter :=
  final_state (bind (placeholder 10 IndexType) (Some argIndex) emitter).

(** [x + y] over two float placeholders bound to the [f32] argument. *)
Definition x : Expr := placeholder 11 f32.
Definition y : Expr := placeholder 12 f32.
Definition addE : Expr := mkExpr 20 Binary "addf" [f32] [x; y].

Definition emitter2 : MLIREmitter :=
  final_state ((run bind x (Some argF32) in bind y (Some argF32)) emitter).

Definition addValue : Value := mkValue (DefInst 1%positive (NamedOp "addf")) f32.

(** The emitter after [addE] has been emitted. *)
Definition emitter3 : MLIREmitter :=
  final_state (emitExpr Expr_build addE emitter2).

(** A store of [x], which has no result; a statement around it; and a
    statement whose right-hand side is a placeholder nobody bound. *)
Definition storeE : Expr := mkExpr 30 Variadic "store" [] [x].
Definition storeStmt : Stmt := mkStmt (placeholder 31 f32) storeE [].
Definition storedEmitter : MLIREmitter :=
  final_state (emitExpr Expr_build storeE emitter2).
Definition emitter4 : MLIREmitter :=
  final_state (emitStmts Expr_build [storeStmt] emitter3).
Definition danglingStmt : Stmt :=
  mkStmt (placeholder 32 f32) (placeholder 33 f32) [].
Definition danglingEmitter : MLIREmitter :=
  final_state (emitExpr Expr_build (placeholder 33 f32) emitter2).

(** Loops from [lb] to [ub] by [step]. *)
Definition lb : Expr := placeholder 40 IndexType.
Definition ub : Expr := placeholder 41 IndexType.
Definition step : Expr := placeholder 42 IndexType.
Definition forE : Expr := mkExpr 43 For "for" [IndexType] [lb; ub; step].

(** Bounds 0 and 10, step 1. *)
Definition constLoopEmitter : MLIREmitter :=
  final_state ((run bindConstantIndex lb 0 in
                run bindConstantIndex ub 10 in
                bindConstantIndex step 1) emitter).
Definition c0 : Value := mkValue (DefInst 1%positive (ConstantIndexOp 0)) IndexType.
Definition c10 : Value := mkValue (DefInst 2%positive (ConstantIndexOp 10)) IndexType.
Definition c1 : Value := mkValue (DefInst 3%positive (ConstantIndexOp 1)) IndexType.

(** The lower bound is the function's index argument instead. *)
Definition argLoopEmitter : MLIREmitter :=
  final_state ((run bind lb (Some argIndex) in
                run bindConstantIndex ub 10 in
                bindConstantIndex step 1) emitter).
Definition argLoopDone : MLIREmitter :=
  final_state (emitExpr Expr_build forE argLoopEmitter).
Definition c10' : Value := mkValue (DefInst 1%positive (ConstantIndexOp 10)) IndexType.
Definition c1' : Value := mkValue (DefInst 2%positive (ConstantIndexOp 1)) IndexType.

(** The lower bound is the result of a float addition. *)
Definition badLoopEmitter : MLIREmitter :=
  final_state ((run bind lb (Some addValue) in
                run bindConstantIndex ub 10 in
                bindConstantIndex step 1) emitter).

(** A loop statement around a loop statement around a store whose operand
    nobody bound. *)
Definition forE2 : Expr := mkExpr 44 For "for" [IndexType] [lb; ub; step].
Definition badStore : Expr :=
  mkExpr 45 Variadic "store" [] [placeholder 46 f32].
Definition nestedStmt : Stmt :=
  mkStmt (placeholder 50 IndexType) forE
    [mkStmt (placeholder 51 IndexType) forE2
       [mkStmt (placeholder 52 f32) badStore []]].
Definition nestedEmitter : MLIREmitter :=
  final_state (emitStmt Expr_build nestedStmt constLoopEmitter).

(** A block with an index and a float argument, whose body adds the float
    argument to itself; and a block that declares an addition as its
    argument. *)
Definition a60 : Expr := placeholder 60 IndexType.
Definition a61 : Expr := placeholder 61 f32.
Definition block1 : StmtBlock :=
  mkStmtBlock 70 [a60; a61] [IndexType; f32]
    [mkStmt (placeholder 62 f32) (mkExpr 63 Binary "addf" [f32] [a61; a61]) []].
Definition blockEmitter : MLIREmitter :=
  final_state (emitBlock Expr_build block1 emitter).
Definition badBlock : StmtBlock := mkStmtBlock 71 [a60; addE] [IndexType; f32] [].

End Sample.

(** ** Function arguments (lines 372-383) *)

(** Modelled from the spec: a function of the host IR, as far as the emitter
    looks at it: its arguments, by position. *)
Record Function := mkFunction { fnArguments : list Value }.

Definition getNumArguments (f : Function) : nat := length (fnArguments f).
Definition getArgument (f : Function) (pos : nat) : option Value :=
  fnArguments f !! pos.

(** The loop of [makeBoundFunctionArguments] from position [pos] on, [count]
    positions being left ([npos - pos]). *)
Fixpoint bindArgumentsFrom (f : Function) (pos count : nat)
  : M MLIREmitter (list Expr) :=
  match count with
  | O => ret []
  | S count' =>
      match getArgument f pos with
      | None => fatal "argument position out of range"
      | Some arg =>
          let* b := newExpr (vtype arg) in
          run bind (Bindable b) (Some arg) in
          let* res := bindArgumentsFrom f (S pos) count' in
          ret (b :: res)
      end
  end.

(** [MLIREmitter::makeBoundFunctionArguments] *)
Definition makeBoundFunctionArguments (f : Function) : M MLIREmitter (list Expr) :=
  bindArgumentsFrom f 0 (getNumArguments f).

(** ** The C entry points (lines 476-567)

    The functions that take an [edsc_expr_list_t *result] take here the
    length [n] the caller gave it, and return the expressions they write. *)
Module CAPI.

(** [getRankOfFunctionArgument]; [None] is a failed assertion. *)
Definition getRankOfFunctionArgument (f : Function) (pos : nat) : option nat :=
  if (pos <? getNumArguments f)%nat then
    arg ← getArgument f pos;
    match vtype arg with
    | MemRefType shape _ => Some (length shape)
    | _ => Some 0%nat
    end
  else None.

(** [getTypeOfFunctionArgument] *)
Definition getTypeOfFunctionArgument (f : Function) (pos : nat) : option MType :=
  if (pos <? getNumArguments f)%nat then vtype <$> getArgument f pos else None.

(** [bindFunctionArgument] *)
Definition bindFunctionArgument (f : Function) (pos : nat) : M MLIREmitter Expr :=
  run assert_ (pos <? getNumArguments f)%nat "pos < f->getNumArguments()" in
  match getArgument f pos with
  | None => fatal "argument position out of range"
  | Some arg =>
      let* b := newExpr (vtype arg) in
      run bind (Bindable b) (Some arg) in
      ret b
  end.

(** [bindFunctionArguments]; the loop runs over the [n] positions of the
    result. *)
Definition bindFunctionArguments (f : Function) (n : nat)
  : M MLIREmitter (list Expr) :=
  run assert_ (n =? getNumArguments f)%nat "result->n == f->getNumArguments()" in
  bindArgumentsFrom f 0 n.

(** [getBoundMemRefRank] *)
Definition getBoundMemRefRank (boundMemRef : Expr) : M MLIREmitter nat :=
  let* v := gets (getValue boundMemRef) in
  match v with
  | None => fatal "Expected a bound Expr"
  | Some v =>
      match getShape v with
      | None => fatal "cast<MemRefType>() argument of incompatible type"
      | Some shape => ret (length shape)
      end
  end.

(** [bindMemRefShape] *)
Definition bindMemRefShape (boundMemRef : Expr) (n : nat)
  : M MLIREmitter (list Expr) :=
  let* v := gets (getValue boundMemRef) in
  match v with
  | None => fatal "Expected a bound Expr"
  | Some v =>
      match getShape v with
      | None => fatal "cast<MemRefType>() argument of incompatible type"
      | Some shape =>
          let rank := length shape in
          run assert_ (n =? rank)%nat
              "Unexpected memref shape binding results count" in
          let* bindables := makeBoundMemRefShape v in
          ret (take rank bindables)
      end
  end.

(** [bindMemRefView]; there is no check that the node is bound before its
    value is used. *)
Definition bindMemRefView (boundMemRef : Expr) (nLbs nUbs nSteps : nat)
  : M MLIREmitter BoundMemRefView :=
  let* v := gets (getValue boundMemRef) in
  match v with
  | None => fatal "null value"
  | Some v =>
      match getShape v with
      | None => fatal "cast<MemRefType>() argument of incompatible type"
      | Some shape =>
          let rank := length shape in
          run assert_ (nLbs =? rank)%nat "Unexpected memref binding results count" in
          run assert_ (nUbs =? rank)%nat "Unexpected memref binding results count" in
          run assert_ (nSteps =? rank)%nat "Unexpected memref binding results count" in
          let* bindables := makeBoundMemRefShape v in
          let* zero := newExpr IndexType in
          run bindConstantIndex zero 0 in
          let* one := newExpr IndexType in
          run bindConstantIndex one 1 in
          ret (mkBoundMemRefView (replicate rank zero) (take rank bindables)
                                 (replicate rank one))
      end
  end.

(** [bindConstantIndex(emitter, value)] *)
Definition bindConstantIndex (value : Z) : M MLIREmitter Expr :=
  let* b := newExpr IndexType in
  run bindConstantIndex (Bindable b) value in
  ret b.

End CAPI.

(** Both binding tables have only grown. *)
Definition growsTables (st st' : MLIREmitter) : Prop :=
  ssaBindings st ⊆ ssaBindings st' /\ blockBindings st ⊆ blockBindings st'.

(** ** More sample inputs *)
Module Sample2.

(** The function of [Sample], with its five arguments. *)
Definition fn : Function :=
  mkFunction [Sample.argIndex; Sample.argMemRef; Sample.argF32; Sample.argI32;
              Sample.argVecF32].

(** A value of a type that is neither index, integer nor float. *)
Definition argOpaque : Value :=
  mkValue (DefBlockArg Sample.entry 5) (OpaqueType "tensor").

(** A builder without insertion point. *)
Definition unsetBld : Builder :=
  mkBuilder ∅ {[Sample.entry := Sample.entryBlock]} [Sample.entry] None
            1%positive 2%positive.

(** A memref of rank 0. *)
Definition argScalarMemRef : Value :=
  mkValue (DefBlockArg Sample.entry 6) (MemRefType [] Sample.f32).

(** The emitter after node 80 has been bound to the memref argument. *)
Definition memRefNode : Expr := Sample.placeholder 80 Sample.memrefTy.
Definition memRefEmitter : MLIREmitter :=
  final_state (bind memRefNode (Some Sample.argMemRef) Sample.emitter).

(** An assignment of [x + y] and a loop with two control expressions. *)
Definition addStmt : Stmt := mkStmt (Sample.placeholder 21 Sample.f32) Sample.addE [].
Definition addStmtEmitter : MLIREmitter :=
  final_state (emitStmt Expr_build addStmt Sample.emitter2).
Definition shortFor : Expr :=
  mkExpr 47 For "for" [IndexType] [Sample.lb; Sample.ub].

(** [(x + y) * (x + y)], the two operands being the one node [addE]. *)
Definition squareE : Expr :=
  mkExpr 22 Binary "mulf" [Sample.f32] [Sample.addE; Sample.addE].
Definition addInstruction : Instruction :=
  mkInstruction (NamedOp "addf") [Sample.argF32; Sample.argF32] [Sample.f32] None.

(** A memref with one static extent of [2^31] elements. *)
Definition bigMemRef : Value :=
  mkValue (DefBlockArg Sample.entry 7) (MemRefType [2147483648] Sample.f32).

End Sample2.

(** * Properties *)

(** ** Reasoning about state-passing code *)

Lemma bnd_Ok {S A B} (m : M S A) (k : A -> M S B) s b s'' :
  bnd m k s = Ok b s'' <-> exists a s', m s = Ok a s' /\ k a s' = Ok b s''.
Proof.
  unfold bnd. split.
  - destruct (m s) as [a s'|msg s'] eqn:E; [eauto | discriminate].
  - intros (a & s' & -> & Hk). exact Hk.
Qed.

Lemma bnd_Fatal {S A B} (m : M S A) (k : A -> M S B) s msg s'' :
  bnd m k s = Fatal msg s'' <->
  m s = Fatal msg s'' \/ exists a s', m s = Ok a s' /\ k a s' = Fatal msg s''.
Proof.
  unfold bnd. split.
  - destruct (m s) as [a s'|msg' s'] eqn:E; [eauto | intros [= -> ->]; auto].
  - intros [-> | (a & s' & -> & Hk)]; [reflexivity | exact Hk].
Qed.

Lemma bnd_step {S A B} (m : M S A) (k : A -> M S B) s a s' :
  m s = Ok a s' -> bnd m k s = k a s'.
Proof. unfold bnd. intros ->. reflexivity. Qed.

Lemma bnd_abort {S A B} (m : M S A) (k : A -> M S B) s msg s' :
  m s = Fatal msg s' -> bnd m k s = Fatal msg s'.
Proof. unfold bnd. intros ->. reflexivity. Qed.

Lemma assert_Ok {S} (c : bool) msg (s s' : S) u :
  assert_ c msg s = Ok u s' <-> c = true /\ s' = s.
Proof.
  unfold assert_. destruct c; split.
  - intros [= _ <-]. auto.
  - intros [_ ->]. destruct u. reflexivity.
  - discriminate.
  - intros [? _]. discriminate.
Qed.

Section Preserves.
Context {S : Type} (R : relation S) `{!PreOrder R}.
#[local] Abbreviation preserves := (preserves R).

Lemma preserves_ret {A} (a : A) : preserves (ret a).
Proof. intros s. simpl. reflexivity. Qed.

Lemma preserves_fatal {A} msg : preserves (@fatal S A msg).
Proof. intros s. simpl. reflexivity. Qed.

Lemma preserves_assert c msg : preserves (@assert_ S c msg).
Proof. intros s. unfold assert_. destruct c; simpl; reflexivity. Qed.

Lemma preserves_gets {A} (f : S -> A) : preserves (gets f).
Proof. intros s. simpl. reflexivity. Qed.

Lemma preserves_modify (f : S -> S) :
  (forall s, R s (f s)) -> preserves (modify f).
Proof. intros H s. simpl. apply H. Qed.

Lemma preserves_bnd {A B} (m : M S A) (k : A -> M S B) :
  preserves m -> (forall a, preserves (k a)) -> preserves (bnd m k).
Proof.
  intros Hm Hk s. unfold bnd. specialize (Hm s).
  destruct (m s) as [a s'|msg s']; simpl in *; [|exact Hm].
  etransitivity; [exact Hm | apply Hk].
Qed.

(** The relation as seen on the results of a computation. *)
Lemma preserves_Ok {A} (m : M S A) s a s' :
  preserves m -> m s = Ok a s' -> R s s'.
Proof. intros H E. specialize (H s). rewrite E in H. exact H. Qed.

Lemma preserves_Fatal {A} (m : M S A) s msg s' :
  preserves m -> m s = Fatal msg s' -> R s s'.
Proof. intros H E. specialize (H s). rewrite E in H. exact H. Qed.
End Preserves.

Lemma final_state_onBuilder {A} (m : M Builder A) st :
  final_state (onBuilder m st) = set_builder st (final_state (m (builder st))).
Proof. unfold onBuilder. destruct (m (builder st)); reflexivity. Qed.

Lemma preserves_onBuilder (RB : relation Builder) (R : relation MLIREmitter)
    {A} (m : M Builder A) :
  (forall st b', RB (builder st) b' -> R st (set_builder st b')) ->
  preserves RB m -> preserves R (onBuilder m).
Proof.
  intros Hlift Hm st. rewrite final_state_onBuilder. apply Hlift, Hm.
Qed.

Lemma onBuilder_Ok {A} (m : M Builder A) st a st' :
  onBuilder m st = Ok a st' <->
  exists b', m (builder st) = Ok a b' /\ st' = set_builder st b'.
Proof.
  unfold onBuilder. split.
  - destruct (m (builder st)) as [a' b'|]; [intros [= -> <-]; eauto | discriminate].
  - intros (b' & -> & ->). reflexivity.
Qed.

(** ** Induction on expression and statement trees *)

Lemma Expr_ind (P : Expr -> Prop) :
  (forall s k n tys cs, Forall P cs -> P (mkExpr s k n tys cs)) ->
  forall e, P e.
Proof.
  intros H. fix IH 1. intros [s k n tys cs]. apply H.
  induction cs as [|c cs IHcs]; constructor; [apply IH | exact IHcs].
Qed.

Lemma Stmt_ind (P : Stmt -> Prop) :
  (forall l r body, Forall P body -> P (mkStmt l r body)) ->
  forall s, P s.
Proof.
  intros H. fix IH 1. intros [l r body]. apply H.
  induction body as [|c cs IHcs]; constructor; [apply IH | exact IHcs].
Qed.

(** ** The emitter, unfolded *)

Section EmitterFacts.

Variable build :
  Expr -> gmap positive (option Value) -> M Builder (list (option Value)).

Lemma emitExpr_unfold e :
  emitExpr build e =
  (let* it := gets (fun st => ssaBindings st !! getStoragePtr e) in
   match it with
   | Some v => ret v
   | None =>
       let* '(res, expectedEmpty) := buildOperator build e in
       if isFor e then
         let* exprs := emitExprs build (getChildExpressions e) in
         if existsb isNull exprs then ret None
         else
           let* iv := emitForOp exprs in
           emitExpr_finish e (Some iv) expectedEmpty
       else emitExpr_finish e res expectedEmpty
   end).
Proof. destruct e; reflexivity. Qed.

Lemma emitStmt_unfold stmt :
  emitStmt build stmt =
  (let* block_ip := gets (fun st => cursor (builder st)) in
   let* val := emitExpr build (getRHS stmt) in
   match val with
   | None =>
       run assert_ (isZeroResultOp (getRHS stmt))
           "dealloc, store or return expected as the only 0-result ops" in
       ret tt
   | Some v =>
       run bind (Bindable (getLHS stmt)) (Some v) in
       run (if isFor (getRHS stmt) then stepIntoLoop v else ret tt) in
       run emitStmts build (getEnclosedStmts stmt) in
       onBuilder (setInsertionPoint block_ip)
   end).
Proof. destruct stmt; reflexivity. Qed.

(** The memo hit of line 173. *)
Lemma emitExpr_bound e st v :
  ssaBindings st !! getStoragePtr e = Some v ->
  emitExpr build e st = Ok v st.
Proof.
  intros H. rewrite emitExpr_unfold. unfold bnd, gets. rewrite H. reflexivity.
Qed.

Lemma emitExpr_unbound e st :
  ssaBindings st !! getStoragePtr e = None ->
  emitExpr build e st =
  (let* '(res, expectedEmpty) := buildOperator build e in
   if isFor e then
     let* exprs := emitExprs build (getChildExpressions e) in
     if existsb isNull exprs then ret None
     else
       let* iv := emitForOp exprs in
       emitExpr_finish e (Some iv) expectedEmpty
   else emitExpr_finish e res expectedEmpty) st.
Proof.
  intros H. rewrite emitExpr_unfold. unfold bnd at 1, gets. rewrite H. reflexivity.
Qed.

Lemma emitExpr_finish_Ok e res expectedEmpty st r st' :
  emitExpr_finish e res expectedEmpty st = Ok r st' ->
  (isNull res && negb expectedEmpty = true /\ r = None /\
   st' = report (DiagError (getStoragePtr e) (ssaBindings st !! getStoragePtr e)) st)
  \/
  (isNull res && negb expectedEmpty = false /\ r = res /\
   ssaBindings st !! getStoragePtr e = None /\
   st' = set_ssaBindings st (<[getStoragePtr e := res]> (ssaBindings st))).
Proof.
  unfold emitExpr_finish.
  destruct (isNull res && negb expectedEmpty) eqn:E.
  - unfold bnd, gets, modify, ret. intros [= <- <-]. left. auto.
  - unfold bnd, gets, modify, ret, assert_.
    case_bool_decide as Hf; [|discriminate].
    intros [= <- <-]. right. auto.
Qed.

(** Whenever [emitExpr] returns a value, the node is bound to it. *)
Lemma emitExpr_value_recorded e st v st' :
  emitExpr build e st = Ok (Some v) st' ->
  ssaBindings st' !! getStoragePtr e = Some (Some v).
Proof.
  destruct (ssaBindings st !! getStoragePtr e) as [w|] eqn:Hb.
  - rewrite (emitExpr_bound _ _ _ Hb). intros [= -> ->]. exact Hb.
  - rewrite (emitExpr_unbound _ _ Hb).
    intros H. apply bnd_Ok in H as ([res ee] & st1 & _ & H).
    assert (Hfin : forall res ee s, emitExpr_finish e res ee s = Ok (Some v) st' ->
                   ssaBindings st' !! getStoragePtr e = Some (Some v)).
    { intros res' ee' s Hf. apply emitExpr_finish_Ok in Hf
        as [(_ & [=] & _) | (_ & <- & _ & ->)].
      simpl. apply lookup_insert_eq. }
    destruct (isFor e); [|eauto].
    apply bnd_Ok in H as (exprs & st2 & _ & H).
    destruct (existsb isNull exprs); [discriminate|].
    apply bnd_Ok in H as (iv & st3 & _ & H). eauto.
Qed.

Lemma emitExprs_replicate_bound n e st v :
  ssaBindings st !! getStoragePtr e = Some v ->
  emitExprs build (replicate n e) st = Ok (replicate n v) st.
Proof.
  intros H. induction n as [|n IH]; simpl; [reflexivity|].
  rewrite (bnd_step _ _ _ _ _ (emitExpr_bound _ _ _ H)).
  rewrite (bnd_step _ _ _ _ _ IH). reflexivity.
Qed.

End EmitterFacts.

(** ** Operator lowering *)

Lemma create1_Ok op operands ty b v b' :
  create1 op operands ty b = Ok v b' ->
  v = mkValue (DefInst (nextInst b) op) ty.
Proof.
  unfold create1, create, bnd, ret.
  destruct (cursor b) as [[blk pos]|]; [|discriminate].
  intros [= <- _]. reflexivity.
Qed.

Lemma create1_lowersTo op operands ty b :
  cursor b <> None -> lowersTo (create1 op operands ty) b op operands ty.
Proof.
  intros Hc. unfold lowersTo, create1, create, bnd, ret.
  destruct (cursor b) as [[blk pos]|]; [|congruence].
  eexists. split; [reflexivity|]. cbn [insts]. apply lookup_insert_eq.
Qed.

(** C3. The lowering of [+], [-] and [*] dispatches on the element category
    of the (first) operand: index elements give, for [+] and [-], one
    composed affine apply of d0+d1 (resp. d0-d1) over the two operands;
    integer elements the integer add/sub, float elements the float add/sub;
    [*] is an integer multiply unless the element is a float, then a float
    multiply, and is never an affine apply; a vector or memref operand is
    classified by its element type. *)
Theorem operator_lowering_by_element_category (a b : Value) (bld : Builder) :
  cursor bld <> None ->
  (isIndexElement a = true ->
     lowersTo (add a b) bld
       (AffineApplyOp (mkAffineMap 2 0 [AffineAddExpr (AffineDimExpr 0) (AffineDimExpr 1)]))
       [a; b] IndexType
     /\ lowersTo (sub a b) bld
       (AffineApplyOp (mkAffineMap 2 0 [AffineSubExpr (AffineDimExpr 0) (AffineDimExpr 1)]))
       [a; b] IndexType)
  /\ (isIntElement a = true ->
        lowersTo (add a b) bld AddIOp [a; b] (vtype a)
        /\ lowersTo (sub a b) bld SubIOp [a; b] (vtype a))
  /\ (isFloatElement a = true ->
        lowersTo (add a b) bld AddFOp [a; b] (vtype a)
        /\ lowersTo (sub a b) bld SubFOp [a; b] (vtype a)
        /\ lowersTo (mul a b) bld MulFOp [a; b] (vtype a))
  /\ (isFloatElement a = false ->
        lowersTo (mul a b) bld MulIOp [a; b] (vtype a))
  /\ (forall v bld' map, mul a b bld = Ok v bld' ->
        getDefiningInst v <> Some (AffineApplyOp map))
  /\ (forall def shape elt,
        let vec := mkValue def (VectorType shape elt) in
        let mem := mkValue def (MemRefType shape elt) in
        getElementType vec = elt /\ getElementType mem = elt
        /\ isIndexElement vec = MType_isIndex elt
        /\ isIntElement vec = MType_isa_IntegerType elt
        /\ isFloatElement vec = MType_isa_FloatType elt
        /\ isIndexElement mem = MType_isIndex elt
        /\ isIntElement mem = MType_isa_IntegerType elt
        /\ isFloatElement mem = MType_isa_FloatType elt).
Proof.
  intros Hc.
  unfold add, sub, mul, isIndexElement, isIntElement, isFloatElement.
  split; [|split; [|split; [|split; [|split]]]].
  - intros ->. split; apply create1_lowersTo, Hc.
  - intros H. destruct (getElementType a); try discriminate.
    split; apply create1_lowersTo, Hc.
  - intros H. destruct (getElementType a); try discriminate.
    repeat split; apply (create1_lowersTo _ _ _ _ Hc).
  - intros ->. apply create1_lowersTo, Hc.
  - intros v bld' map H.
    destruct (MType_isa_FloatType (getElementType a)); simpl in H;
      apply create1_Ok in H as ->; discriminate.
  - intros def shape elt. repeat split; reflexivity.
Qed.

Lemma operator_lowering_by_element_category_witness :
  cursor Sample.bld <> None
  /\ isIndexElement Sample.argIndex = true
  /\ isFloatElement Sample.argVecF32 = true
  /\ isIntElement Sample.argI32 = true
  /\ isFloatElement Sample.argI32 = false
  /\ lowersTo (add Sample.argIndex Sample.argIndex) Sample.bld
       (AffineApplyOp (mkAffineMap 2 0 [AffineAddExpr (AffineDimExpr 0) (AffineDimExpr 1)]))
       [Sample.argIndex; Sample.argIndex] IndexType
  /\ lowersTo (add Sample.argVecF32 Sample.argVecF32) Sample.bld
       AddFOp [Sample.argVecF32; Sample.argVecF32] (VectorType [8] Sample.f32)
  /\ lowersTo (sub Sample.argI32 Sample.argI32) Sample.bld
       SubIOp [Sample.argI32; Sample.argI32] Sample.i32
  /\ lowersTo (mul Sample.argI32 Sample.argI32) Sample.bld
       MulIOp [Sample.argI32; Sample.argI32] Sample.i32.
Proof.
  assert (Hc : cursor Sample.bld <> None) by discriminate.
  pose proof (operator_lowering_by_element_category
                Sample.argIndex Sample.argIndex Sample.bld Hc) as (Hidx & _).
  pose proof (operator_lowering_by_element_category
                Sample.argVecF32 Sample.argVecF32 Sample.bld Hc) as (_ & _ & Hf & _).
  pose proof (operator_lowering_by_element_category
                Sample.argI32 Sample.argI32 Sample.bld Hc) as (_ & Hi & _ & Hm & _).
  split; [exact Hc|].
  split; [reflexivity|]. split; [reflexivity|].
  split; [reflexivity|]. split; [reflexivity|].
  split; [apply Hidx; reflexivity|].
  split; [apply Hf; reflexivity|].
  split; [apply Hi; reflexivity|].
  apply Hm; reflexivity.
Defined.

(** ** The binding table *)

(** C2. Binding a node that is already in the binding table, with any value,
    aborts ("Double binding!") instead of returning, and leaves the IR and
    both binding tables as they were; a [bind] that returns found the node
    unbound, and every later [bind] of that node aborts. *)
Theorem bind_bound_node_is_fatal (e : Expr) (v : option Value) (st : MLIREmitter) :
  (is_Some (ssaBindings st !! getStoragePtr e) ->
     exists st', bind e v st = Fatal "Double binding!" st'
                 /\ builder st' = builder st
                 /\ ssaBindings st' = ssaBindings st
                 /\ blockBindings st' = blockBindings st)
  /\ (forall u st', bind e v st = Ok u st' ->
        ssaBindings st !! getStoragePtr e = None
        /\ ssaBindings st' !! getStoragePtr e = Some v
        /\ builder st' = builder st
        /\ forall v', aborts (bind e v' st')).
Proof.
  unfold bind. split.
  - intros [w Hw]. rewrite Hw. eexists. repeat split; reflexivity.
  - intros u st'. destruct (ssaBindings st !! getStoragePtr e) eqn:Hb; [discriminate|].
    intros [= _ <-]. cbn [ssaBindings set_ssaBindings builder].
    split; [reflexivity|]. split; [apply lookup_insert_eq|].
    split; [reflexivity|].
    intros v'. rewrite lookup_insert_eq. exact I.
Qed.

Lemma bind_bound_node_is_fatal_witness :
  is_Some (ssaBindings Sample.emitter1 !! 10%positive)
  /\ aborts (bind (Sample.placeholder 10 IndexType) (Some Sample.argF32)
                  Sample.emitter1).
Proof.
  assert (H : is_Some (ssaBindings Sample.emitter1 !! 10%positive)).
  { eexists. vm_compute. reflexivity. }
  split; [exact H|].
  destruct (bind_bound_node_is_fatal (Sample.placeholder 10 IndexType)
              (Some Sample.argF32) Sample.emitter1) as [Hf _].
  destruct (Hf H) as (st' & -> & _). exact I.
Defined.

(** ** Statements without a value *)

Section ZeroResult.

Variable build :
  Expr -> gmap positive (option Value) -> M Builder (list (option Value)).

(** C7. When the right-hand side of a statement yields no value, [emitStmt]
    returns only if the right-hand side is a dealloc, a store or a return,
    and then stops in the state [emitExpr] left, without binding the
    left-hand side; for any other right-hand side, including one that failed
    for a missing binding, it aborts. *)
Theorem emitStmt_zero_result (stmt : Stmt) (st st1 : MLIREmitter) :
  emitExpr build (getRHS stmt) st = Ok None st1 ->
  (isZeroResultOp (getRHS stmt) = true <->
     getName (getRHS stmt) = "dealloc" \/ getName (getRHS stmt) = "store"
     \/ getName (getRHS stmt) = "return")
  /\ (isZeroResultOp (getRHS stmt) = true ->
        emitStmt build stmt st = Ok tt st1
        /\ ssaBindings (final_state (emitStmt build stmt st))
             !! getStoragePtr (getLHS stmt)
           = ssaBindings st1 !! getStoragePtr (getLHS stmt))
  /\ (isZeroResultOp (getRHS stmt) = false ->
        emitStmt build stmt st =
          Fatal "dealloc, store or return expected as the only 0-result ops" st1).
Proof.
  intros H. split; [|split].
  - unfold isZeroResultOp, DeallocOp_getOperationName, StoreOp_getOperationName,
      ReturnOp_getOperationName.
    rewrite !orb_true_iff, !bool_decide_eq_true. tauto.
  - intros Hz.
    assert (E : emitStmt build stmt st = Ok tt st1).
    { rewrite emitStmt_unfold. unfold bnd at 1, gets.
      rewrite (bnd_step _ _ _ _ _ H), Hz. reflexivity. }
    rewrite E. split; reflexivity.
  - intros Hz. rewrite emitStmt_unfold. unfold bnd at 1, gets.
    rewrite (bnd_step _ _ _ _ _ H), Hz. reflexivity.
Qed.

End ZeroResult.

Lemma emitStmt_zero_result_witness :
  (emitExpr Expr_build (getRHS Sample.storeStmt) Sample.emitter2
     = Ok None Sample.storedEmitter
   /\ isZeroResultOp (getRHS Sample.storeStmt) = true
   /\ emitStmt Expr_build Sample.storeStmt Sample.emitter2
     = Ok tt Sample.storedEmitter)
  /\ (emitExpr Expr_build (getRHS Sample.danglingStmt) Sample.emitter2
        = Ok None Sample.danglingEmitter
      /\ isZeroResultOp (getRHS Sample.danglingStmt) = false
      /\ aborts (emitStmt Expr_build Sample.danglingStmt Sample.emitter2)).
Proof.
  assert (H1 : emitExpr Expr_build (getRHS Sample.storeStmt) Sample.emitter2
               = Ok None Sample.storedEmitter) by (vm_compute; reflexivity).
  assert (H2 : emitExpr Expr_build (getRHS Sample.danglingStmt) Sample.emitter2
               = Ok None Sample.danglingEmitter) by (vm_compute; reflexivity).
  split.
  - split; [exact H1|]. split; [reflexivity|].
    destruct (emitStmt_zero_result Expr_build _ _ _ H1) as (_ & Hok & _).
    apply Hok. reflexivity.
  - split; [exact H2|]. split; [reflexivity|].
    destruct (emitStmt_zero_result Expr_build _ _ _ H2) as (_ & _ & Hbad).
    rewrite Hbad by reflexivity. exact I.
Defined.

(** ** Loops *)

Lemma isFor_not_operator e : isFor e = true -> isOperatorExpr e = false.
Proof. unfold isFor, isOperatorExpr. destruct (getKind e); auto; discriminate. Qed.

Lemma hasAffineProvenance_spec (v : Value) :
  hasAffineProvenance (getDefiningInst v) = true <->
  getDefiningInst v = None
  \/ (exists c, getDefiningInst v = Some (ConstantIndexOp c))
  \/ (exists map, getDefiningInst v = Some (AffineApplyOp map))
  \/ (exists bounds step, getDefiningInst v = Some (AffineForOp bounds step)).
Proof.
  unfold hasAffineProvenance.
  destruct (getDefiningInst v) as [op|]; [|split; auto].
  split.
  - destruct op; try discriminate; intros _; eauto 6.
  - intros [H|[(c & [= ->])|[(m & [= ->])|(bs & c & [= ->])]]];
      [discriminate| reflexivity ..].
Qed.

Lemma createAffineFor_eq lb ub step :
  createAffineFor lb ub step =
  create (forInstruction lb ub step).1 (forInstruction lb ub step).2 [].
Proof.
  unfold createAffineFor, forInstruction.
  destruct (getDefiningInst lb) as [[]|]; try reflexivity.
  destruct (getDefiningInst ub) as [[]|]; reflexivity.
Qed.

Lemma forInstruction_constant lb ub step l u :
  getDefiningInst lb = Some (ConstantIndexOp l) ->
  getDefiningInst ub = Some (ConstantIndexOp u) ->
  forInstruction lb ub step = (AffineForOp (ConstantBounds l u) step, []).
Proof. unfold forInstruction. intros -> ->. reflexivity. Qed.

Lemma forInstruction_general lb ub step :
  isConstantIndex lb && isConstantIndex ub = false ->
  forInstruction lb ub step =
  (AffineForOp (MapBounds getDimIdentityMap getDimIdentityMap) step, [lb; ub]).
Proof.
  unfold forInstruction, isConstantIndex.
  destruct (getDefiningInst lb) as [[]|]; try reflexivity.
  destruct (getDefiningInst ub) as [[]|]; try reflexivity.
  discriminate.
Qed.

Lemma emitForOp_Ok lb ub sv c st blk pos :
  hasAffineProvenance (getDefiningInst lb) = true ->
  hasAffineProvenance (getDefiningInst ub) = true ->
  getDefiningInst sv = Some (ConstantIndexOp c) ->
  cursor (builder st) = Some (blk, pos) ->
  emitForOp [Some lb; Some ub; Some sv] st =
  Ok (getInductionVar (nextBlock (builder st)))
     (set_builder st (withLoop (builder st) blk pos
                        (forInstruction lb ub c).1 (forInstruction lb ub c).2)).
Proof.
  intros Hl Hu Hs Hc. unfold emitForOp.
  cbn [length Nat.eqb]. unfold bnd at 1. cbn [assert_].
  rewrite Hl. unfold bnd at 1. cbn [assert_].
  rewrite Hu. unfold bnd at 1. cbn [assert_].
  rewrite Hs. unfold bnd at 1. cbn [ret].
  rewrite createAffineFor_eq.
  unfold bnd, onBuilder, create. rewrite Hc.
  unfold createBody, ret, set_builder, withLoop. cbn. rewrite Hc. reflexivity.
Qed.

Section Loops.

Variable build :
  Expr -> gmap positive (option Value) -> M Builder (list (option Value)).

Lemma emitExpr_For e st exprs st1 :
  isFor e = true ->
  ssaBindings st !! getStoragePtr e = None ->
  emitExprs build (getChildExpressions e) st = Ok exprs st1 ->
  emitExpr build e st =
  (if existsb isNull exprs then ret None
   else let* iv := emitForOp exprs in emitExpr_finish e (Some iv) false) st1.
Proof.
  intros Hf Hb He. rewrite (emitExpr_unbound _ _ _ Hb).
  unfold buildOperator. rewrite (isFor_not_operator _ Hf), Hf.
  unfold bnd at 1. cbn [ret].
  rewrite (bnd_step _ _ _ _ _ He). reflexivity.
Qed.

End Loops.

(** ** What emission keeps *)

#[local] Instance keepsCursor_preorder : PreOrder keepsCursor.
Proof.
  split; [intros st; reflexivity|].
  intros a b c H1 H2. unfold keepsCursor in *. congruence.
Qed.

#[local] Instance keepsFuncBlocks_preorder : PreOrder keepsFuncBlocks.
Proof.
  split; [intros st; reflexivity|].
  intros a b c H1 H2. unfold keepsFuncBlocks in *. congruence.
Qed.

#[local] Instance growsBindings_preorder : PreOrder growsBindings.
Proof.
  split; [intros st; split; reflexivity|].
  intros a b c [H1 H1'] [H2 H2']. split; [etransitivity; eassumption | congruence].
Qed.

#[local] Instance bindsWithin_preorder X : PreOrder (bindsWithin X).
Proof.
  split; [intros st k _; reflexivity|].
  intros a b c H1 H2 k Hk. rewrite (H2 k Hk). apply H1, Hk.
Qed.

Lemma create_cursor op operands tys b :
  cursor (final_state (create op operands tys b)) = cursor b
  /\ funcBlocks (final_state (create op operands tys b)) = funcBlocks b.
Proof.
  unfold create. destruct (cursor b) as [[blk pos]|] eqn:E; simpl; auto.
Qed.

Lemma createBody_cursor i b :
  cursor (final_state (createBody i b)) = cursor b
  /\ funcBlocks (final_state (createBody i b)) = funcBlocks b.
Proof. split; reflexivity. Qed.

Section EmitExprPreserves.

Variable build :
  Expr -> gmap positive (option Value) -> M Builder (list (option Value)).
Variable R : relation MLIREmitter.
Context `{!PreOrder R}.
Variable P : positive -> Prop.

Hypothesis R_build : forall e m, preserves R (onBuilder (build e m)).
Hypothesis R_builder : forall st b',
  cursor b' = cursor (builder st) -> funcBlocks b' = funcBlocks (builder st) ->
  R st (set_builder st b').
Hypothesis R_report : forall d st, R st (report d st).
Hypothesis R_insert : forall st k v,
  P k -> ssaBindings st !! k = None ->
  R st (set_ssaBindings st (<[k := v]> (ssaBindings st))).

Lemma buildOperator_preserves e : preserves R (buildOperator build e).
Proof.
  unfold buildOperator. destruct (isOperatorExpr e); [|apply preserves_ret; exact _].
  apply preserves_bnd; [exact _ | apply preserves_gets; exact _ |].
  intros m. apply preserves_bnd; [exact _ | apply R_build |].
  intros results. apply preserves_bnd; [exact _ | apply preserves_assert; exact _ |].
  intros _. apply preserves_ret; exact _.
Qed.

Lemma emitExpr_finish_preserves e res ee :
  P (getStoragePtr e) -> preserves R (emitExpr_finish e res ee).
Proof.
  intros HP st. unfold emitExpr_finish.
  destruct (isNull res && negb ee).
  - unfold bnd, gets, modify, ret. simpl. apply R_report.
  - unfold bnd, gets, modify, ret, assert_.
    case_bool_decide as Hf; simpl; [|reflexivity].
    apply R_insert; assumption.
Qed.

Lemma emitForOp_preserves exprs : preserves R (emitForOp exprs).
Proof.
  unfold emitForOp.
  apply preserves_bnd; [exact _ | apply preserves_assert; exact _ |]. intros _.
  destruct exprs as [|[lb|] [|[ub|] [|[sv|] [|? ?]]]];
    try (apply preserves_fatal; exact _).
  apply preserves_bnd; [exact _ | apply preserves_assert; exact _ |]. intros _.
  apply preserves_bnd; [exact _ | apply preserves_assert; exact _ |]. intros _.
  apply preserves_bnd; [exact _ | |].
  { destruct (getDefiningInst sv) as [[]|];
      first [apply preserves_ret; exact _ | apply preserves_fatal; exact _]. }
  intros step. apply preserves_bnd; [exact _ | |].
  { intros st. rewrite final_state_onBuilder, createAffineFor_eq.
    apply R_builder; apply create_cursor. }
  intros forOp. apply preserves_bnd; [exact _ | | intros; apply preserves_ret; exact _].
  intros st. rewrite final_state_onBuilder. apply R_builder; apply createBody_cursor.
Qed.

Lemma emitExprs_preserves cs :
  Forall (fun c => preserves R (emitExpr build c)) cs ->
  preserves R (emitExprs build cs).
Proof.
  induction 1 as [|c cs Hc _ IH]; simpl; [apply preserves_ret; exact _|].
  apply preserves_bnd; [exact _ | exact Hc |]. intros v.
  apply preserves_bnd; [exact _ | exact IH |]. intros vs.
  apply preserves_ret; exact _.
Qed.

Lemma emitExpr_preserves e :
  Forall P (storages e) -> preserves R (emitExpr build e).
Proof.
  induction e as [s k n tys cs IH] using Expr_ind. intros HP.
  rewrite emitExpr_unfold.
  apply preserves_bnd; [exact _ | apply preserves_gets; exact _ |].
  intros [v|]; [apply preserves_ret; exact _|].
  apply preserves_bnd; [exact _ | apply buildOperator_preserves |].
  intros [res ee].
  assert (Hs : P (getStoragePtr (mkExpr s k n tys cs))).
  { cbn [storages] in HP. apply Forall_cons in HP as [HP _]. exact HP. }
  destruct (isFor _); [|apply emitExpr_finish_preserves, Hs].
  apply preserves_bnd; [exact _ | |].
  - apply emitExprs_preserves. cbn [storages getChildExpressions] in *.
    apply Forall_cons in HP as [_ HP].
    clear Hs. induction IH as [|c cs' Hc _ IHcs]; constructor.
    + apply Hc. cbn [flat_map] in HP. apply Forall_app in HP as [HP _]. exact HP.
    + apply IHcs. cbn [flat_map] in HP. apply Forall_app in HP as [_ HP]. exact HP.
  - intros exprs. destruct (existsb isNull exprs); [apply preserves_ret; exact _|].
    apply preserves_bnd; [exact _ | apply emitForOp_preserves |].
    intros iv. apply emitExpr_finish_preserves, Hs.
Qed.

End EmitExprPreserves.

Section EmitExprKeeps.

Variable build :
  Expr -> gmap positive (option Value) -> M Builder (list (option Value)).

Lemma Forall_True {A} (l : list A) : Forall (fun _ => True) l.
Proof. induction l; constructor; auto. Qed.

Lemma emitExpr_keepsCursor e :
  inserts_at_cursor build -> preserves keepsCursor (emitExpr build e).
Proof.
  intros Hb.
  apply (emitExpr_preserves build keepsCursor (fun _ => True));
    [| | | | apply Forall_True].
  - intros e' m st. rewrite final_state_onBuilder. apply Hb.
  - intros st b' Hc _. exact Hc.
  - intros d st. reflexivity.
  - intros st k v _ _. reflexivity.
Qed.

Lemma emitExpr_keepsFuncBlocks e :
  inserts_at_cursor build -> preserves keepsFuncBlocks (emitExpr build e).
Proof.
  intros Hb.
  apply (emitExpr_preserves build keepsFuncBlocks (fun _ => True));
    [| | | | apply Forall_True].
  - intros e' m st. rewrite final_state_onBuilder. apply Hb.
  - intros st b' _ Hf. exact Hf.
  - intros d st. reflexivity.
  - intros st k v _ _. reflexivity.
Qed.

Lemma emitExpr_growsBindings e : preserves growsBindings (emitExpr build e).
Proof.
  apply (emitExpr_preserves build growsBindings (fun _ => True));
    [| | | | apply Forall_True].
  - intros e' m st. rewrite final_state_onBuilder. split; reflexivity.
  - intros st b' _ _. split; reflexivity.
  - intros d st. split; reflexivity.
  - intros st k v _ Hk. split; [|reflexivity].
    cbn [ssaBindings set_ssaBindings]. apply insert_subseteq, Hk.
Qed.

Lemma emitExpr_bindsWithin X e :
  Forall (fun k => k ∈ X) (storages e) ->
  preserves (bindsWithin X) (emitExpr build e).
Proof.
  apply (emitExpr_preserves build (bindsWithin X) (fun k => k ∈ X)).
  - intros e' m st. rewrite final_state_onBuilder. intros k _. reflexivity.
  - intros st b' _ _ k _. reflexivity.
  - intros d st k _. reflexivity.
  - intros st k v Hk _ k' Hk'. cbn [ssaBindings set_ssaBindings].
    apply lookup_insert_ne. intros ->. contradiction.
Qed.

Lemma emitExprs_bindsWithin X cs :
  Forall (fun k => k ∈ X) (flat_map storages cs) ->
  preserves (bindsWithin X) (emitExprs build cs).
Proof.
  intros H. apply emitExprs_preserves; [exact _|].
  induction cs as [|c cs IH]; constructor.
  - apply emitExpr_bindsWithin. cbn [flat_map] in H.
    apply Forall_app in H as [H _]. exact H.
  - apply IH. cbn [flat_map] in H. apply Forall_app in H as [_ H]. exact H.
Qed.

(** Emitting the children of a node that is not below itself leaves the
    binding of the node alone. *)
Lemma emitExprs_children_unbound e st vs st1 :
  getStoragePtr e ∉ flat_map storages (getChildExpressions e) ->
  emitExprs build (getChildExpressions e) st = Ok vs st1 ->
  ssaBindings st1 !! getStoragePtr e = ssaBindings st !! getStoragePtr e.
Proof.
  intros Hwf He.
  eapply (preserves_Ok _ _ _ _ _
            (emitExprs_bindsWithin (flat_map storages (getChildExpressions e))
               (getChildExpressions e)
               (proj2 (Forall_forall _ _) (fun _ H => H))) He).
  exact Hwf.
Qed.

Lemma bind_growsBindings e v : preserves growsBindings (bind e v).
Proof.
  intros st. unfold bind.
  destruct (ssaBindings st !! getStoragePtr e) eqn:Hb; simpl.
  - split; reflexivity.
  - split; [apply insert_subseteq, Hb | reflexivity].
Qed.

Lemma bind_keepsBuilder e v st :
  builder (final_state (bind e v st)) = builder st.
Proof. unfold bind. destruct (ssaBindings st !! getStoragePtr e); reflexivity. Qed.

End EmitExprKeeps.

(** ** Lowering of loops *)

Section LoopLowering.

Variable build :
  Expr -> gmap positive (option Value) -> M Builder (list (option Value)).

(** C5. A loop node whose lower and upper bounds are both defined by
    constant-index instructions is emitted in the constant-bounded form;
    when either bound is not (and has affine provenance), it is emitted in
    the general form, with the identity map over each bound.  In both cases
    the body block is created, with the induction variable as its argument,
    and the node is bound to the induction variable, which [emitExpr]
    returns. *)
Theorem loop_form_selection (e : Expr) (st st1 : MLIREmitter)
    (lb ub sv : Value) (c : Z) (blk : BlockId) (pos : InsertPoint) :
  isFor e = true ->
  ssaBindings st !! getStoragePtr e = None ->
  getStoragePtr e ∉ flat_map storages (getChildExpressions e) ->
  emitExprs build (getChildExpressions e) st = Ok [Some lb; Some ub; Some sv] st1 ->
  hasAffineProvenance (getDefiningInst lb) = true ->
  hasAffineProvenance (getDefiningInst ub) = true ->
  getDefiningInst sv = Some (ConstantIndexOp c) ->
  cursor (builder st1) = Some (blk, pos) ->
  let forOp := nextInst (builder st1) in
  let body := nextBlock (builder st1) in
  let iv := getInductionVar body in
  exists st' op operands,
    emitExpr build e st = Ok (Some iv) st'
    /\ insts (builder st') !! forOp = Some (mkInstruction op operands [] (Some body))
    /\ (forall l u, getDefiningInst lb = Some (ConstantIndexOp l) ->
                    getDefiningInst ub = Some (ConstantIndexOp u) ->
                    op = AffineForOp (ConstantBounds l u) c /\ operands = [])
    /\ (isConstantIndex lb && isConstantIndex ub = false ->
        op = AffineForOp (MapBounds getDimIdentityMap getDimIdentityMap) c
        /\ operands = [lb; ub])
    /\ blocks (builder st') !! body = Some (mkBlock (Some forOp) [IndexType] [])
    /\ getForInductionVarOwner (builder st') iv
       = Some (mkInstruction op operands [] (Some body))
    /\ ssaBindings st' = <[getStoragePtr e := Some iv]> (ssaBindings st1)
    /\ cursor (builder st') = cursor (builder st1).
Proof.
  intros Hf Hb Hwf He Hl Hu Hs Hc forOp body iv.
  assert (Hb1 : ssaBindings st1 !! getStoragePtr e = None)
    by (rewrite (emitExprs_children_unbound build _ _ _ _ Hwf He); exact Hb).
  pose (op := (forInstruction lb ub c).1).
  pose (operands := (forInstruction lb ub c).2).
  exists (set_ssaBindings
            (set_builder st1 (withLoop (builder st1) blk pos op operands))
            (<[getStoragePtr e := Some iv]> (ssaBindings st1))), op, operands.
  assert (Hin : insts (withLoop (builder st1) blk pos op operands) !! forOp
                = Some (mkInstruction op operands [] (Some body))).
  { unfold withLoop. cbn [insts].
    rewrite lookup_alter_eq, lookup_insert_eq. reflexivity. }
  assert (Hbl : blocks (withLoop (builder st1) blk pos op operands) !! body
                = Some (mkBlock (Some forOp) [IndexType] [])).
  { unfold withLoop. cbn [blocks]. apply lookup_insert_eq. }
  split; [|split; [|split; [|split; [|split; [|split; [|split]]]]]].
  - rewrite (emitExpr_For _ _ _ _ _ Hf Hb He). cbn [existsb isNull orb].
    rewrite (bnd_step _ _ _ _ _ (emitForOp_Ok _ _ _ _ _ _ _ Hl Hu Hs Hc)).
    unfold emitExpr_finish. cbn [isNull andb].
    unfold bnd, gets, assert_, modify, ret.
    cbn [ssaBindings set_builder]. rewrite Hb1.
    rewrite bool_decide_eq_true_2 by reflexivity. reflexivity.
  - exact Hin.
  - intros l u El Eu. subst op operands.
    rewrite (forInstruction_constant _ _ _ _ _ El Eu). auto.
  - intros Hn. subst op operands.
    rewrite (forInstruction_general _ _ _ Hn). auto.
  - exact Hbl.
  - unfold getForInductionVarOwner. cbn [iv getInductionVar vdef builder
      set_ssaBindings set_builder].
    rewrite Hbl. cbn [mbind option_bind bparent]. rewrite Hin.
    cbn [mbind option_bind iop]. subst op. unfold forInstruction.
    destruct (getDefiningInst lb) as [[]|]; try reflexivity.
    destruct (getDefiningInst ub) as [[]|]; reflexivity.
  - reflexivity.
  - reflexivity.
Qed.

(** C4, as the code has it.  When [emitExpr] lowers a loop node, the step
    must be defined by a constant-index instruction, and each of the lower
    and upper bounds must either have no defining instruction (a function or
    block argument, a loop induction variable among them) or be defined by a
    constant-index, affine-apply or affine-for instruction; in every other
    case the emitter aborts, and otherwise it returns. *)
Theorem loop_bounds_provenance (e : Expr) (st st1 : MLIREmitter) (lb ub sv : Value) :
  isFor e = true ->
  ssaBindings st !! getStoragePtr e = None ->
  emitExprs build (getChildExpressions e) st = Ok [Some lb; Some ub; Some sv] st1 ->
  (hasAffineProvenance (getDefiningInst lb) = false -> aborts (emitExpr build e st))
  /\ (hasAffineProvenance (getDefiningInst ub) = false -> aborts (emitExpr build e st))
  /\ ((forall c, getDefiningInst sv <> Some (ConstantIndexOp c)) ->
      aborts (emitExpr build e st))
  /\ (forall c,
        hasAffineProvenance (getDefiningInst lb) = true ->
        hasAffineProvenance (getDefiningInst ub) = true ->
        getDefiningInst sv = Some (ConstantIndexOp c) ->
        cursor (builder st1) <> None ->
        getStoragePtr e ∉ flat_map storages (getChildExpressions e) ->
        returns (emitExpr build e st)).
Proof.
  intros Hf Hb He.
  rewrite (emitExpr_For _ _ _ _ _ Hf Hb He). cbn [existsb isNull orb].
  split; [|split; [|split]].
  - intros Hl. unfold bnd at 1, emitForOp. cbn [length Nat.eqb].
    unfold bnd at 1. cbn [assert_]. rewrite Hl. exact I.
  - intros Hu. unfold bnd at 1, emitForOp. cbn [length Nat.eqb].
    unfold bnd at 1. cbn [assert_].
    destruct (hasAffineProvenance (getDefiningInst lb)); [|exact I].
    unfold bnd at 1. cbn [assert_]. rewrite Hu. exact I.
  - intros Hs. unfold bnd at 1, emitForOp. cbn [length Nat.eqb].
    unfold bnd at 1. cbn [assert_].
    destruct (hasAffineProvenance (getDefiningInst lb)); [|exact I].
    unfold bnd at 1. cbn [assert_].
    destruct (hasAffineProvenance (getDefiningInst ub)); [|exact I].
    unfold bnd at 1.
    destruct (getDefiningInst sv) as [[]|]; try exact I.
    exfalso. eapply Hs. reflexivity.
  - intros c Hl Hu Hs Hc Hwf.
    assert (Hb1 : ssaBindings st1 !! getStoragePtr e = None)
      by (rewrite (emitExprs_children_unbound build _ _ _ _ Hwf He); exact Hb).
    destruct (cursor (builder st1)) as [[blk pos]|] eqn:Ec; [|congruence].
    rewrite (bnd_step _ _ _ _ _ (emitForOp_Ok _ _ _ _ _ _ _ Hl Hu Hs Ec)).
    unfold emitExpr_finish. cbn [isNull andb].
    unfold bnd, gets, assert_, modify, ret.
    cbn [ssaBindings set_builder]. rewrite Hb1.
    rewrite bool_decide_eq_true_2 by reflexivity. exact I.
Qed.

End LoopLowering.

Lemma loop_form_selection_witness :
  (emitExprs Expr_build (getChildExpressions Sample.forE) Sample.constLoopEmitter
     = Ok [Some Sample.c0; Some Sample.c10; Some Sample.c1] Sample.constLoopEmitter
   /\ exists st',
       emitExpr Expr_build Sample.forE Sample.constLoopEmitter
         = Ok (Some (getInductionVar 2%positive)) st'
       /\ insts (builder st') !! 4%positive
          = Some (mkInstruction (AffineForOp (ConstantBounds 0 10) 1) [] []
                                (Some 2%positive)))
  /\ (emitExprs Expr_build (getChildExpressions Sample.forE) Sample.argLoopEmitter
        = Ok [Some Sample.argIndex; Some Sample.c10'; Some Sample.c1']
             Sample.argLoopEmitter
      /\ exists st',
          emitExpr Expr_build Sample.forE Sample.argLoopEmitter
            = Ok (Some (getInductionVar 2%positive)) st'
          /\ insts (builder st') !! 3%positive
             = Some (mkInstruction
                       (AffineForOp (MapBounds getDimIdentityMap getDimIdentityMap) 1)
                       [Sample.argIndex; Sample.c10'] [] (Some 2%positive))).
Proof.
  assert (H1 : emitExprs Expr_build (getChildExpressions Sample.forE)
                 Sample.constLoopEmitter
               = Ok [Some Sample.c0; Some Sample.c10; Some Sample.c1]
                    Sample.constLoopEmitter) by (vm_compute; reflexivity).
  assert (H2 : emitExprs Expr_build (getChildExpressions Sample.forE)
                 Sample.argLoopEmitter
               = Ok [Some Sample.argIndex; Some Sample.c10'; Some Sample.c1']
                    Sample.argLoopEmitter) by (vm_compute; reflexivity).
  assert (Hwf : getStoragePtr Sample.forE
                ∉ flat_map storages (getChildExpressions Sample.forE))
    by (apply (bool_decide_unpack _); vm_compute; exact I).
  split.
  - split; [exact H1|].
    destruct (loop_form_selection Expr_build Sample.forE
                Sample.constLoopEmitter Sample.constLoopEmitter
                Sample.c0 Sample.c10 Sample.c1 1 Sample.entry None
                eq_refl eq_refl Hwf H1
                eq_refl eq_refl eq_refl eq_refl)
      as (st' & op & operands & He & Hi & Hc & _).
    destruct (Hc 0 10 eq_refl eq_refl) as [-> ->].
    exists st'. split; [exact He | exact Hi].
  - split; [exact H2|].
    destruct (loop_form_selection Expr_build Sample.forE
                Sample.argLoopEmitter Sample.argLoopEmitter
                Sample.argIndex Sample.c10' Sample.c1' 1 Sample.entry None
                eq_refl eq_refl Hwf H2
                eq_refl eq_refl eq_refl eq_refl)
      as (st' & op & operands & He & Hi & _ & Hg & _).
    destruct (Hg eq_refl) as [-> ->].
    exists st'. split; [exact He | exact Hi].
Defined.

(** A lower bound that is a function argument is none of a constant, an
    affine application or a loop induction variable, and yet the loop is
    emitted, in the general form: [emitExpr] returns its induction
    variable instead of aborting. *)
Lemma function_argument_bound_is_accepted :
  emitExprs Expr_build (getChildExpressions Sample.forE) Sample.argLoopEmitter
    = Ok [Some Sample.argIndex; Some Sample.c10'; Some Sample.c1']
         Sample.argLoopEmitter
  /\ spec_affine_provenance (builder Sample.argLoopEmitter) Sample.argIndex = false
  /\ returns (emitExpr Expr_build Sample.forE Sample.argLoopEmitter)
  /\ emitExpr Expr_build Sample.forE Sample.argLoopEmitter
     = Ok (Some (getInductionVar 2%positive)) Sample.argLoopDone.
Proof.
  split; [vm_compute; reflexivity|].
  split; [vm_compute; reflexivity|].
  split; [vm_compute; exact I|].
  vm_compute; reflexivity.
Qed.

Lemma loop_bounds_provenance_witness :
  emitExprs Expr_build (getChildExpressions Sample.forE) Sample.badLoopEmitter
    = Ok [Some Sample.addValue; Some Sample.c10'; Some Sample.c1']
         Sample.badLoopEmitter
  /\ hasAffineProvenance (getDefiningInst Sample.addValue) = false
  /\ aborts (emitExpr Expr_build Sample.forE Sample.badLoopEmitter).
Proof.
  assert (H : emitExprs Expr_build (getChildExpressions Sample.forE)
                Sample.badLoopEmitter
              = Ok [Some Sample.addValue; Some Sample.c10'; Some Sample.c1']
                   Sample.badLoopEmitter) by (vm_compute; reflexivity).
  split; [exact H|]. split; [reflexivity|].
  destruct (loop_bounds_provenance Expr_build Sample.forE
              Sample.badLoopEmitter Sample.badLoopEmitter
              Sample.addValue Sample.c10' Sample.c1'
              eq_refl eq_refl H) as (Hl & _).
  apply Hl. reflexivity.
Defined.

Section EmitStmtPreserves.

Variable build :
  Expr -> gmap positive (option Value) -> M Builder (list (option Value)).
Variable R : relation MLIREmitter.
Context `{!PreOrder R}.

Hypothesis R_emitExpr : forall e, preserves R (emitExpr build e).
Hypothesis R_bind : forall e v, preserves R (bind e v).
Hypothesis R_cursor : forall c, preserves R (onBuilder (setInsertionPoint c)).

Lemma stepIntoLoop_preserves v : preserves R (stepIntoLoop v).
Proof.
  unfold stepIntoLoop.
  apply preserves_bnd; [exact _ | apply preserves_gets; exact _ |]. intros b.
  destruct (getForInductionVarOwner b v) as [forOp|];
    [|apply preserves_fatal; exact _].
  destruct (ibody forOp) as [body|]; [|apply preserves_fatal; exact _].
  intros st. unfold onBuilder, setInsertionPointToStart.
  apply (R_cursor _ st).
Qed.

Lemma emitStmts_preserves ss :
  Forall (fun s => preserves R (emitStmt build s)) ss ->
  preserves R (emitStmts build ss).
Proof.
  induction 1 as [|s ss Hs _ IH]; simpl; [apply preserves_ret; exact _|].
  apply preserves_bnd; [exact _ | exact Hs | intros _; exact IH].
Qed.

Lemma emitStmt_preserves s : preserves R (emitStmt build s).
Proof.
  induction s as [l r body IH] using Stmt_ind.
  rewrite emitStmt_unfold.
  apply preserves_bnd; [exact _ | apply preserves_gets; exact _ |]. intros ip.
  apply preserves_bnd; [exact _ | apply R_emitExpr |].
  intros [v|].
  - apply preserves_bnd; [exact _ | apply R_bind |]. intros _.
    apply preserves_bnd; [exact _ | |].
    { destruct (isFor _); [apply stepIntoLoop_preserves | apply preserves_ret; exact _]. }
    intros _. apply preserves_bnd; [exact _ | |intros _; apply R_cursor].
    apply emitStmts_preserves, IH.
  - apply preserves_bnd; [exact _ | apply preserves_assert; exact _ |].
    intros _. apply preserves_ret; exact _.
Qed.

End EmitStmtPreserves.

(** ** Memoised emission *)

Section Memoization.

Variable build :
  Expr -> gmap positive (option Value) -> M Builder (list (option Value)).

Lemma emitStmts_growsBindings ss : preserves growsBindings (emitStmts build ss).
Proof.
  apply emitStmts_preserves; [exact _|].
  apply Forall_forall. intros s _.
  apply emitStmt_preserves; [exact _ | | |].
  - apply emitExpr_growsBindings.
  - apply bind_growsBindings.
  - intros c st. rewrite final_state_onBuilder. split; reflexivity.
Qed.

Lemma emitExprs_growsBindings es : preserves growsBindings (emitExprs build es).
Proof.
  apply emitExprs_preserves; [exact _|].
  apply Forall_forall. intros e _. apply emitExpr_growsBindings.
Qed.

(** Once [emitExpr] has returned a value for a node, emitting the node
    again is a table hit that changes nothing, now and after any further
    emission. *)
Lemma emitExpr_reemitted (e : Expr) (st : MLIREmitter) (v : Value) (st' : MLIREmitter) :
  emitExpr build e st = Ok (Some v) st' ->
  ssaBindings st' !! getStoragePtr e = Some (Some v)
  /\ emitExpr build e st' = Ok (Some v) st'
  /\ (forall n, emitExprs build (replicate n e) st' = Ok (replicate n (Some v)) st')
  /\ (forall es vs st'', emitExprs build es st' = Ok vs st'' ->
        emitExpr build e st'' = Ok (Some v) st'')
  /\ (forall stmts u st'', emitStmts build stmts st' = Ok u st'' ->
        emitExpr build e st'' = Ok (Some v) st'').
Proof.
  intros H. apply emitExpr_value_recorded in H.
  split; [exact H|]. split; [apply emitExpr_bound, H|].
  split; [intros n; apply emitExprs_replicate_bound, H|].
  split.
  - intros es vs st'' Hes. apply emitExpr_bound.
    destruct (preserves_Ok _ _ _ _ _ (emitExprs_growsBindings es) Hes) as [Hsub _].
    eapply lookup_weaken; [exact H | exact Hsub].
  - intros stmts u st'' Hss. apply emitExpr_bound.
    destruct (preserves_Ok _ _ _ _ _ (emitStmts_growsBindings stmts) Hss) as [Hsub _].
    eapply lookup_weaken; [exact H | exact Hsub].
Qed.

End Memoization.

Section CursorRestoration.

Variable build :
  Expr -> gmap positive (option Value) -> M Builder (list (option Value)).
Hypothesis build_contract : inserts_at_cursor build.

(** C6. Whenever [emitStmt] returns, whether the right-hand side produced a
    value or not and however deep the enclosed statements and loops go, the
    insertion cursor is the one from before the call. *)
Theorem emitStmt_restores_cursor (stmt : Stmt) (st st' : MLIREmitter) (u : unit) :
  emitStmt build stmt st = Ok u st' ->
  cursor (builder st') = cursor (builder st).
Proof using build_contract.
  rewrite emitStmt_unfold. unfold bnd at 1, gets.
  destruct (emitExpr build (getRHS stmt) st) as [val st1|msg st1] eqn:He;
    [|rewrite (bnd_abort _ _ _ _ _ He); discriminate].
  rewrite (bnd_step _ _ _ _ _ He).
  pose proof (preserves_Ok keepsCursor _ _ _ _
                (emitExpr_keepsCursor build _ build_contract) He) as Hc.
  destruct val as [v|].
  - intros H.
    apply bnd_Ok in H as (u2 & st2 & _ & H).
    apply bnd_Ok in H as (u3 & st3 & _ & H).
    apply bnd_Ok in H as (u4 & st4 & _ & H).
    apply onBuilder_Ok in H as (b' & [= _ <-] & ->). reflexivity.
  - intros H. apply bnd_Ok in H as (u2 & st2 & Ha & [= _ <-]).
    apply assert_Ok in Ha as [_ ->]. exact Hc.
Qed.

End CursorRestoration.

(** ** The sample build contract inserts at the cursor *)

#[local] Instance sameCursor_preorder : PreOrder sameCursor.
Proof.
  split; [intros b; split; reflexivity|].
  intros a b c [H1 H1'] [H2 H2']. split; congruence.
Qed.

Lemma Expr_build_unfold e bindings :
  Expr_build e bindings =
  match bindings !! getStoragePtr e with
  | Some v => ret [v]
  | None =>
      if isOperatorExpr e then
        let* operands := Expr_buildOperands bindings (getChildExpressions e) in
        if existsb isNull operands then ret [None]
        else
          let op := NamedOp (getName e) in
          let* i := create op (omap id operands) (getResultTypes e) in
          ret (map (fun ty => Some (mkValue (DefInst i op) ty)) (getResultTypes e))
      else ret [None]
  end.
Proof. destruct e; reflexivity. Qed.

Lemma Expr_build_sameCursor e bindings :
  preserves sameCursor (Expr_build e bindings).
Proof.
  induction e as [s k n tys cs IH] using Expr_ind.
  rewrite Expr_build_unfold.
  destruct (bindings !! _); [apply preserves_ret; exact _|].
  destruct (isOperatorExpr _); [|apply preserves_ret; exact _].
  apply preserves_bnd; [exact _ | |].
  - cbn [getChildExpressions].
    induction IH as [|c cs' Hc _ IHcs]; simpl; [apply preserves_ret; exact _|].
    apply preserves_bnd; [exact _ | exact Hc |].
    intros [|v [|? ?]]; try (apply preserves_fatal; exact _).
    apply preserves_bnd; [exact _ | exact IHcs |].
    intros vs. apply preserves_ret; exact _.
  - intros operands. destruct (existsb isNull operands);
      [apply preserves_ret; exact _|].
    apply preserves_bnd; [exact _ | |intros i; apply preserves_ret; exact _].
    intros b. apply create_cursor.
Qed.

Lemma Expr_build_inserts_at_cursor : inserts_at_cursor Expr_build.
Proof. intros e m b. apply Expr_build_sameCursor. Qed.

Lemma emitStmt_restores_cursor_witness :
  emitStmt Expr_build Sample.nestedStmt Sample.constLoopEmitter
    = Ok tt Sample.nestedEmitter
  /\ cursor (builder Sample.nestedEmitter)
     = cursor (builder Sample.constLoopEmitter).
Proof.
  assert (H : emitStmt Expr_build Sample.nestedStmt Sample.constLoopEmitter
              = Ok tt Sample.nestedEmitter) by (vm_compute; reflexivity).
  split; [exact H|].
  exact (emitStmt_restores_cursor Expr_build Expr_build_inserts_at_cursor
           _ _ _ _ H).
Defined.

(** ** What the binding table records *)

Section Recording.

Variable build :
  Expr -> gmap positive (option Value) -> M Builder (list (option Value)).

Lemma buildOperator_Ok e st res ee st1 :
  buildOperator build e st = Ok (res, ee) st1 ->
  ssaBindings st1 = ssaBindings st /\ errs st1 = errs st.
Proof.
  unfold buildOperator. destruct (isOperatorExpr e).
  - intros H. apply bnd_Ok in H as (m & st0 & [= <- <-] & H).
    apply bnd_Ok in H as (results & st2 & Hb & H).
    apply onBuilder_Ok in Hb as (b' & _ & ->).
    apply bnd_Ok in H as (u & st3 & Ha & [= _ _ <-]).
    apply assert_Ok in Ha as [_ ->]. split; reflexivity.
  - intros [= _ _ <-]. split; reflexivity.
Qed.

Lemma buildOperator_empty e st b' :
  isOperatorExpr e = true ->
  build e (ssaBindings st) (builder st) = Ok [] b' ->
  buildOperator build e st = Ok (None, true) (set_builder st b').
Proof.
  intros Ho Hb. unfold buildOperator. rewrite Ho.
  unfold bnd at 1, gets. unfold bnd at 1, onBuilder. rewrite Hb.
  reflexivity.
Qed.

Lemma isOperator_not_For e : isOperatorExpr e = true -> isFor e = false.
Proof. unfold isFor, isOperatorExpr. destruct (getKind e); auto; discriminate. Qed.

(** C10. The binding table records what succeeded and nothing else.  For a
    node that has no entry yet: when [emitExpr] returns a value, the node is
    recorded with it; when the node is an operator whose build has no
    result, the node is recorded with "no value", and emitting it again
    returns "no value" from the table and changes nothing; when [emitExpr]
    returns no value after reporting an error, the node gets no entry, and
    for a node other than a loop the whole table is as before. *)
Theorem emitExpr_records_successes_only (e : Expr) (st : MLIREmitter) :
  ssaBindings st !! getStoragePtr e = None ->
  (forall v st', emitExpr build e st = Ok (Some v) st' ->
     ssaBindings st' !! getStoragePtr e = Some (Some v))
  /\ (forall b', isOperatorExpr e = true ->
        build e (ssaBindings st) (builder st) = Ok [] b' ->
        let st' := set_ssaBindings (set_builder st b')
                     (<[getStoragePtr e := None]> (ssaBindings st)) in
        emitExpr build e st = Ok None st'
        /\ ssaBindings st' !! getStoragePtr e = Some None
        /\ emitExpr build e st' = Ok None st')
  /\ (forall st', emitExpr build e st = Ok None st' ->
        errs st' <> errs st ->
        getStoragePtr e ∉ flat_map storages (getChildExpressions e) ->
        ssaBindings st' !! getStoragePtr e = None)
  /\ (forall st', isFor e = false ->
        emitExpr build e st = Ok None st' ->
        errs st' <> errs st ->
        ssaBindings st' = ssaBindings st
        /\ errs st' = (errs st ++ [DiagError (getStoragePtr e) None])%list).
Proof.
  intros Hb.
  assert (Hnot_for : forall st', isFor e = false ->
            emitExpr build e st = Ok None st' -> errs st' <> errs st ->
            ssaBindings st' = ssaBindings st
            /\ errs st' = (errs st ++ [DiagError (getStoragePtr e) None])%list).
  { intros st' Hf H Herr. rewrite (emitExpr_unbound _ _ _ Hb), Hf in H.
    apply bnd_Ok in H as ([res ee] & st1 & Hop & H).
    apply buildOperator_Ok in Hop as [Hs He].
    apply emitExpr_finish_Ok in H as [(_ & _ & ->) | (_ & _ & _ & ->)].
    - cbn [ssaBindings errs report]. rewrite Hs, He, Hb. auto.
    - exfalso. apply Herr. cbn [errs set_ssaBindings]. exact He. }
  split; [|split; [|split]].
  - intros v st'. apply emitExpr_value_recorded.
  - intros b' Ho Hbuild st'.
    assert (Hl : ssaBindings st' !! getStoragePtr e = Some None)
      by (subst st'; cbn [ssaBindings set_ssaBindings]; apply lookup_insert_eq).
    split; [|split; [exact Hl | apply emitExpr_bound, Hl]].
    rewrite (emitExpr_unbound _ _ _ Hb).
    rewrite (bnd_step _ _ _ _ _ (buildOperator_empty _ _ _ Ho Hbuild)).
    rewrite (isOperator_not_For _ Ho).
    unfold emitExpr_finish. cbn [isNull negb andb].
    unfold bnd, gets, assert_, modify, ret. cbn [ssaBindings set_builder].
    rewrite Hb, bool_decide_eq_true_2 by reflexivity. reflexivity.
  - intros st' H Herr Hwf.
    destruct (isFor e) eqn:Hf.
    + pose proof H as H0.
      rewrite (emitExpr_unbound _ _ _ Hb), Hf in H.
      unfold buildOperator in H. rewrite (isFor_not_operator _ Hf) in H.
      unfold bnd at 1 in H. cbn [ret] in H.
      apply bnd_Ok in H as (exprs & st1 & Hes & H).
      destruct (existsb isNull exprs).
      * injection H as <-.
        rewrite (emitExprs_children_unbound build _ _ _ _ Hwf Hes). exact Hb.
      * apply bnd_Ok in H as (iv & st2 & _ & H).
        apply emitExpr_finish_Ok in H as [([=] & _) | (_ & [=] & _)].
    + destruct (Hnot_for st' eq_refl H Herr) as [-> _]. exact Hb.
  - exact Hnot_for.
Qed.

End Recording.

Lemma emitExpr_records_successes_only_witness :
  (ssaBindings Sample.emitter2 !! getStoragePtr Sample.storeE = None
   /\ Expr_build Sample.storeE (ssaBindings Sample.emitter2)
        (builder Sample.emitter2) = Ok [] (builder Sample.storedEmitter)
   /\ ssaBindings Sample.storedEmitter !! getStoragePtr Sample.storeE = Some None
   /\ emitExpr Expr_build Sample.storeE Sample.storedEmitter
      = Ok None Sample.storedEmitter)
  /\ (ssaBindings Sample.emitter2 !! 33%positive = None
      /\ emitExpr Expr_build (Sample.placeholder 33 Sample.f32) Sample.emitter2
         = Ok None Sample.danglingEmitter
      /\ errs Sample.danglingEmitter <> errs Sample.emitter2
      /\ ssaBindings Sample.danglingEmitter = ssaBindings Sample.emitter2).
Proof.
  split.
  - assert (Hb : ssaBindings Sample.emitter2 !! getStoragePtr Sample.storeE = None)
      by reflexivity.
    assert (Hbuild : Expr_build Sample.storeE (ssaBindings Sample.emitter2)
                       (builder Sample.emitter2)
                     = Ok [] (builder Sample.storedEmitter))
      by (vm_compute; reflexivity).
    split; [exact Hb|]. split; [exact Hbuild|].
    destruct (emitExpr_records_successes_only Expr_build Sample.storeE
                Sample.emitter2 Hb) as (_ & Hzero & _).
    destruct (Hzero _ eq_refl Hbuild) as (_ & H2 & H3).
    split; [exact H2 | exact H3].
  - assert (Hb : ssaBindings Sample.emitter2
                   !! getStoragePtr (Sample.placeholder 33 Sample.f32) = None)
      by reflexivity.
    assert (He : emitExpr Expr_build (Sample.placeholder 33 Sample.f32)
                   Sample.emitter2 = Ok None Sample.danglingEmitter)
      by (vm_compute; reflexivity).
    assert (Hd : errs Sample.danglingEmitter <> errs Sample.emitter2)
      by (vm_compute; discriminate).
    split; [exact Hb|]. split; [exact He|]. split; [exact Hd|].
    destruct (emitExpr_records_successes_only Expr_build
                (Sample.placeholder 33 Sample.f32) Sample.emitter2 Hb)
      as (_ & _ & _ & Hfail).
    exact (proj1 (Hfail _ eq_refl He Hd)).
Defined.

(** ** Blocks *)

Lemma aborts_bnd {S A B} (m : M S A) (k : A -> M S B) s :
  (forall a s', m s = Ok a s' -> aborts (k a s')) -> aborts (bnd m k s).
Proof.
  intros H. unfold bnd. destruct (m s) as [a s'|msg s']; [apply H; reflexivity | exact I].
Qed.

Lemma bindBlockArguments_aborts irBlock args types st i arg :
  args !! i = Some arg -> (i < length types)%nat -> isUnbound arg = false ->
  aborts (bindBlockArguments irBlock args types st).
Proof.
  revert args types st.
  induction i as [|i IH]; intros [|a args] [|ty types] st Ha Hlen Hk;
    simpl in *; try discriminate; try lia.
  - injection Ha as ->. unfold bnd at 1, assert_. rewrite Hk. exact I.
  - apply aborts_bnd. intros _ s1 _.
    apply aborts_bnd. intros v s2 _.
    apply aborts_bnd. intros _ s3 _.
    apply (IH args types s3 Ha); [lia | exact Hk].
Qed.

Lemma addArgument_Ok irBlock ty b v b' :
  addArgument irBlock ty b = Ok v b' ->
  exists B, blocks b !! irBlock = Some B
            /\ v = mkValue (DefBlockArg irBlock (length (bargs B))) ty
            /\ blocks b' !! irBlock = Some (mkBlock (bparent B) (bargs B ++ [ty]) (binsts B))
            /\ funcBlocks b' = funcBlocks b /\ cursor b' = cursor b.
Proof.
  unfold addArgument. destruct (blocks b !! irBlock) as [B|] eqn:E; [|discriminate].
  intros [= <- <-]. exists B. cbn [blocks funcBlocks cursor].
  rewrite lookup_insert_eq. auto.
Qed.

Lemma bind_Ok e v st u st' :
  bind e v st = Ok u st' ->
  ssaBindings st !! getStoragePtr e = None
  /\ st' = set_ssaBindings st (<[getStoragePtr e := v]> (ssaBindings st)).
Proof.
  unfold bind. destruct (ssaBindings st !! getStoragePtr e); [discriminate|].
  intros [= _ <-]. auto.
Qed.

(** The arguments are bound, in order, to the arguments added to the block. *)
Lemma bindBlockArguments_Ok irBlock args types st B u st' :
  blocks (builder st) !! irBlock = Some B ->
  bindBlockArguments irBlock args types st = Ok u st' ->
  growsBindings st st'
  /\ keepsFuncBlocks st st'
  /\ keepsCursor st st'
  /\ forall i arg ty, args !! i = Some arg -> types !! i = Some ty ->
       isUnbound arg = true
       /\ ssaBindings st !! getStoragePtr arg = None
       /\ ssaBindings st' !! getStoragePtr arg
          = Some (Some (mkValue (DefBlockArg irBlock (length (bargs B) + i)) ty)).
Proof.
  revert types st B.
  induction args as [|a args IH]; intros [|ty types] st B HB H; simpl in H;
    try (injection H as _ <-;
         split; [split; reflexivity|]; split; [reflexivity|];
         split; [reflexivity|]; intros i arg ty' Ha Ht;
         rewrite ?lookup_nil in *; discriminate).
  apply bnd_Ok in H as (u1 & s1 & Ha & H). apply assert_Ok in Ha as [Hk ->].
  apply bnd_Ok in H as (v & s2 & Hadd & H).
  apply onBuilder_Ok in Hadd as (b' & Hadd & ->).
  apply addArgument_Ok in Hadd as (B0 & HB0 & -> & HB' & Hfb & Hcur).
  rewrite HB in HB0. injection HB0 as <-.
  apply bnd_Ok in H as (u2 & s3 & Hbind & H).
  apply bind_Ok in Hbind as [Hnone ->].
  cbn [ssaBindings set_builder] in Hnone.
  unfold Bindable in *.
  destruct (IH types _ _
              (HB' : blocks (builder (set_ssaBindings (set_builder st b') _))
                       !! irBlock = Some _) H)
    as ((Hsub & Hbb) & Hf & Hc & Hargs).
  unfold keepsFuncBlocks, keepsCursor in *.
  cbn [ssaBindings set_ssaBindings set_builder blockBindings builder] in *.
  assert (Hsub0 : ssaBindings st ⊆ ssaBindings st').
  { etransitivity; [apply insert_subseteq, Hnone | exact Hsub]. }
  split; [split; [exact Hsub0 | exact Hbb]|].
  split; [congruence|]. split; [congruence|].
  intros [|i] arg ty' Harg Hty; simpl in Harg, Hty.
  - injection Harg as <-. injection Hty as <-.
    split; [exact Hk|]. split; [exact Hnone|].
    rewrite Nat.add_0_r.
    eapply lookup_weaken; [apply lookup_insert_eq | exact Hsub].
  - destruct (Hargs i arg ty' Harg Hty) as (Hu & Hn & Hl).
    split; [exact Hu|]. split.
    + destruct (decide (getStoragePtr a = getStoragePtr arg)) as [Heq|Hne].
      * rewrite Heq, lookup_insert_eq in Hn. discriminate.
      * rewrite lookup_insert_ne in Hn by exact Hne. exact Hn.
    + cbn [bargs] in Hl.
      replace (length (bargs B) + S i)%nat with (length (bargs B ++ [ty]) + i)%nat
        by (rewrite length_app; simpl; lia).
      exact Hl.
Qed.

Section BlockEmission.

Variable build :
  Expr -> gmap positive (option Value) -> M Builder (list (option Value)).
Hypothesis build_contract : inserts_at_cursor build.

Lemma emitStmts_keepsFuncBlocks ss : preserves keepsFuncBlocks (emitStmts build ss).
Proof using build_contract.
  apply emitStmts_preserves; [exact _|].
  apply Forall_forall. intros s _.
  apply emitStmt_preserves; [exact _ | | |].
  - intros e. apply emitExpr_keepsFuncBlocks, build_contract.
  - intros e v st. unfold keepsFuncBlocks. rewrite bind_keepsBuilder. reflexivity.
  - intros c st. rewrite final_state_onBuilder. reflexivity.
Qed.

Lemma emitBlock_new block st u st' :
  blockBindings st !! blockStorage block = None ->
  emitBlock build block st = Ok u st' ->
  let irBlock := nextBlock (builder st) in
  blockBindings st' = <[blockStorage block := irBlock]> (blockBindings st)
  /\ funcBlocks (builder st') = (funcBlocks (builder st) ++ [irBlock])%list
  /\ cursor (builder st') = cursor (builder st)
  /\ ssaBindings st ⊆ ssaBindings st'
  /\ forall i arg ty,
       getArguments block !! i = Some arg ->
       getArgumentTypes block !! i = Some ty ->
       isUnbound arg = true
       /\ ssaBindings st !! getStoragePtr arg = None
       /\ ssaBindings st' !! getStoragePtr arg
          = Some (Some (mkValue (DefBlockArg irBlock i) ty)).
Proof using build_contract.
  intros Hnew H irBlock. unfold emitBlock in H.
  unfold bnd at 1, gets in H. rewrite Hnew in H.
  unfold bnd at 1, gets in H.
  unfold bnd at 1, onBuilder, createBlock in H.
  unfold bnd at 1, modify in H.
  apply bnd_Ok in H as (u1 & s1 & Hargs & H).
  apply bnd_Ok in H as (u2 & s2 & Hbody & H).
  apply onBuilder_Ok in H as (b' & [= _ <-] & ->).
  eapply bindBlockArguments_Ok in Hargs as ((Hsub & Hbb) & Hf & _ & Hargs);
    [|cbn [builder set_blockBindings set_builder blocks]; apply lookup_insert_eq].
  pose proof (preserves_Ok _ _ _ _ _ (emitStmts_growsBindings build _) Hbody)
    as [Hsub2 Hbb2].
  pose proof (preserves_Ok _ _ _ _ _ (emitStmts_keepsFuncBlocks _) Hbody) as Hf2.
  unfold keepsFuncBlocks in *.
  cbn [builder set_blockBindings set_builder blocks ssaBindings blockBindings
       funcBlocks cursor bargs length] in *.
  subst irBlock.
  split; [rewrite Hbb2; exact Hbb|]. split; [rewrite Hf2; exact Hf|].
  split; [reflexivity|].
  split; [etransitivity; eassumption|].
  intros i arg ty Ha Ht. destruct (Hargs i arg ty Ha Ht) as (Hu & Hn & Hl).
  split; [exact Hu|]. split; [exact Hn|].
  eapply lookup_weaken; [exact Hl | exact Hsub2].
Qed.

(** C8. [emitBlock] is idempotent on the block's identity: once it has
    returned, emitting the same block again changes nothing.  The first
    emission of a block creates exactly one IR block in the function,
    records it, finds every declared argument a placeholder without a
    binding and binds the i-th one to the i-th argument of the new IR block;
    a declared argument that is not a placeholder makes it abort. *)
Theorem emitBlock_idempotent (block : StmtBlock) (st : MLIREmitter) :
  (forall u st', emitBlock build block st = Ok u st' ->
     emitBlock build block st' = Ok tt st')
  /\ (forall u st', blockBindings st !! blockStorage block = None ->
        emitBlock build block st = Ok u st' ->
        let irBlock := nextBlock (builder st) in
        blockBindings st' !! blockStorage block = Some irBlock
        /\ funcBlocks (builder st') = (funcBlocks (builder st) ++ [irBlock])%list
        /\ funcBlocks (builder (final_state (emitBlock build block st')))
           = funcBlocks (builder st')
        /\ forall i arg ty,
             getArguments block !! i = Some arg ->
             getArgumentTypes block !! i = Some ty ->
             isUnbound arg = true
             /\ ssaBindings st !! getStoragePtr arg = None
             /\ ssaBindings st' !! getStoragePtr arg
                = Some (Some (mkValue (DefBlockArg irBlock i) ty)))
  /\ (forall i arg, blockBindings st !! blockStorage block = None ->
        getArguments block !! i = Some arg ->
        (i < length (getArgumentTypes block))%nat ->
        isUnbound arg = false ->
        aborts (emitBlock build block st)).
Proof using build_contract.
  assert (Hidem : forall u st', emitBlock build block st = Ok u st' ->
                    emitBlock build block st' = Ok tt st').
  { intros u st' H.
    assert (Hrec : is_Some (blockBindings st' !! blockStorage block)).
    { destruct (blockBindings st !! blockStorage block) as [ir|] eqn:Hb.
      - unfold emitBlock, bnd at 1, gets in H. rewrite Hb in H.
        injection H as _ <-. eauto.
      - destruct (emitBlock_new _ _ _ _ Hb H) as (-> & _).
        rewrite lookup_insert_eq. eauto. }
    destruct Hrec as [ir Hir].
    unfold emitBlock, bnd at 1, gets. rewrite Hir. reflexivity. }
  split; [exact Hidem|]. split.
  - intros u st' Hnew H irBlock.
    destruct (emitBlock_new _ _ _ _ Hnew H) as (Hbb & Hf & _ & _ & Hargs).
    split; [rewrite Hbb; apply lookup_insert_eq|].
    split; [exact Hf|]. split; [|exact Hargs].
    rewrite (Hidem _ _ H). reflexivity.
  - intros i arg Hnew Ha Hlen Hk. unfold emitBlock.
    unfold bnd at 1, gets. rewrite Hnew.
    unfold bnd at 1, gets.
    unfold bnd at 1, onBuilder, createBlock.
    unfold bnd at 1, modify.
    apply aborts_bnd. intros u s1 Hargs. exfalso.
    eapply (bindBlockArguments_aborts _ _ _ _ _ _ Ha Hlen) in Hk.
    rewrite Hargs in Hk. exact Hk.
Qed.

End BlockEmission.

Lemma emitBlock_idempotent_witness :
  emitBlock Expr_build Sample.block1 Sample.emitter = Ok tt Sample.blockEmitter
  /\ emitBlock Expr_build Sample.block1 Sample.blockEmitter
     = Ok tt Sample.blockEmitter
  /\ funcBlocks (builder Sample.blockEmitter) = [1%positive; 2%positive]
  /\ ssaBindings Sample.blockEmitter !! 60%positive
     = Some (Some (mkValue (DefBlockArg 2%positive 0) IndexType))
  /\ ssaBindings Sample.blockEmitter !! 61%positive
     = Some (Some (mkValue (DefBlockArg 2%positive 1) Sample.f32))
  /\ aborts (emitBlock Expr_build Sample.badBlock Sample.emitter).
Proof.
  assert (H : emitBlock Expr_build Sample.block1 Sample.emitter
              = Ok tt Sample.blockEmitter) by (vm_compute; reflexivity).
  destruct (emitBlock_idempotent Expr_build Expr_build_inserts_at_cursor
              Sample.block1 Sample.emitter) as (Hidem & Hnew & _).
  destruct (Hnew _ _ eq_refl H) as (_ & Hf & _ & Hargs).
  split; [exact H|]. split; [exact (Hidem _ _ H)|]. split; [exact Hf|].
  split; [exact (proj2 (proj2 (Hargs 0%nat Sample.a60 IndexType eq_refl eq_refl)))|].
  split; [exact (proj2 (proj2 (Hargs 1%nat Sample.a61 Sample.f32 eq_refl eq_refl)))|].
  destruct (emitBlock_idempotent Expr_build Expr_build_inserts_at_cursor
              Sample.badBlock Sample.emitter) as (_ & _ & Hbad).
  apply (Hbad 1%nat Sample.addE); [reflexivity | reflexivity | simpl; lia | reflexivity].
Defined.

(** ** Region views *)

Lemma pos_plus_Z p n : Z.pos (pos_plus p n) = Z.pos p + Z.of_nat n.
Proof. induction n as [|n IH]; simpl; [lia|]. rewrite Pos2Z.inj_succ, IH. lia. Qed.

Lemma pos_plus_le p n : (p <= pos_plus p n)%positive.
Proof. pose proof (pos_plus_Z p n). lia. Qed.

Lemma pos_plus_inj p n m : pos_plus p n = pos_plus p m -> n = m.
Proof.
  intros H. apply (f_equal Z.pos) in H. rewrite !pos_plus_Z in H. lia.
Qed.

Lemma pos_plus_succ p n : pos_plus (Pos.succ p) n = pos_plus p (S n).
Proof. induction n as [|n IH]; simpl; [reflexivity|]. rewrite IH. reflexivity. Qed.

Lemma pos_plus_add p n m : pos_plus (pos_plus p n) m = pos_plus p (n + m).
Proof.
  apply Pos2Z.inj. rewrite !pos_plus_Z. lia.
Qed.

Lemma pos_seq_snoc p n : pos_seq p (S n) = (pos_seq p n ++ [pos_plus p n])%list.
Proof. unfold pos_seq. rewrite seq_S, map_app. reflexivity. Qed.

Lemma pos_seq_cons p n : pos_seq p (S n) = p :: pos_seq (Pos.succ p) n.
Proof.
  unfold pos_seq. cbn [seq map pos_plus]. f_equal.
  rewrite <- seq_shift, map_map. apply map_ext. intros i. symmetry.
  apply pos_plus_succ.
Qed.

Lemma elem_of_pos_seq k p n :
  k ∈ pos_seq p n -> (Z.pos p <= Z.pos k < Z.pos p + Z.of_nat n).
Proof.
  unfold pos_seq. rewrite list_elem_of_fmap. intros (i & -> & Hi).
  apply elem_of_seq in Hi. rewrite pos_plus_Z. lia.
Qed.

Lemma insert_at_nil pos l : insert_at pos [] l = l.
Proof.
  destruct pos as [j|]; [|apply app_nil_r]. cbn [insert_at].
  induction l as [|i l IH]; simpl; [reflexivity|].
  destruct (Pos.eqb i j); [reflexivity | rewrite IH; reflexivity].
Qed.

Lemma insert_before_fresh j new i :
  j ∉ new -> insert_before j [i] new = (new ++ [i])%list.
Proof.
  induction new as [|y new IH]; intros Hj; cbn [insert_before app]; [reflexivity|].
  apply not_elem_of_cons in Hj as [Hy Hj].
  destruct (Pos.eqb_spec y j) as [->|_]; [congruence|].
  rewrite (IH Hj). reflexivity.
Qed.

Lemma insert_before_prefix j new i rest :
  j ∉ new ->
  insert_before j [i] (new ++ j :: rest) = (new ++ [i] ++ j :: rest)%list.
Proof.
  induction new as [|y new IH]; intros Hj; cbn [insert_before app].
  - rewrite Pos.eqb_refl. reflexivity.
  - apply not_elem_of_cons in Hj as [Hy Hj].
    destruct (Pos.eqb_spec y j) as [->|_]; [congruence|].
    rewrite (IH Hj). reflexivity.
Qed.

Lemma insert_at_snoc pos new i l :
  match pos with Some j => j ∉ new | None => True end ->
  insert_at pos [i] (insert_at pos new l) = insert_at pos (new ++ [i]) l.
Proof.
  destruct pos as [j|]; cbn [insert_at];
    [|intros _; rewrite app_assoc; reflexivity].
  intros Hj. induction l as [|x l IH]; cbn [insert_before].
  - apply insert_before_fresh, Hj.
  - destruct (Pos.eqb_spec x j) as [->|Hx].
    + rewrite (insert_before_prefix _ _ _ _ Hj), <- app_assoc. reflexivity.
    + cbn [insert_before]. destruct (Pos.eqb_spec x j) as [->|_]; [congruence|].
      rewrite IH. reflexivity.
Qed.

Lemma Emitted_nil b blk pos : Emitted b blk pos [] b.
Proof.
  repeat split; try reflexivity.
  - intros i I H. rewrite lookup_nil in H. discriminate.
  - symmetry. apply alter_id. intros [p a l] _. cbn.
    rewrite insert_at_nil. reflexivity.
Qed.

Lemma Emitted_create b blk pos new b1 op operands tys :
  cursor b = Some (blk, pos) ->
  cursor_before b pos ->
  Emitted b blk pos new b1 ->
  exists b2,
    create op operands tys b1 = Ok (pos_plus (nextInst b) (length new)) b2
    /\ Emitted b blk pos (new ++ [mkInstruction op operands tys None]) b2.
Proof.
  intros Hc Hpos (Hc1 & Hf1 & Hnb1 & Hni1 & Hin1 & Hbl1).
  unfold create. rewrite Hc1, Hc, Hni1. eexists. split; [reflexivity|].
  unfold Emitted. cbn [cursor funcBlocks nextBlock nextInst insts blocks].
  rewrite length_app, Nat.add_1_r. cbn [length pos_plus].
  split; [congruence|]. split; [exact Hf1|]. split; [exact Hnb1|].
  split; [reflexivity|]. split.
  - intros i I Hi. apply lookup_app_Some in Hi as [Hi|[Hlen Hi]].
    + rewrite lookup_insert_ne; [apply Hin1, Hi|].
      intros Heq. apply pos_plus_inj in Heq. apply lookup_lt_Some in Hi. lia.
    + destruct (i - length new)%nat as [|?] eqn:E; simpl in Hi; [|discriminate].
      injection Hi as <-. replace i with (length new) by lia.
      apply lookup_insert_eq.
  - rewrite Hbl1, alter_alter_eq. apply alter_ext. intros B _.
    unfold Block_insert. cbn [bparent bargs binsts compose]. f_equal.
    rewrite pos_seq_snoc. apply insert_at_snoc.
    destruct pos as [j|]; [|exact I]. intros Hj.
    apply elem_of_pos_seq in Hj. unfold cursor_before in Hpos. lia.
Qed.

Lemma Emitted_create1 b blk pos new b1 op operands ty :
  cursor b = Some (blk, pos) ->
  cursor_before b pos ->
  Emitted b blk pos new b1 ->
  exists b2,
    create1 op operands ty b1
      = Ok (mkValue (DefInst (pos_plus (nextInst b) (length new)) op) ty) b2
    /\ Emitted b blk pos (new ++ [mkInstruction op operands [ty] None]) b2.
Proof.
  intros Hc Hpos He.
  destruct (Emitted_create _ _ _ _ _ op operands [ty] Hc Hpos He) as (b2 & H1 & H2).
  exists b2. split; [|exact H2]. unfold create1.
  rewrite (bnd_step _ _ _ _ _ H1). reflexivity.
Qed.

Lemma getMemRefSizes_from_Emitted memRef shape idx b blk pos new b1 :
  cursor b = Some (blk, pos) ->
  cursor_before b pos ->
  Emitted b blk pos new b1 ->
  exists b2,
    getMemRefSizes_from memRef shape idx b1
      = Ok (imap (fun i size =>
                    mkValue (DefInst (pos_plus (nextInst b) (length new + i))
                                     (iop (sizeInstruction memRef size (idx + i))))
                            IndexType) shape) b2
    /\ Emitted b blk pos
         (new ++ imap (fun i size => sizeInstruction memRef size (idx + i)) shape) b2.
Proof.
  intros Hc Hpos. revert idx new b1.
  induction shape as [|size shape IH]; intros idx new b1 He.
  - exists b1. split; [reflexivity|]. simpl. rewrite app_nil_r. exact He.
  - cbn [getMemRefSizes_from].
    assert (Hstep : exists b2,
      (if isDynamicSize (to_int size)
       then create1 (DimOp idx) [memRef] IndexType
       else create1 (ConstantIndexOp size) [] IndexType) b1
      = Ok (mkValue (DefInst (pos_plus (nextInst b) (length new))
                             (iop (sizeInstruction memRef size idx))) IndexType) b2
      /\ Emitted b blk pos (new ++ [sizeInstruction memRef size idx]) b2).
    { unfold sizeInstruction. destruct (isDynamicSize (to_int size));
        apply (Emitted_create1 _ _ _ _ _ _ _ _ Hc Hpos He). }
    destruct Hstep as (b2 & Hv & He2).
    destruct (IH (S idx) _ _ He2) as (b3 & Hvs & He3).
    exists b3. rewrite (bnd_step _ _ _ _ _ Hv), (bnd_step _ _ _ _ _ Hvs).
    cbn [ret]. rewrite !imap_cons, !Nat.add_0_r. split.
    + f_equal. f_equal. apply imap_ext. intros i x _. cbn [compose].
      rewrite length_app. cbn [length].
      replace (length new + 1 + i)%nat with (length new + S i)%nat by lia.
      replace (S idx + i)%nat with (idx + S i)%nat by lia. reflexivity.
    + rewrite <- app_assoc in He3. cbn [app] in He3.
      replace (imap ((fun i size0 => sizeInstruction memRef size0 (idx + i)) ∘ S) shape)
        with (imap (fun i size0 => sizeInstruction memRef size0 (S idx + i)) shape);
        [exact He3|].
      apply imap_ext. intros i x _. cbn [compose].
      replace (S idx + i)%nat with (idx + S i)%nat by lia. reflexivity.
Qed.

Lemma makeNewExprs_Ok n ty st :
  makeNewExprs n ty st
  = Ok (map (fun k => mkExpr k Unbound "" [ty] []) (pos_seq (arena st) n))
       (set_arena st (pos_plus (arena st) n)).
Proof.
  revert st. induction n as [|n IH]; intros st.
  - destruct st; reflexivity.
  - cbn [makeNewExprs]. unfold bnd at 1, newExpr.
    rewrite (bnd_step _ _ _ _ _ (IH _)). cbn [ret arena set_arena].
    rewrite pos_seq_cons, pos_plus_succ. reflexivity.
Qed.

Lemma bindZipRange_Ok exprs values st :
  length exprs = length values ->
  NoDup (map getStoragePtr exprs) ->
  (forall e, e ∈ exprs -> ssaBindings st !! getStoragePtr e = None) ->
  exists m,
    bindZipRange exprs values st = Ok tt (set_ssaBindings st m)
    /\ ssaBindings st ⊆ m
    /\ (forall i e v, exprs !! i = Some e -> values !! i = Some v ->
          m !! getStoragePtr e = Some (Some v))
    /\ (forall k, k ∉ map getStoragePtr exprs -> m !! k = ssaBindings st !! k).
Proof.
  revert values st. induction exprs as [|e exprs IH]; intros [|v values] st Hlen Hnd Hfresh;
    try discriminate.
  - exists (ssaBindings st). split; [destruct st; reflexivity|].
    split; [reflexivity|]. split; [|reflexivity].
    intros i e v H. rewrite lookup_nil in H. discriminate.
  - cbn [map] in Hnd. apply NoDup_cons in Hnd as [Hne Hnd].
    cbn [bindZipRange]. unfold bnd at 1, bind.
    rewrite (Hfresh e) by apply list_elem_of_here.
    destruct (IH values (set_ssaBindings st (<[getStoragePtr e := Some v]> (ssaBindings st))))
      as (m & Hrun & Hsub & Hl & Ho).
    + simpl in Hlen. lia.
    + exact Hnd.
    + intros e' He'. cbn [ssaBindings set_ssaBindings].
      rewrite lookup_insert_ne; [apply Hfresh, list_elem_of_further, He'|].
      intros Heq. apply Hne. rewrite Heq. apply list_elem_of_fmap_2, He'.
    + exists m. cbn [ssaBindings set_ssaBindings] in *.
      split; [exact Hrun|].
      split; [etransitivity; [apply insert_subseteq, Hfresh, list_elem_of_here | exact Hsub]|].
      split.
      * intros [|i] e' v' He' Hv'; simpl in He', Hv'.
        -- injection He' as <-. injection Hv' as <-.
           eapply lookup_weaken; [apply lookup_insert_eq | exact Hsub].
        -- eapply Hl; eassumption.
      * intros k Hk. cbn [map] in Hk. apply not_elem_of_cons in Hk as [Hk1 Hk2].
        rewrite (Ho k Hk2). apply lookup_insert_ne. congruence.
Qed.

Lemma bindConstantIndex_Emitted e value st b blk pos new :
  cursor b = Some (blk, pos) ->
  cursor_before b pos ->
  Emitted b blk pos new (builder st) ->
  ssaBindings st !! getStoragePtr e = None ->
  exists b2,
    bindConstantIndex e value st
    = Ok tt (set_ssaBindings (set_builder st b2)
               (<[getStoragePtr e :=
                    Some (mkValue (DefInst (pos_plus (nextInst b) (length new))
                                           (ConstantIndexOp value)) IndexType)]>
                  (ssaBindings st)))
    /\ Emitted b blk pos
         (new ++ [mkInstruction (ConstantIndexOp value) [] [IndexType] None]) b2.
Proof.
  intros Hc Hpos He Hfresh.
  destruct (Emitted_create1 _ _ _ _ _ (ConstantIndexOp value) [] IndexType Hc Hpos He)
    as (b2 & Hv & He2).
  exists b2. split; [|exact He2].
  unfold bindConstantIndex, bnd, onBuilder. rewrite Hv.
  unfold bind. cbn [ssaBindings set_builder]. rewrite Hfresh. reflexivity.
Qed.

Lemma makeBoundMemRefView_run (memRef : Value) (shape : list Z)
    (st : MLIREmitter) (blk : BlockId) (pos : InsertPoint) :
  getShape memRef = Some shape ->
  cursor (builder st) = Some (blk, pos) ->
  cursor_before (builder st) pos ->
  fresh_arena st ->
  let N := length shape in
  let a := arena st in
  let i0 := nextInst (builder st) in
  let node k := mkExpr k Unbound "" [IndexType] [] in
  let exprs := map node (pos_seq (Pos.succ a) N) in
  let values :=
    imap (fun i size =>
            mkValue (DefInst (pos_plus i0 (1 + i))
                             (iop (sizeInstruction memRef size (0 + i))))
                    IndexType) shape in
  let v0 := mkValue (DefInst i0 (ConstantIndexOp 0)) IndexType in
  let v1 := mkValue (DefInst (pos_plus i0 (S N)) (ConstantIndexOp 1)) IndexType in
  exists b3 m2,
    makeBoundMemRefView memRef st
    = Ok (mkBoundMemRefView (replicate N (node a)) exprs
                            (replicate N (node (pos_plus a (S N)))))
         (mkEmitter b3 (<[pos_plus a (S N) := Some v1]> m2) (blockBindings st)
                    (zeroIndex st) (oneIndex st)
                    (Pos.succ (pos_plus a (S N))) (errs st))
    /\ Emitted (builder st) blk pos
         ([mkInstruction (ConstantIndexOp 0) [] [IndexType] None]
          ++ imap (fun i size => sizeInstruction memRef size (0 + i)) shape
          ++ [mkInstruction (ConstantIndexOp 1) [] [IndexType] None]) b3
    /\ <[a := Some v0]> (ssaBindings st) ⊆ m2
    /\ (forall i e v, exprs !! i = Some e -> values !! i = Some v ->
          m2 !! getStoragePtr e = Some (Some v)).
Proof.
  intros Hshape Hc Hpos Hfresh N a i0 node exprs values v0 v1.
  unfold makeBoundMemRefView. rewrite Hshape.
  (* the zero *)
  unfold bnd at 1, newExpr. fold a. fold (node a).
  destruct (bindConstantIndex_Emitted (Bindable (node a)) 0
              (set_arena st (Pos.succ a)) (builder st) blk pos []
              Hc Hpos (Emitted_nil _ _ _)) as (b1 & Hzero & He1).
  { cbn [ssaBindings set_arena]. apply Hfresh. reflexivity. }
  rewrite (bnd_step _ _ _ _ _ Hzero). clear Hzero.
  cbn [app length pos_plus] in He1. fold i0 in He1.
  change (getStoragePtr (Bindable (node a))) with a.
  cbn [length pos_plus ssaBindings set_arena]. fold i0. fold v0.
  set (m1 := <[a := Some v0]> (ssaBindings st)).
  (* the sizes *)
  unfold makeBoundMemRefShape. rewrite Hshape. fold N.
  unfold bnd at 1. unfold bnd at 1. rewrite makeNewExprs_Ok.
  cbn [arena set_ssaBindings set_builder set_arena].
  fold node. fold exprs.
  unfold getMemRefSizes. rewrite Hshape.
  destruct (getMemRefSizes_from_Emitted memRef shape 0 _ _ _ _ _ Hc Hpos He1)
    as (b2 & Hsizes & He2).
  cbn [length] in Hsizes. fold i0 in Hsizes. fold values in Hsizes.
  unfold bnd at 1, onBuilder. cbn [builder set_arena set_ssaBindings set_builder].
  rewrite Hsizes. unfold bnd at 1, assert_.
  assert (Hlen : length exprs = length values).
  { subst exprs values. rewrite length_map, length_imap. unfold pos_seq.
    rewrite length_map, length_seq. reflexivity. }
  rewrite Hlen, Nat.eqb_refl.
  unfold bnd at 1.
  match goal with
  | |- context [bindZipRange exprs values ?s] =>
      destruct (bindZipRange_Ok exprs values s Hlen)
        as (m2 & Hzip & Hsub2 & Hl2 & Ho2)
  end.
  { subst exprs. rewrite map_map. cbn [getStoragePtr node]. rewrite map_id.
    unfold pos_seq. apply NoDup_fmap_2; [|apply NoDup_seq].
    intros x y. apply pos_plus_inj. }
  { intros e He. subst exprs. apply list_elem_of_fmap in He as (k & -> & Hk).
    cbn [getStoragePtr node ssaBindings set_builder set_arena set_ssaBindings].
    apply elem_of_pos_seq in Hk. subst m1.
    rewrite lookup_insert_ne by (intros ->; lia).
    apply Hfresh. unfold a in *. lia. }
  rewrite Hzip. cbn [ret].
  cbn [ssaBindings set_builder set_arena set_ssaBindings] in Ho2, Hsub2.
  (* the one *)
  unfold bnd at 1, newExpr. cbn [arena set_ssaBindings set_arena set_builder].
  rewrite pos_plus_succ. fold (node (pos_plus a (S N))).
  unfold bnd at 1.
  match goal with
  | |- context [bindConstantIndex _ 1 ?s] =>
      destruct (bindConstantIndex_Emitted (Bindable (node (pos_plus a (S N)))) 1
                  s (builder st) blk pos _ Hc Hpos He2) as (b3 & Hone & He3)
  end.
  { cbn [ssaBindings getStoragePtr Bindable node].
    rewrite Ho2.
    - subst m1. rewrite lookup_insert_ne.
      + apply Hfresh. apply pos_plus_le.
      + intros Heq. apply (f_equal Z.pos) in Heq. rewrite pos_plus_Z in Heq. lia.
    - subst exprs. rewrite map_map. cbn [getStoragePtr node]. rewrite map_id.
      intros Hin. apply elem_of_pos_seq in Hin.
      rewrite pos_plus_Z, Pos2Z.inj_succ in Hin. lia. }
  rewrite Hone. clear Hone. cbn [ret].
  rewrite length_app, length_imap in *. cbn [length] in *. fold N in He3 |- *.
  rewrite <- app_assoc in He3.
  exists b3, m2. split; [reflexivity|]. split; [exact He3|].
  split; [exact Hsub2 | exact Hl2].
Qed.

Lemma to_int_fits (z : Z) : - 2 ^ 31 <= z < 2 ^ 31 -> to_int z = z.
Proof. intros H. unfold to_int. rewrite Z.mod_small by lia. lia. Qed.

(** X23. For a buffer of rank N, with an insertion point set, the region
    view has N copies of one fresh node bound to the constant-index 0 as
    lower bounds, N copies of one fresh node bound to the constant-index 1
    as steps, and N fresh nodes as upper bounds, the i-th bound to a dim
    instruction on the buffer for dimension i when the i-th shape entry is
    negative as a C [int], and to a constant-index of the entry when it is
    not; for an entry that fits a C [int] this is the sign of the entry.
    The instructions are inserted at the cursor in the order: the constant
    0, the sizes by ascending dimension, the constant 1. *)
Theorem makeBoundMemRefView_spec (memRef : Value) (shape : list Z)
    (st : MLIREmitter) (blk : BlockId) (pos : InsertPoint) (B : Block) :
  getShape memRef = Some shape ->
  cursor (builder st) = Some (blk, pos) ->
  cursor_before (builder st) pos ->
  blocks (builder st) !! blk = Some B ->
  fresh_arena st ->
  let N := length shape in
  let a := arena st in
  let i0 := nextInst (builder st) in
  let node k := mkExpr k Unbound "" [IndexType] [] in
  exists view st',
    makeBoundMemRefView memRef st = Ok view st'
    /\ lbs view = replicate N (node a)
    /\ steps view = replicate N (node (pos_plus a (S N)))
    /\ ubs view = map node (pos_seq (Pos.succ a) N)
    /\ ssaBindings st' !! a
       = Some (Some (mkValue (DefInst i0 (ConstantIndexOp 0)) IndexType))
    /\ ssaBindings st' !! pos_plus a (S N)
       = Some (Some (mkValue (DefInst (pos_plus i0 (S N)) (ConstantIndexOp 1))
                             IndexType))
    /\ (forall i size, shape !! i = Some size ->
          ubs view !! i = Some (node (pos_plus a (S i)))
          /\ ssaBindings st' !! pos_plus a (S i)
             = Some (Some (mkValue
                             (DefInst (pos_plus i0 (S i))
                                      (if isDynamicSize (to_int size) then DimOp i
                                       else ConstantIndexOp size))
                             IndexType))
          /\ insts (builder st') !! pos_plus i0 (S i)
             = Some (if isDynamicSize (to_int size)
                     then mkInstruction (DimOp i) [memRef] [IndexType] None
                     else mkInstruction (ConstantIndexOp size) [] [IndexType] None)
          /\ (- 2 ^ 31 <= size < 2 ^ 31 ->
                isDynamicSize (to_int size) = (size <? 0)))
    /\ insts (builder st') !! i0
       = Some (mkInstruction (ConstantIndexOp 0) [] [IndexType] None)
    /\ insts (builder st') !! pos_plus i0 (S N)
       = Some (mkInstruction (ConstantIndexOp 1) [] [IndexType] None)
    /\ blocks (builder st') !! blk
       = Some (mkBlock (bparent B) (bargs B)
                       (insert_at pos (pos_seq i0 (S (S N))) (binsts B))).
Proof.
  intros Hshape Hc Hpos HB Hfresh N a i0 node.
  destruct (makeBoundMemRefView_run memRef shape st blk pos Hshape Hc Hpos Hfresh)
    as (b3 & m2 & Hrun & He3 & Hsub2 & Hl2).
  fold N a i0 node in Hrun, He3, Hsub2, Hl2. cbv zeta in Hrun, He3, Hsub2, Hl2.
  rewrite Hrun. clear Hrun.
  destruct He3 as (_ & _ & _ & _ & Hin3 & Hbl3).
  rewrite !length_app, length_imap in Hbl3. cbn [length] in Hbl3. fold N in Hbl3.
  replace (1 + (N + 1))%nat with (S (S N)) in Hbl3 by lia.
  fold i0 in Hin3, Hbl3.
  eexists _, _. split; [reflexivity|].
  cbn [lbs ubs steps builder ssaBindings].
  split; [reflexivity|]. split; [reflexivity|]. split; [reflexivity|].
  assert (Hne : forall i, (i <= N)%nat -> pos_plus a (S N) <> pos_plus a i).
  { intros i Hi Heq. apply pos_plus_inj in Heq. lia. }
  split.
  { rewrite lookup_insert_ne by (apply (Hne 0%nat); lia).
    eapply lookup_weaken; [|exact Hsub2]. apply lookup_insert_eq. }
  split; [apply lookup_insert_eq|].
  split.
  { intros i size Hi.
    assert (HiN : (i < N)%nat) by (apply lookup_lt_Some in Hi; exact Hi).
    assert (Hexpr : map node (pos_seq (Pos.succ a) N) !! i
                    = Some (node (pos_plus a (S i)))).
    { unfold pos_seq. rewrite map_map, list_lookup_fmap.
      rewrite lookup_seq_lt by exact HiN. cbn [fmap option_fmap option_map Nat.add].
      rewrite pos_plus_succ. reflexivity. }
    split; [exact Hexpr|]. split.
    { rewrite lookup_insert_ne by (apply Hne; lia).
      refine (eq_trans (Hl2 i _ _ Hexpr _) _).
      + rewrite list_lookup_imap, Hi. reflexivity.
      + unfold sizeInstruction. cbn [Nat.add].
        destruct (isDynamicSize (to_int size)); reflexivity. }
    split; [|intros Hfit; rewrite (to_int_fits _ Hfit); reflexivity].
    rewrite (Hin3 (S i) (sizeInstruction memRef size i));
      [unfold sizeInstruction; destruct (isDynamicSize (to_int size)); reflexivity|].
    cbn [app]. rewrite lookup_cons.
    rewrite lookup_app_l by (rewrite length_imap; exact HiN).
    rewrite list_lookup_imap, Hi. reflexivity. }
  split.
  { apply (Hin3 0%nat). reflexivity. }
  split.
  { apply (Hin3 (S N)). cbn [app]. rewrite lookup_cons.
    rewrite lookup_app_r by (rewrite length_imap; fold N; lia).
    rewrite length_imap. fold N.
    replace (N - N)%nat with 0%nat by lia. reflexivity. }
  rewrite Hbl3, lookup_alter_eq, HB. reflexivity.
Qed.

Lemma makeBoundMemRefView_spec_witness :
  getShape Sample.argMemRef = Some [-1; 4; -1]
  /\ cursor (builder Sample.emitter) = Some (Sample.entry, None)
  /\ fresh_arena Sample.emitter
  /\ exists view st',
      makeBoundMemRefView Sample.argMemRef Sample.emitter = Ok view st'
      /\ lbs view = replicate 3 (Sample.placeholder 100 IndexType)
      /\ steps view = replicate 3 (Sample.placeholder 104 IndexType)
      /\ ubs view = [Sample.placeholder 101 IndexType;
                     Sample.placeholder 102 IndexType;
                     Sample.placeholder 103 IndexType]
      /\ ssaBindings st' !! 100%positive
         = Some (Some (mkValue (DefInst 1%positive (ConstantIndexOp 0)) IndexType))
      /\ ssaBindings st' !! 101%positive
         = Some (Some (mkValue (DefInst 2%positive (DimOp 0)) IndexType))
      /\ ssaBindings st' !! 102%positive
         = Some (Some (mkValue (DefInst 3%positive (ConstantIndexOp 4)) IndexType))
      /\ ssaBindings st' !! 103%positive
         = Some (Some (mkValue (DefInst 4%positive (DimOp 2)) IndexType))
      /\ ssaBindings st' !! 104%positive
         = Some (Some (mkValue (DefInst 5%positive (ConstantIndexOp 1)) IndexType))
      /\ insts (builder st') !! 2%positive
         = Some (mkInstruction (DimOp 0) [Sample.argMemRef] [IndexType] None)
      /\ (binsts <$> blocks (builder st') !! Sample.entry)
         = Some [1%positive; 2%positive; 3%positive; 4%positive; 5%positive].
Proof.
  assert (Hfresh : fresh_arena Sample.emitter) by (intros k _; apply lookup_empty).
  split; [reflexivity|]. split; [reflexivity|]. split; [exact Hfresh|].
  destruct (makeBoundMemRefView_spec Sample.argMemRef [-1; 4; -1] Sample.emitter
              Sample.entry None Sample.entryBlock
              eq_refl eq_refl I eq_refl Hfresh)
    as (view & st' & Hrun & Hl & Hs & Hu & H0 & H1 & Hdims & _ & _ & Hblk).
  exists view, st'.
  split; [exact Hrun|]. split; [exact Hl|]. split; [exact Hs|]. split; [exact Hu|].
  split; [exact H0|].
  split; [exact (proj1 (proj2 (Hdims 0%nat (-1) eq_refl)))|].
  split; [exact (proj1 (proj2 (Hdims 1%nat 4 eq_refl)))|].
  split; [exact (proj1 (proj2 (Hdims 2%nat (-1) eq_refl)))|].
  split; [exact H1|].
  split; [exact (proj1 (proj2 (proj2 (Hdims 0%nat (-1) eq_refl))))|].
  rewrite Hblk. reflexivity.
Defined.

(** ** Shared operands *)

Lemma Expr_buildOperands_cons m c cs :
  Expr_buildOperands m (c :: cs)
  = (let* subResults := Expr_build c m in
     match subResults with
     | [v] => let* vs := Expr_buildOperands m cs in ret (v :: vs)
     | _ => fatal "expected single-result expression as operand"
     end).
Proof. reflexivity. Qed.

Lemma Expr_cost_unfold m e :
  Expr_cost m e
  = match m !! getStoragePtr e with
    | Some _ => 0%nat
    | None =>
        if isOperatorExpr e
        then S (list_sum (map (Expr_cost m) (getChildExpressions e)))
        else 0%nat
    end.
Proof. destruct e; reflexivity. Qed.

(** When [Expr_build] yields values only, it has created the instructions
    [Expr_cost] counts. *)
Lemma Expr_build_cost e m b rs b' :
  Expr_build e m b = Ok rs b' ->
  existsb isNull rs = false ->
  nextInst b' = pos_plus (nextInst b) (Expr_cost m e).
Proof.
  revert b rs b'. induction e as [s k n tys cs IH] using Expr_ind.
  intros b rs b' H Hnn.
  rewrite Expr_build_unfold in H. rewrite Expr_cost_unfold.
  destruct (m !! getStoragePtr (mkExpr s k n tys cs)) as [w|].
  { injection H as _ <-. reflexivity. }
  destruct (isOperatorExpr (mkExpr s k n tys cs)).
  2:{ injection H as <- _. discriminate Hnn. }
  apply bnd_Ok in H as (operands & b1 & Hops & H).
  destruct (existsb isNull operands) eqn:Hnull.
  { injection H as <- _. discriminate Hnn. }
  apply bnd_Ok in H as (i & b2 & Hcreate & H). injection H as _ <-.
  unfold create in Hcreate.
  destruct (cursor b1) as [[blk pos]|]; [|discriminate Hcreate].
  injection Hcreate as _ <-. cbn [nextInst getChildExpressions] in *.
  assert (Hsum : nextInst b1
                 = pos_plus (nextInst b) (list_sum (map (Expr_cost m) cs))).
  { clear - IH Hops Hnull. revert b operands b1 Hops Hnull.
    induction IH as [|c cs' Hc _ IHcs]; intros b operands b1 Hops Hnull.
    - injection Hops as _ <-. reflexivity.
    - rewrite Expr_buildOperands_cons in Hops.
      apply bnd_Ok in Hops as (sub & b0 & Hsub & Hops).
      destruct sub as [|v [|? ?]]; try discriminate Hops.
      apply bnd_Ok in Hops as (vs & b1' & Hvs & Hops). injection Hops as <- <-.
      cbn [existsb] in Hnull. apply orb_false_iff in Hnull as [Hv Hvs'].
      rewrite (IHcs _ _ _ Hvs Hvs').
      rewrite (Hc _ _ _ Hsub) by (cbn [existsb]; rewrite Hv; reflexivity).
      change (list_sum (map (Expr_cost m) (c :: cs')))
        with (Expr_cost m c + list_sum (map (Expr_cost m) cs'))%nat.
      apply pos_plus_add. }
  rewrite Hsum. reflexivity.
Qed.

Lemma Expr_buildOperands_bound m cs vs b :
  Forall2 (fun c v => m !! getStoragePtr c = Some v) cs vs ->
  Expr_buildOperands m cs b = Ok vs b.
Proof.
  induction 1 as [|c v cs vs Hc _ IH]; [reflexivity|].
  rewrite Expr_buildOperands_cons. unfold bnd at 1.
  rewrite Expr_build_unfold, Hc. cbn [ret]. unfold bnd. rewrite IH. reflexivity.
Qed.

(** What [emitExpr] went through when it returned a value for a node that
    is no loop and has no binding. *)
Lemma emitExpr_operator_Ok p st1 w st2 :
  isFor p = false ->
  ssaBindings st1 !! getStoragePtr p = None ->
  emitExpr Expr_build p st1 = Ok (Some w) st2 ->
  exists b',
    isOperatorExpr p = true
    /\ Expr_build p (ssaBindings st1) (builder st1) = Ok [Some w] b'
    /\ builder st2 = b'.
Proof.
  intros Hf Hb H. rewrite (emitExpr_unbound _ _ _ Hb), Hf in H.
  apply bnd_Ok in H as ([res ee] & s1 & Hbo & Hfin).
  unfold buildOperator in Hbo. destruct (isOperatorExpr p).
  2:{ injection Hbo as <- <- <-.
      apply emitExpr_finish_Ok in Hfin as [(_ & Hr & _)|(Hn & _)];
        [discriminate Hr | discriminate Hn]. }
  apply bnd_Ok in Hbo as (m & s0 & [= <- <-] & Hbo).
  apply bnd_Ok in Hbo as (results & s2 & Hbuild & Hbo).
  apply onBuilder_Ok in Hbuild as (b' & Hbuild & ->).
  apply bnd_Ok in Hbo as (u & s3 & Ha & [= <- <- <-]).
  apply assert_Ok in Ha as [Hlen ->].
  apply emitExpr_finish_Ok in Hfin as [(_ & Hr & _)|(_ & Hr & _ & ->)];
    [discriminate Hr|].
  destruct results as [|r [|? ?]]; [discriminate Hr | | discriminate Hlen].
  cbn in Hr. subst r. exists b'. auto.
Qed.

Lemma emitExpr_Expr_build_cost p st1 w st2 :
  isFor p = false ->
  emitExpr Expr_build p st1 = Ok (Some w) st2 ->
  nextInst (builder st2)
  = pos_plus (nextInst (builder st1)) (Expr_cost (ssaBindings st1) p).
Proof.
  intros Hf H. destruct (ssaBindings st1 !! getStoragePtr p) as [r|] eqn:Hb.
  - rewrite (emitExpr_bound _ _ _ _ Hb) in H. injection H as _ <-.
    rewrite Expr_cost_unfold, Hb. reflexivity.
  - destruct (emitExpr_operator_Ok p st1 w st2 Hf Hb H) as (b' & _ & Hbuild & ->).
    apply (Expr_build_cost _ _ _ _ _ Hbuild). reflexivity.
Qed.

Lemma emitExpr_operator_of_bound p st1 w st2 vs :
  isOperatorExpr p = true ->
  ssaBindings st1 !! getStoragePtr p = None ->
  Forall2 (fun c v => ssaBindings st1 !! getStoragePtr c = Some (Some v))
          (getChildExpressions p) vs ->
  emitExpr Expr_build p st1 = Ok (Some w) st2 ->
  nextInst (builder st2) = Pos.succ (nextInst (builder st1))
  /\ insts (builder st2) !! nextInst (builder st1)
     = Some (mkInstruction (NamedOp (getName p)) vs (getResultTypes p) None).
Proof.
  intros Hop Hb Hcs H.
  destruct (emitExpr_operator_Ok p st1 w st2 (isOperator_not_For _ Hop) Hb H)
    as (b' & _ & Hbuild & ->).
  rewrite Expr_build_unfold, Hb, Hop in Hbuild.
  assert (Hops : Expr_buildOperands (ssaBindings st1) (getChildExpressions p)
                   (builder st1) = Ok (Some <$> vs) (builder st1)).
  { apply Expr_buildOperands_bound, Forall2_fmap_r. exact Hcs. }
  rewrite (bnd_step _ _ _ _ _ Hops) in Hbuild.
  assert (Hnn : existsb isNull (Some <$> vs) = false)
    by (clear; induction vs; [reflexivity | assumption]).
  assert (Hom : omap id (Some <$> vs) = vs)
    by (clear; induction vs as [|a vs IH]; [reflexivity | cbn; rewrite IH; reflexivity]).
  rewrite Hnn, Hom in Hbuild. cbv zeta in Hbuild.
  apply bnd_Ok in Hbuild as (i & b2 & Hcreate & Hret). injection Hret as _ <-.
  unfold create in Hcreate.
  destruct (cursor (builder st1)) as [[blk pos]|]; [|discriminate Hcreate].
  injection Hcreate as _ <-. cbn [nextInst insts].
  split; [reflexivity | apply lookup_insert_eq].
Qed.

(** C1. If [emitExpr] returns a value for a node, a second [emitExpr] of the
    node on the same emitter returns the same value from the binding table
    and changes nothing (no instruction is built), however many times the
    node is emitted again and also after other expressions or statements
    have been emitted in between.  From then on the node costs nothing as
    an operand: what the emission of a later expression creates is counted
    by [Expr_cost], in which a node that has a binding counts 0 at each of
    its occurrences, and an operator whose operands are all this node, any
    number of times, creates one instruction, its own, over the node's
    value at each place. *)
Theorem emitExpr_memoized
    (build : Expr -> gmap positive (option Value) -> M Builder (list (option Value)))
    (e : Expr) (st : MLIREmitter) (v : Value) (st' : MLIREmitter) :
  emitExpr build e st = Ok (Some v) st' ->
  (ssaBindings st' !! getStoragePtr e = Some (Some v)
   /\ emitExpr build e st' = Ok (Some v) st'
   /\ (forall n, emitExprs build (replicate n e) st' = Ok (replicate n (Some v)) st')
   /\ (forall es vs st'', emitExprs build es st' = Ok vs st'' ->
         emitExpr build e st'' = Ok (Some v) st'')
   /\ (forall stmts u st'', emitStmts build stmts st' = Ok u st'' ->
         emitExpr build e st'' = Ok (Some v) st''))
  /\ (forall st1, ssaBindings st' ⊆ ssaBindings st1 ->
        Expr_cost (ssaBindings st1) e = 0%nat
        /\ (forall p w st2,
              isFor p = false ->
              emitExpr Expr_build p st1 = Ok (Some w) st2 ->
              nextInst (builder st2)
              = pos_plus (nextInst (builder st1)) (Expr_cost (ssaBindings st1) p))
        /\ (forall p k w st2,
              isOperatorExpr p = true ->
              ssaBindings st1 !! getStoragePtr p = None ->
              getChildExpressions p = replicate k e ->
              emitExpr Expr_build p st1 = Ok (Some w) st2 ->
              nextInst (builder st2) = Pos.succ (nextInst (builder st1))
              /\ insts (builder st2) !! nextInst (builder st1)
                 = Some (mkInstruction (NamedOp (getName p)) (replicate k v)
                                       (getResultTypes p) None))).
Proof.
  intros H. split; [exact (emitExpr_reemitted build e st v st' H)|].
  apply emitExpr_value_recorded in H.
  intros st1 Hsub.
  assert (Hb : ssaBindings st1 !! getStoragePtr e = Some (Some v))
    by (eapply lookup_weaken; [exact H | exact Hsub]).
  split; [rewrite Expr_cost_unfold, Hb; reflexivity|].
  split; [intros p w st2; apply emitExpr_Expr_build_cost|].
  intros p k w st2 Hop Hnone Hcs Hp.
  apply (emitExpr_operator_of_bound p st1 w st2 (replicate k v) Hop Hnone); [|exact Hp].
  rewrite Hcs. clear -Hb. induction k; constructor; assumption.
Qed.

Lemma emitExpr_memoized_witness :
  emitExpr Expr_build Sample.addE Sample.emitter2
    = Ok (Some Sample.addValue) Sample.emitter3
  /\ emitExpr Expr_build Sample.addE Sample.emitter3
    = Ok (Some Sample.addValue) Sample.emitter3
  /\ emitExprs Expr_build [Sample.addE; Sample.addE; Sample.addE] Sample.emitter3
    = Ok [Some Sample.addValue; Some Sample.addValue; Some Sample.addValue]
         Sample.emitter3
  /\ emitStmts Expr_build [Sample.storeStmt] Sample.emitter3
    = Ok tt Sample.emitter4
  /\ emitExpr Expr_build Sample.addE Sample.emitter4
    = Ok (Some Sample.addValue) Sample.emitter4
  /\ returns (emitExpr Expr_build Sample2.squareE Sample.emitter3)
  /\ nextInst (builder (final_state
                         (emitExpr Expr_build Sample2.squareE Sample.emitter3)))
     = 3%positive
  /\ insts (builder (final_state
                      (emitExpr Expr_build Sample2.squareE Sample.emitter3)))
       !! 2%positive
     = Some (mkInstruction (NamedOp "mulf") [Sample.addValue; Sample.addValue]
                           [Sample.f32] None).
Proof.
  assert (H : emitExpr Expr_build Sample.addE Sample.emitter2
              = Ok (Some Sample.addValue) Sample.emitter3)
    by (vm_compute; reflexivity).
  assert (Hs : emitStmts Expr_build [Sample.storeStmt] Sample.emitter3
               = Ok tt Sample.emitter4)
    by (vm_compute; reflexivity).
  assert (Hp : emitExpr Expr_build Sample2.squareE Sample.emitter3
               = Ok (Some (mkValue (DefInst 2%positive (NamedOp "mulf")) Sample.f32))
                    (final_state
                       (emitExpr Expr_build Sample2.squareE Sample.emitter3)))
    by (vm_compute; reflexivity).
  destruct (emitExpr_memoized Expr_build _ _ _ _ H)
    as ((_ & H2 & H3 & _ & H5) & Hlater).
  destruct (Hlater Sample.emitter3 (reflexivity _)) as (_ & _ & Hshared).
  destruct (Hshared Sample2.squareE 2%nat _ _ eq_refl eq_refl eq_refl Hp)
    as [Hn Hi].
  split; [exact H|]. split; [exact H2|]. split; [exact (H3 3%nat)|].
  split; [exact Hs|]. split; [exact (H5 _ _ _ Hs)|].
  split; [rewrite Hp; exact I|].
  split; [exact Hn | exact Hi].
Defined.

(** A node that was not emitted before is built once per occurrence: the
    product of [x + y] with itself, emitted first, creates two additions
    for the one node [x + y] and records none; emitting [x + y] afterwards
    succeeds with a third addition, and only then is it a table hit. *)
Lemma shared_operand_is_built_per_occurrence :
  getChildExpressions Sample2.squareE = [Sample.addE; Sample.addE]
  /\ exists st1 st2 v,
      emitExpr Expr_build Sample2.squareE Sample.emitter2
      = Ok (Some (mkValue (DefInst 3%positive (NamedOp "mulf")) Sample.f32)) st1
      /\ ssaBindings st1 !! getStoragePtr Sample.addE = None
      /\ emitExpr Expr_build Sample.addE st1 = Ok (Some v) st2
      /\ emitExpr Expr_build Sample.addE st2 = Ok (Some v) st2
      /\ insts (builder st2) !! 1%positive = Some Sample2.addInstruction
      /\ insts (builder st2) !! 2%positive = Some Sample2.addInstruction
      /\ insts (builder st2) !! 4%positive = Some Sample2.addInstruction
      /\ insts (builder st2) !! 3%positive
         = Some (mkInstruction (NamedOp "mulf")
                   [mkValue (DefInst 1%positive (NamedOp "addf")) Sample.f32;
                    mkValue (DefInst 2%positive (NamedOp "addf")) Sample.f32]
                   [Sample.f32] None)
      /\ nextInst (builder st2) = 5%positive.
Proof.
  split; [reflexivity|].
  exists (final_state (emitExpr Expr_build Sample2.squareE Sample.emitter2)),
         (final_state
            (emitExpr Expr_build Sample.addE
               (final_state (emitExpr Expr_build Sample2.squareE Sample.emitter2)))),
         (mkValue (DefInst 4%positive (NamedOp "addf")) Sample.f32).
  repeat (split; [vm_compute; reflexivity|]). vm_compute; reflexivity.
Qed.

(** C9. A static extent that does not fit a C [int] is taken for a dynamic
    one: the shape entry [2^31] is not negative, and yet the upper bound of
    the view is bound to a dim instruction on the buffer, and no constant of
    that size is created. *)
Theorem large_static_extent_is_queried :
  getShape Sample2.bigMemRef = Some [2147483648]
  /\ (2147483648 <? 0) = false
  /\ to_int 2147483648 = -2147483648
  /\ exists view st' ub,
      makeBoundMemRefView Sample2.bigMemRef Sample.emitter = Ok view st'
      /\ ubs view = [ub]
      /\ getValue ub st'
         = Some (mkValue (DefInst 2%positive (DimOp 0)) IndexType)
      /\ insts (builder st')
         = <[3%positive := mkInstruction (ConstantIndexOp 1) [] [IndexType] None]>
             (<[2%positive := mkInstruction (DimOp 0) [Sample2.bigMemRef]
                                            [IndexType] None]>
                (<[1%positive := mkInstruction (ConstantIndexOp 0) [] [IndexType] None]>
                   ∅)).
Proof.
  split; [reflexivity|]. split; [reflexivity|]. split; [reflexivity|].
  eexists _, _, _. split; [vm_compute; reflexivity|].
  split; [reflexivity|]. split; vm_compute; reflexivity.
Qed.

(** * Further properties *)

(** ** Operands outside the three element categories *)

(** X1. On an operand whose element type is neither index, integer nor
    float, [add] and [sub] abort on their assertion and create nothing,
    whereas [mul], which only asks whether the element is a float, lowers
    to an integer multiply. *)
Theorem add_sub_abort_where_mul_lowers (a b : Value) (bld : Builder) :
  isIndexElement a = false ->
  isIntElement a = false ->
  isFloatElement a = false ->
  add a b bld = Fatal "Expected float element" bld
  /\ sub a b bld = Fatal "Expected float element" bld
  /\ (cursor bld <> None -> lowersTo (mul a b) bld MulIOp [a; b] (vtype a))
  /\ (cursor bld = None -> aborts (mul a b bld)).
Proof.
  intros Hidx Hint Hfl. unfold add, sub, mul. rewrite Hidx, Hint, Hfl.
  split; [reflexivity|]. split; [reflexivity|]. split.
  - intros Hc. apply create1_lowersTo, Hc.
  - intros Hc. cbn [negb]. unfold create1, create, bnd. rewrite Hc. exact I.
Qed.

Lemma add_sub_abort_where_mul_lowers_witness :
  isIndexElement Sample2.argOpaque = false
  /\ aborts (add Sample2.argOpaque Sample2.argOpaque Sample.bld)
  /\ aborts (sub Sample2.argOpaque Sample2.argOpaque Sample.bld)
  /\ lowersTo (mul Sample2.argOpaque Sample2.argOpaque) Sample.bld MulIOp
       [Sample2.argOpaque; Sample2.argOpaque] (OpaqueType "tensor").
Proof.
  destruct (add_sub_abort_where_mul_lowers Sample2.argOpaque Sample2.argOpaque
              Sample.bld eq_refl eq_refl eq_refl) as (Ha & Hs & Hm & _).
  split; [reflexivity|].
  split; [rewrite Ha; exact I|]. split; [rewrite Hs; exact I|].
  apply Hm. discriminate.
Defined.

(** ** Bindings are never dropped or changed *)

Section NeverRebinds.

Variable build :
  Expr -> gmap positive (option Value) -> M Builder (list (option Value)).

Lemma emitStmt_growsBindings s : preserves growsBindings (emitStmt build s).
Proof.
  apply emitStmt_preserves; [exact _ | | |].
  - apply emitExpr_growsBindings.
  - apply bind_growsBindings.
  - intros c st. rewrite final_state_onBuilder. split; reflexivity.
Qed.

Lemma bindBlockArguments_growsBindings irBlock args types :
  preserves growsBindings (bindBlockArguments irBlock args types).
Proof.
  revert types. induction args as [|a args IH]; intros [|ty types];
    cbn [bindBlockArguments]; try (apply preserves_ret; exact _).
  apply preserves_bnd; [exact _ | apply preserves_assert; exact _ |]. intros _.
  apply preserves_bnd; [exact _ | |].
  { intros st. rewrite final_state_onBuilder. split; reflexivity. }
  intros v. apply preserves_bnd; [exact _ | apply bind_growsBindings |].
  intros _. apply IH.
Qed.

#[local] Instance growsTables_preorder : PreOrder growsTables.
Proof.
  split; [intros st; split; reflexivity|].
  intros a b c [H1 H1'] [H2 H2']. split; etransitivity; eassumption.
Qed.

Lemma growsBindings_growsTables {A} (m : M MLIREmitter A) :
  preserves growsBindings m -> preserves growsTables m.
Proof. intros H st. destruct (H st) as [Hs Hb]. split; [exact Hs | rewrite Hb; reflexivity]. Qed.

(** X2. No emission ever drops or changes a binding: whatever was in
    [ssaBindings] before [emitExpr], [emitStmt] or [emitBlock] is there,
    with the same value, in the state they stop in, whether they return or
    abort; [emitExpr] and [emitStmt] leave [blockBindings] as it was and
    [emitBlock] only adds to it. *)
Theorem emission_never_rebinds :
  (forall e st,
     ssaBindings st ⊆ ssaBindings (final_state (emitExpr build e st))
     /\ blockBindings (final_state (emitExpr build e st)) = blockBindings st)
  /\ (forall s st,
        ssaBindings st ⊆ ssaBindings (final_state (emitStmt build s st))
        /\ blockBindings (final_state (emitStmt build s st)) = blockBindings st)
  /\ (forall block st,
        ssaBindings st ⊆ ssaBindings (final_state (emitBlock build block st))
        /\ blockBindings st ⊆ blockBindings (final_state (emitBlock build block st))).
Proof.
  split; [intros e st; apply emitExpr_growsBindings|].
  split; [intros s st; apply emitStmt_growsBindings|].
  intros block st. change (growsTables st (final_state (emitBlock build block st))).
  unfold emitBlock, bnd at 1, gets.
  destruct (blockBindings st !! blockStorage block) as [ir|] eqn:Hb;
    [reflexivity|].
  unfold bnd at 1, gets. unfold bnd at 1, onBuilder, createBlock.
  unfold bnd at 1, modify.
  match goal with
  | |- growsTables st (final_state (?rest ?s0)) =>
      assert (Hrest : preserves growsTables rest); [|transitivity s0; [|apply Hrest]]
  end.
  - apply preserves_bnd; [exact _ | |].
    { apply growsBindings_growsTables, bindBlockArguments_growsBindings. }
    intros _. apply preserves_bnd; [exact _ | |].
    { apply growsBindings_growsTables, emitStmts_growsBindings. }
    intros _ s. unfold setInsertionPoint, modify. cbn. split; reflexivity.
  - split; [reflexivity|].
    cbn [blockBindings set_blockBindings set_builder].
    apply insert_subseteq, Hb.
Qed.

(** X3. [emitBlock] leaves the insertion cursor where it found it, whether
    the block was new or known, and whatever [Expr::build] does. *)
Theorem emitBlock_restores_cursor (block : StmtBlock) (st st' : MLIREmitter) (u : unit) :
  emitBlock build block st = Ok u st' ->
  cursor (builder st') = cursor (builder st).
Proof.
  unfold emitBlock, bnd at 1, gets.
  destruct (blockBindings st !! blockStorage block) as [ir|];
    [intros [= _ <-]; reflexivity|].
  unfold bnd at 1, gets. intros H.
  apply bnd_Ok in H as (irBlock & s1 & _ & H).
  apply bnd_Ok in H as (u2 & s2 & _ & H).
  apply bnd_Ok in H as (u3 & s3 & _ & H).
  apply bnd_Ok in H as (u4 & s4 & _ & H).
  apply onBuilder_Ok in H as (b' & [= _ <-] & ->). reflexivity.
Qed.

End NeverRebinds.

Lemma emitBlock_restores_cursor_witness :
  emitBlock Expr_build Sample.block1 Sample.emitter = Ok tt Sample.blockEmitter
  /\ cursor (builder Sample.blockEmitter) = Some (Sample.entry, None).
Proof.
  assert (H : emitBlock Expr_build Sample.block1 Sample.emitter
              = Ok tt Sample.blockEmitter) by (vm_compute; reflexivity).
  split; [exact H|].
  exact (emitBlock_restores_cursor Expr_build _ _ _ _ H).
Defined.

(** ** Lists of expressions *)

Section ExprLists.

Variable build :
  Expr -> gmap positive (option Value) -> M Builder (list (option Value)).

Lemma emitExprs_length es st vs st' :
  emitExprs build es st = Ok vs st' -> length vs = length es.
Proof.
  revert st vs. induction es as [|e es IH]; intros st vs; cbn [emitExprs].
  - intros [= <- _]. reflexivity.
  - intros H. apply bnd_Ok in H as (v & s1 & _ & H).
    apply bnd_Ok in H as (vs' & s2 & Hes & [= <- <-]).
    cbn [length]. f_equal. eapply IH, Hes.
Qed.

Lemma emitExprs_all_bound es st :
  Forall (fun e => is_Some (ssaBindings st !! getStoragePtr e)) es ->
  emitExprs build es st
  = Ok (map (fun e => default None (ssaBindings st !! getStoragePtr e)) es) st.
Proof.
  induction 1 as [|e es [w Hw] _ IH]; cbn [emitExprs map]; [reflexivity|].
  rewrite (bnd_step _ _ _ _ _ (emitExpr_bound build _ _ _ Hw)).
  rewrite (bnd_step _ _ _ _ _ IH), Hw. reflexivity.
Qed.

(** X4. [emitExprs] returns one result per expression, in order, nulls
    included; a node that was bound before the call yields its binding; and
    every node that yields a value is bound to that value when the call
    returns. *)
Theorem emitExprs_results (es : list Expr) (st : MLIREmitter)
    (vs : list (option Value)) (st' : MLIREmitter) :
  emitExprs build es st = Ok vs st' ->
  length vs = length es
  /\ (forall i e w, es !! i = Some e ->
        ssaBindings st !! getStoragePtr e = Some w -> vs !! i = Some w)
  /\ (forall i e v, es !! i = Some e -> vs !! i = Some (Some v) ->
        ssaBindings st' !! getStoragePtr e = Some (Some v)).
Proof.
  intros H. split; [eapply emitExprs_length, H|].
  revert st vs H. induction es as [|e es IH]; intros st vs H.
  - split; intros i e' w Hi; rewrite lookup_nil in Hi; discriminate.
  - cbn [emitExprs] in H. apply bnd_Ok in H as (v1 & s1 & He & H).
    apply bnd_Ok in H as (vs' & s2 & Hes & [= <- <-]).
    destruct (IH _ _ Hes) as [IHb IHv].
    destruct (preserves_Ok _ _ _ _ _ (emitExpr_growsBindings build e) He) as [Hg1 _].
    destruct (preserves_Ok _ _ _ _ _ (emitExprs_growsBindings build es) Hes) as [Hg2 _].
    split.
    + intros [|i] e' w Hi Hw; cbn in Hi |- *.
      * injection Hi as <-. rewrite (emitExpr_bound build _ _ _ Hw) in He.
        injection He as <- _. reflexivity.
      * eapply IHb; [exact Hi|]. eapply lookup_weaken; [exact Hw | exact Hg1].
    + intros [|i] e' v Hi Hv; cbn in Hi, Hv.
      * injection Hi as <-. injection Hv as ->.
        eapply lookup_weaken; [|exact Hg2].
        eapply emitExpr_value_recorded, He.
      * eapply IHv; eassumption.
Qed.

(** X5. A loop node that does not have exactly three control expressions
    never yields a value: when [emitExpr] returns, it returns null (some
    control expression had no value), and when all its control expressions
    are bound to values, [emitExpr] aborts. *)
Theorem loop_needs_three_control_expressions (e : Expr) (st : MLIREmitter) :
  isFor e = true ->
  ssaBindings st !! getStoragePtr e = None ->
  length (getChildExpressions e) <> 3%nat ->
  (forall r st', emitExpr build e st = Ok r st' -> r = None)
  /\ (Forall (fun c => exists v, ssaBindings st !! getStoragePtr c = Some (Some v))
             (getChildExpressions e) ->
      emitExpr build e st = Fatal "Expected 3 exprs" st).
Proof.
  intros Hf Hb Hlen.
  assert (Hassert : forall exprs s, length exprs = length (getChildExpressions e) ->
            emitForOp exprs s = Fatal "Expected 3 exprs" s).
  { intros exprs s Hl. unfold emitForOp, bnd at 1, assert_.
    rewrite Hl. destruct (Nat.eqb_spec (length (getChildExpressions e)) 3);
      [contradiction | reflexivity]. }
  split.
  - intros r st' H.
    destruct (emitExprs build (getChildExpressions e) st) as [exprs s1|msg s1] eqn:Hes.
    + rewrite (emitExpr_For build _ _ _ _ Hf Hb Hes) in H.
      destruct (existsb isNull exprs); [injection H as <- _; reflexivity|].
      unfold bnd at 1 in H.
      rewrite (Hassert _ _ (emitExprs_length _ _ _ _ Hes)) in H. discriminate.
    + rewrite (emitExpr_unbound build _ _ Hb), Hf in H.
      unfold buildOperator in H. rewrite (isFor_not_operator _ Hf) in H.
      unfold bnd at 1 in H. cbn [ret] in H.
      rewrite (bnd_abort _ _ _ _ _ Hes) in H. discriminate.
  - intros Hall.
    assert (Hes : emitExprs build (getChildExpressions e) st
                  = Ok (map (fun c => default None (ssaBindings st !! getStoragePtr c))
                            (getChildExpressions e)) st).
    { apply emitExprs_all_bound. eapply Forall_impl; [exact Hall|].
      intros c [v Hv]. eauto. }
    rewrite (emitExpr_For build _ _ _ _ Hf Hb Hes).
    replace (existsb isNull _) with false.
    + unfold bnd at 1. rewrite Hassert; [reflexivity | apply length_map].
    + symmetry. apply not_true_is_false. intros Hex.
      apply existsb_exists in Hex as (x & Hin & Hx).
      apply in_map_iff in Hin as (c & <- & Hc).
      rewrite Forall_forall in Hall.
      destruct (Hall c) as [v Hv]; [apply list_elem_of_In, Hc|].
      rewrite Hv in Hx. discriminate.
Qed.

End ExprLists.

Lemma emitExprs_results_witness :
  emitExprs Expr_build [Sample.lb; Sample.placeholder 33 Sample.f32; Sample.step]
            Sample.constLoopEmitter
  = Ok [Some Sample.c0; None; Some Sample.c1]
       (final_state (emitExprs Expr_build
                       [Sample.lb; Sample.placeholder 33 Sample.f32; Sample.step]
                       Sample.constLoopEmitter))
  /\ length [Some Sample.c0; None; Some Sample.c1] = 3%nat.
Proof.
  assert (H : emitExprs Expr_build
                [Sample.lb; Sample.placeholder 33 Sample.f32; Sample.step]
                Sample.constLoopEmitter
              = Ok [Some Sample.c0; None; Some Sample.c1]
                   (final_state (emitExprs Expr_build
                       [Sample.lb; Sample.placeholder 33 Sample.f32; Sample.step]
                       Sample.constLoopEmitter))) by (vm_compute; reflexivity).
  split; [exact H|].
  exact (proj1 (emitExprs_results Expr_build _ _ _ _ H)).
Defined.

Lemma loop_needs_three_control_expressions_witness :
  isFor Sample2.shortFor = true
  /\ length (getChildExpressions Sample2.shortFor) <> 3%nat
  /\ emitExpr Expr_build Sample2.shortFor Sample.constLoopEmitter
     = Fatal "Expected 3 exprs" Sample.constLoopEmitter.
Proof.
  assert (Hlen : length (getChildExpressions Sample2.shortFor) <> 3%nat)
    by (cbn; lia).
  split; [reflexivity|]. split; [exact Hlen|].
  destruct (loop_needs_three_control_expressions Expr_build Sample2.shortFor
              Sample.constLoopEmitter eq_refl eq_refl Hlen) as [_ Hab].
  apply Hab. repeat constructor.
  - exists Sample.c0. reflexivity.
  - exists Sample.c10. reflexivity.
Defined.

(** ** Assignments *)

Section Assignments.

Variable build :
  Expr -> gmap positive (option Value) -> M Builder (list (option Value)).

(** What a returning [emitStmt] went through. *)
Lemma emitStmt_Ok s st u st' :
  emitStmt build s st = Ok u st' ->
  (exists v st1 st2,
      emitExpr build (getRHS s) st = Ok (Some v) st1
      /\ ssaBindings st1 !! getStoragePtr (getLHS s) = None
      /\ st2 = set_ssaBindings st1
                 (<[getStoragePtr (getLHS s) := Some v]> (ssaBindings st1))
      /\ ssaBindings st2 ⊆ ssaBindings st')
  \/ (isZeroResultOp (getRHS s) = true
      /\ emitExpr build (getRHS s) st = Ok None st').
Proof.
  rewrite emitStmt_unfold. unfold bnd at 1, gets. intros H.
  apply bnd_Ok in H as ([v|] & st1 & He & H).
  - left. apply bnd_Ok in H as (u1 & st2 & Hbind & H).
    apply bind_Ok in Hbind as [Hnone Hst2]. unfold Bindable in *.
    exists v, st1, st2. split; [exact He|]. split; [exact Hnone|].
    split; [exact Hst2|].
    apply bnd_Ok in H as (u2 & st3 & Hstep & H).
    apply bnd_Ok in H as (u3 & st4 & Hbody & H).
    apply onBuilder_Ok in H as (b' & _ & ->). cbn [ssaBindings set_builder].
    assert (Hg3 : ssaBindings st2 ⊆ ssaBindings st3).
    { destruct (isFor (getRHS s)).
      - unfold stepIntoLoop in Hstep.
        apply bnd_Ok in Hstep as (b0 & s0 & [= <- <-] & Hstep).
        destruct (getForInductionVarOwner _ v) as [forOp|]; [|discriminate].
        destruct (ibody forOp) as [body|]; [|discriminate].
        apply onBuilder_Ok in Hstep as (b1 & _ & ->). reflexivity.
      - injection Hstep as _ <-. reflexivity. }
    etransitivity; [exact Hg3|].
    apply (preserves_Ok _ _ _ _ _ (emitStmts_growsBindings build _) Hbody).
  - right. apply bnd_Ok in H as (u1 & st2 & Ha & [= _ <-]).
    apply assert_Ok in Ha as [Hz ->]. auto.
Qed.

(** X6. When a sequence of statements has been emitted, every statement of
    the sequence either has its left-hand side and its right-hand side
    bound to one and the same value, or is a dealloc, store or return that
    produced no value. *)
Theorem emitStmts_binds_assignments (ss : list Stmt) (st : MLIREmitter)
    (u : unit) (st' : MLIREmitter) :
  emitStmts build ss st = Ok u st' ->
  forall s, s ∈ ss ->
    (exists v, ssaBindings st' !! getStoragePtr (getLHS s) = Some (Some v)
               /\ ssaBindings st' !! getStoragePtr (getRHS s) = Some (Some v))
    \/ isZeroResultOp (getRHS s) = true.
Proof.
  revert st. induction ss as [|s0 ss IH]; intros st H s Hin.
  - apply elem_of_nil in Hin. contradiction.
  - cbn [emitStmts] in H. apply bnd_Ok in H as (u1 & s1 & Hs0 & Hss).
    apply elem_of_cons in Hin as [->|Hin]; [|eapply IH; eassumption].
    destruct (preserves_Ok _ _ _ _ _ (emitStmts_growsBindings build ss) Hss)
      as [Hg _].
    apply emitStmt_Ok in Hs0 as [(v & st1 & st2 & He & Hnone & -> & Hsub)|[Hz _]];
      [left | right; exact Hz].
    exists v. cbn [ssaBindings set_ssaBindings] in Hsub. split.
    + eapply lookup_weaken; [|exact Hg].
      eapply lookup_weaken; [apply lookup_insert_eq | exact Hsub].
    + eapply lookup_weaken; [|exact Hg].
      eapply lookup_weaken; [|exact Hsub].
      apply emitExpr_value_recorded in He.
      rewrite lookup_insert_ne; [exact He|].
      intros Heq. rewrite Heq, He in Hnone. discriminate.
Qed.

(** X7. A statement that produced a value cannot be emitted a second time:
    the right-hand side is then found in the table, and binding the
    left-hand side again aborts with "Double binding!", with nothing
    changed but the diagnostic. *)
Theorem emitStmt_twice_aborts (s : Stmt) (st st1 st' : MLIREmitter)
    (v : Value) (u : unit) :
  emitExpr build (getRHS s) st = Ok (Some v) st1 ->
  emitStmt build s st = Ok u st' ->
  emitStmt build s st'
  = Fatal "Double binding!"
          (report (DiagRebinding (getStoragePtr (getLHS s)) (Some v)) st').
Proof.
  intros He H.
  apply emitStmt_Ok in H as [(v' & st1' & st2 & He' & Hnone & -> & Hsub)|[_ He']];
    [|rewrite He in He'; discriminate].
  rewrite He in He'. injection He' as <- <-.
  cbn [ssaBindings set_ssaBindings] in Hsub.
  assert (Hl : ssaBindings st' !! getStoragePtr (getLHS s) = Some (Some v)).
  { eapply lookup_weaken; [apply lookup_insert_eq | exact Hsub]. }
  assert (Hr : ssaBindings st' !! getStoragePtr (getRHS s) = Some (Some v)).
  { eapply lookup_weaken; [|exact Hsub].
    apply emitExpr_value_recorded in He.
    rewrite lookup_insert_ne; [exact He|].
    intros Heq. rewrite Heq, He in Hnone. discriminate. }
  rewrite emitStmt_unfold. unfold bnd at 1, gets.
  rewrite (bnd_step _ _ _ _ _ (emitExpr_bound build _ _ _ Hr)).
  unfold bnd at 1, bind, Bindable. rewrite Hl. reflexivity.
Qed.

End Assignments.

Lemma emitStmts_binds_assignments_witness :
  emitStmts Expr_build [Sample2.addStmt; Sample.storeStmt] Sample.emitter2
  = Ok tt (final_state (emitStmts Expr_build [Sample2.addStmt; Sample.storeStmt]
                                  Sample.emitter2))
  /\ ((exists v,
         ssaBindings (final_state (emitStmts Expr_build
                        [Sample2.addStmt; Sample.storeStmt] Sample.emitter2))
           !! 21%positive = Some (Some v)
         /\ ssaBindings (final_state (emitStmts Expr_build
                           [Sample2.addStmt; Sample.storeStmt] Sample.emitter2))
              !! 20%positive = Some (Some v))
      \/ isZeroResultOp (getRHS Sample2.addStmt) = true).
Proof.
  assert (H : emitStmts Expr_build [Sample2.addStmt; Sample.storeStmt]
                Sample.emitter2
              = Ok tt (final_state (emitStmts Expr_build
                         [Sample2.addStmt; Sample.storeStmt] Sample.emitter2)))
    by (vm_compute; reflexivity).
  split; [exact H|].
  apply (emitStmts_binds_assignments Expr_build _ _ _ _ H Sample2.addStmt).
  apply list_elem_of_here.
Defined.

Lemma emitStmt_twice_aborts_witness :
  emitExpr Expr_build (getRHS Sample2.addStmt) Sample.emitter2
  = Ok (Some Sample.addValue) Sample.emitter3
  /\ emitStmt Expr_build Sample2.addStmt Sample.emitter2
     = Ok tt Sample2.addStmtEmitter
  /\ aborts (emitStmt Expr_build Sample2.addStmt Sample2.addStmtEmitter).
Proof.
  assert (He : emitExpr Expr_build (getRHS Sample2.addStmt) Sample.emitter2
               = Ok (Some Sample.addValue) Sample.emitter3)
    by (vm_compute; reflexivity).
  assert (H : emitStmt Expr_build Sample2.addStmt Sample.emitter2
              = Ok tt Sample2.addStmtEmitter) by (vm_compute; reflexivity).
  split; [exact He|]. split; [exact H|].
  rewrite (emitStmt_twice_aborts Expr_build _ _ _ _ _ _ He H). exact I.
Defined.

(** ** Constants *)

Lemma create1_Some op operands ty b blk pos :
  cursor b = Some (blk, pos) ->
  exists b',
    create1 op operands ty b = Ok (mkValue (DefInst (nextInst b) op) ty) b'
    /\ cursor b' = cursor b
    /\ funcBlocks b' = funcBlocks b
    /\ nextInst b' = Pos.succ (nextInst b)
    /\ insts b' !! nextInst b = Some (mkInstruction op operands [ty] None).
Proof.
  intros Hc. unfold create1, create, bnd, ret. rewrite Hc.
  eexists. split; [reflexivity|]. cbn [cursor funcBlocks nextInst insts].
  rewrite lookup_insert_eq. auto.
Qed.

Lemma bindConstantIndex_Ok e value st blk pos :
  cursor (builder st) = Some (blk, pos) ->
  ssaBindings st !! getStoragePtr e = None ->
  exists b',
    bindConstantIndex e value st
    = Ok tt (set_ssaBindings (set_builder st b')
               (<[getStoragePtr e :=
                    Some (mkValue (DefInst (nextInst (builder st))
                                           (ConstantIndexOp value)) IndexType)]>
                  (ssaBindings st)))
    /\ cursor b' = cursor (builder st)
    /\ nextInst b' = Pos.succ (nextInst (builder st)).
Proof.
  intros Hc Hnone.
  destruct (create1_Some (ConstantIndexOp value) [] IndexType _ _ _ Hc)
    as (b' & Hv & Hc' & _ & Hn & _).
  exists b'. split; [|auto].
  unfold bindConstantIndex, bnd, onBuilder. rewrite Hv.
  unfold bind. cbn [ssaBindings set_builder]. rewrite Hnone. reflexivity.
Qed.

(** X8. The constructor needs an insertion point: without one it aborts;
    with one it creates the constants 0 and 1, in this order, binds
    [zeroIndex] and [oneIndex] to them and to nothing else, and leaves the
    cursor alone, so that emitting [zeroIndex] afterwards is a table hit. *)
Theorem MLIREmitter_new_spec (b : Builder) (arena0 : positive) :
  (cursor b = None -> aborts (MLIREmitter_new b arena0))
  /\ (cursor b <> None ->
      exists st,
        MLIREmitter_new b arena0 = Ok tt st
        /\ getValue (zeroIndex st) st
           = Some (mkValue (DefInst (nextInst b) (ConstantIndexOp 0)) IndexType)
        /\ getValue (oneIndex st) st
           = Some (mkValue (DefInst (Pos.succ (nextInst b)) (ConstantIndexOp 1))
                           IndexType)
        /\ dom (ssaBindings st)
           = {[getStoragePtr (zeroIndex st); getStoragePtr (oneIndex st)]}
        /\ blockBindings st = ∅
        /\ cursor (builder st) = cursor b
        /\ nextInst (builder st) = Pos.succ (Pos.succ (nextInst b))
        /\ fresh_arena st
        /\ forall build,
             emitExpr build (zeroIndex st) st
             = Ok (Some (mkValue (DefInst (nextInst b) (ConstantIndexOp 0)) IndexType))
                  st).
Proof.
  split.
  - intros Hc. unfold MLIREmitter_new, bnd at 1, bindConstantIndex, bnd at 1,
      onBuilder, create1, bnd at 1, create.
    cbn [builder]. rewrite Hc. exact I.
  - intros Hc. destruct (cursor b) as [[blk pos]|] eqn:Ec; [|congruence].
    unfold MLIREmitter_new.
    set (st0 := mkEmitter b ∅ ∅ _ _ _ []).
    destruct (bindConstantIndex_Ok (Bindable (mkExpr arena0 Unbound "" [IndexType] []))
                0 st0 blk pos Ec (lookup_empty _)) as (b1 & H1 & Hc1 & Hn1).
    rewrite (bnd_step _ _ _ _ _ H1). clear H1.
    match goal with
    | |- context [bindConstantIndex ?e 1 ?s] =>
        destruct (bindConstantIndex_Ok e 1 s blk pos) as (b2 & H2 & Hc2 & Hn2)
    end.
    { cbn [builder set_ssaBindings set_builder]. rewrite Hc1. exact Ec. }
    { cbn [ssaBindings set_ssaBindings getStoragePtr Bindable].
      rewrite lookup_insert_ne by lia. apply lookup_empty. }
    rewrite H2. clear H2. eexists. split; [reflexivity|].
    unfold getValue, fresh_arena, set_ssaBindings, set_builder, st0 in *.
    cbn [builder ssaBindings blockBindings zeroIndex oneIndex arena
         getStoragePtr Bindable] in *.
    assert (Hz : (<[Pos.succ arena0 := Some (mkValue (DefInst (nextInst b1)
                     (ConstantIndexOp 1)) IndexType)]>
                  (<[arena0 := Some (mkValue (DefInst (nextInst b)
                       (ConstantIndexOp 0)) IndexType)]> (∅ : gmap positive (option Value))))
                 !! arena0
                 = Some (Some (mkValue (DefInst (nextInst b) (ConstantIndexOp 0))
                                       IndexType))).
    { rewrite lookup_insert_ne by lia. apply lookup_insert_eq. }
    split; [unfold getValue; cbn [ssaBindings getStoragePtr]; rewrite Hz; reflexivity|].
    split.
    { unfold getValue. cbn [ssaBindings getStoragePtr].
      rewrite lookup_insert_eq, Hn1. reflexivity. }
    split; [rewrite !dom_insert_L, dom_empty_L, (right_id_L ∅ (∪)), (comm_L (∪)); reflexivity|].
    split; [reflexivity|]. split; [congruence|]. split; [congruence|].
    split.
    { intros k Hk. cbn [ssaBindings arena] in *.
      rewrite !lookup_insert_ne by lia. apply lookup_empty. }
    intros build. apply emitExpr_bound. exact Hz.
Qed.

Lemma MLIREmitter_new_spec_witness :
  cursor Sample.bld <> None
  /\ cursor Sample2.unsetBld = None
  /\ aborts (MLIREmitter_new Sample2.unsetBld 100)
  /\ exists st,
      MLIREmitter_new Sample.bld 100 = Ok tt st
      /\ getValue (zeroIndex st) st
         = Some (mkValue (DefInst 1%positive (ConstantIndexOp 0)) IndexType)
      /\ getValue (oneIndex st) st
         = Some (mkValue (DefInst 2%positive (ConstantIndexOp 1)) IndexType).
Proof.
  assert (Hc : cursor Sample.bld <> None) by discriminate.
  split; [exact Hc|]. split; [reflexivity|].
  split; [apply (proj1 (MLIREmitter_new_spec Sample2.unsetBld 100)); reflexivity|].
  destruct (proj2 (MLIREmitter_new_spec Sample.bld 100) Hc)
    as (st & H & H0 & H1 & _).
  exists st. split; [exact H|]. split; [exact H0 | exact H1].
Defined.

Lemma CAPI_bindConstantIndex_Ok value st blk pos :
  cursor (builder st) = Some (blk, pos) ->
  fresh_arena st ->
  exists st',
    CAPI.bindConstantIndex value st
    = Ok (mkExpr (arena st) Unbound "" [IndexType] []) st'
    /\ ssaBindings st'
       = <[arena st := Some (mkValue (DefInst (nextInst (builder st))
                                              (ConstantIndexOp value)) IndexType)]>
           (ssaBindings st)
    /\ arena st' = Pos.succ (arena st)
    /\ cursor (builder st') = cursor (builder st)
    /\ nextInst (builder st') = Pos.succ (nextInst (builder st))
    /\ blockBindings st' = blockBindings st
    /\ fresh_arena st'.
Proof.
  intros Hc Hfresh. unfold CAPI.bindConstantIndex, bnd at 1, newExpr.
  destruct (bindConstantIndex_Ok
              (Bindable (mkExpr (arena st) Unbound "" [IndexType] [])) value
              (set_arena st (Pos.succ (arena st))) blk pos Hc)
    as (b' & H & Hc' & Hn').
  { cbn [ssaBindings set_arena getStoragePtr Bindable]. apply Hfresh. reflexivity. }
  rewrite (bnd_step _ _ _ _ _ H). eexists. split; [reflexivity|].
  cbn [ssaBindings arena builder blockBindings set_ssaBindings set_builder
       set_arena getStoragePtr Bindable] in *.
  repeat (split; [first [reflexivity | assumption]|]).
  intros k Hk. unfold set_ssaBindings, set_builder, set_arena in *.
  cbn [ssaBindings arena] in *.
  rewrite lookup_insert_ne by lia. apply Hfresh. lia.
Qed.

(** X9. Constants are not shared: binding the same index constant twice
    through [bindConstantIndex] gives two different nodes, bound to the
    results of two different instructions of the same operation. *)
Theorem bindConstantIndex_not_shared (value : Z) (st : MLIREmitter)
    (blk : BlockId) (pos : InsertPoint) :
  cursor (builder st) = Some (blk, pos) ->
  fresh_arena st ->
  exists e1 st1 e2 st2 v1 v2,
    CAPI.bindConstantIndex value st = Ok e1 st1
    /\ CAPI.bindConstantIndex value st1 = Ok e2 st2
    /\ getStoragePtr e1 <> getStoragePtr e2
    /\ getValue e1 st2 = Some v1
    /\ getValue e2 st2 = Some v2
    /\ v1 <> v2
    /\ getDefiningInst v1 = Some (ConstantIndexOp value)
    /\ getDefiningInst v2 = Some (ConstantIndexOp value)
    /\ nextInst (builder st2) = Pos.succ (Pos.succ (nextInst (builder st))).
Proof.
  intros Hc Hfresh.
  destruct (CAPI_bindConstantIndex_Ok value st blk pos Hc Hfresh)
    as (st1 & H1 & Hs1 & Ha1 & Hc1 & Hn1 & _ & Hf1).
  destruct (CAPI_bindConstantIndex_Ok value st1 blk pos) as
    (st2 & H2 & Hs2 & Ha2 & Hc2 & Hn2 & _ & Hf2); [congruence | exact Hf1 |].
  do 6 eexists. split; [exact H1|]. split; [exact H2|].
  cbn [getStoragePtr]. unfold getValue. cbn [getStoragePtr].
  rewrite Hs2, Hs1, Ha1.
  split; [lia|].
  split; [rewrite lookup_insert_ne by lia; rewrite lookup_insert_eq; reflexivity|].
  split; [rewrite lookup_insert_eq; reflexivity|].
  split; [rewrite Hn1; intros [= Heq]; lia|].
  split; [reflexivity|]. split; [reflexivity|]. congruence.
Qed.

Lemma bindConstantIndex_not_shared_witness :
  cursor (builder Sample.emitter) = Some (Sample.entry, None)
  /\ fresh_arena Sample.emitter
  /\ exists e1 st1 e2 st2,
      CAPI.bindConstantIndex 7 Sample.emitter = Ok e1 st1
      /\ CAPI.bindConstantIndex 7 st1 = Ok e2 st2
      /\ getStoragePtr e1 <> getStoragePtr e2.
Proof.
  assert (Hfresh : fresh_arena Sample.emitter) by (intros k _; apply lookup_empty).
  split; [reflexivity|]. split; [exact Hfresh|].
  destruct (bindConstantIndex_not_shared 7 Sample.emitter Sample.entry None
              eq_refl Hfresh)
    as (e1 & st1 & e2 & st2 & v1 & v2 & H1 & H2 & Hne & _).
  exists e1, st1, e2, st2. auto.
Defined.

(** ** Sizes of a memref *)

Lemma getMemRefSizes_Ok memRef shape b blk pos :
  getShape memRef = Some shape ->
  cursor b = Some (blk, pos) ->
  cursor_before b pos ->
  exists b',
    getMemRefSizes memRef b
    = Ok (imap (fun i size =>
                  mkValue (DefInst (pos_plus (nextInst b) i)
                                   (iop (sizeInstruction memRef size i)))
                          IndexType) shape) b'
    /\ Emitted b blk pos (imap (fun i size => sizeInstruction memRef size i) shape) b'.
Proof.
  intros Hshape Hc Hpos. unfold getMemRefSizes. rewrite Hshape.
  destruct (getMemRefSizes_from_Emitted memRef shape 0 b blk pos [] b Hc Hpos
              (Emitted_nil _ _ _)) as (b' & Hrun & He).
  exists b'. split; [exact Hrun | exact He].
Qed.

Lemma Emitted_cursor_before b blk pos new b' :
  cursor_before b pos -> Emitted b blk pos new b' -> cursor_before b' pos.
Proof.
  intros Hpos (_ & _ & _ & Hn & _). destruct pos as [j|]; [|exact I].
  cbn in *. rewrite Hn. pose proof (pos_plus_le (nextInst b) (length new)). lia.
Qed.

(** X10. [getMemRefSizes] does not reuse what it has emitted: two calls on
    the same memref create twice rank-many instructions, the two results
    have no value in common, and yet the values of a dimension come from the
    same operation. *)
Theorem getMemRefSizes_emits_redundant_IR (memRef : Value) (shape : list Z)
    (b : Builder) (blk : BlockId) (pos : InsertPoint) :
  getShape memRef = Some shape ->
  cursor b = Some (blk, pos) ->
  cursor_before b pos ->
  exists vs1 b1 vs2 b2,
    getMemRefSizes memRef b = Ok vs1 b1
    /\ getMemRefSizes memRef b1 = Ok vs2 b2
    /\ length vs1 = length shape
    /\ length vs2 = length shape
    /\ nextInst b2 = pos_plus (nextInst b) (length shape + length shape)
    /\ (forall v, v ∈ vs1 -> v ∉ vs2)
    /\ (forall i v1 v2, vs1 !! i = Some v1 -> vs2 !! i = Some v2 ->
          getDefiningInst v1 = getDefiningInst v2).
Proof.
  intros Hshape Hc Hpos.
  destruct (getMemRefSizes_Ok memRef shape b blk pos Hshape Hc Hpos)
    as (b1 & H1 & He1).
  assert (Hc1 : cursor b1 = Some (blk, pos)) by (rewrite (proj1 He1); exact Hc).
  assert (Hn1 : nextInst b1 = pos_plus (nextInst b) (length shape)).
  { destruct He1 as (_ & _ & _ & Hn & _). rewrite length_imap in Hn. exact Hn. }
  destruct (getMemRefSizes_Ok memRef shape b1 blk pos Hshape Hc1
              (Emitted_cursor_before _ _ _ _ _ Hpos He1)) as (b2 & H2 & He2).
  do 4 eexists. split; [exact H1|]. split; [exact H2|].
  rewrite !length_imap. split; [reflexivity|]. split; [reflexivity|].
  split.
  { destruct He2 as (_ & _ & _ & Hn & _). rewrite length_imap in Hn.
    rewrite Hn, Hn1. apply pos_plus_add. }
  split.
  - intros v Hv1 Hv2.
    apply list_elem_of_lookup in Hv1 as (i & Hi), Hv2 as (j & Hj).
    rewrite list_lookup_imap in Hi, Hj.
    destruct (shape !! i) as [si|] eqn:Esi; [|discriminate].
    destruct (shape !! j) as [sj|] eqn:Esj; [|discriminate].
    cbn in Hi, Hj. injection Hi as <-. injection Hj as Hj _.
    rewrite Hn1, pos_plus_add in Hj. apply pos_plus_inj in Hj.
    apply lookup_lt_Some in Esi. lia.
  - intros i v1 v2 Hv1 Hv2. rewrite list_lookup_imap in Hv1, Hv2.
    destruct (shape !! i) as [si|]; [|discriminate].
    cbn in Hv1, Hv2. injection Hv1 as <-. injection Hv2 as <-. reflexivity.
Qed.

Lemma getMemRefSizes_emits_redundant_IR_witness :
  exists vs1 b1 vs2 b2,
    getMemRefSizes Sample.argMemRef Sample.bld = Ok vs1 b1
    /\ getMemRefSizes Sample.argMemRef b1 = Ok vs2 b2
    /\ length vs1 = 3%nat
    /\ length vs2 = 3%nat.
Proof.
  destruct (getMemRefSizes_emits_redundant_IR Sample.argMemRef [-1; 4; -1]
              Sample.bld Sample.entry None eq_refl eq_refl I)
    as (vs1 & b1 & vs2 & b2 & H1 & H2 & Hl1 & Hl2 & _).
  exists vs1, b1, vs2, b2. auto.
Defined.

Lemma makeBoundMemRefShape_run (memRef : Value) (shape : list Z)
    (st : MLIREmitter) (b0 : Builder) (blk : BlockId) (pos : InsertPoint)
    (new : list Instruction) :
  getShape memRef = Some shape ->
  cursor b0 = Some (blk, pos) ->
  cursor_before b0 pos ->
  Emitted b0 blk pos new (builder st) ->
  fresh_arena st ->
  let N := length shape in
  let node k := mkExpr k Unbound "" [IndexType] [] in
  let exprs := map node (pos_seq (arena st) N) in
  let values :=
    imap (fun i size =>
            mkValue (DefInst (pos_plus (nextInst b0) (length new + i))
                             (iop (sizeInstruction memRef size (0 + i))))
                    IndexType) shape in
  exists b' m,
    makeBoundMemRefShape memRef st
    = Ok exprs (mkEmitter b' m (blockBindings st) (zeroIndex st) (oneIndex st)
                          (pos_plus (arena st) N) (errs st))
    /\ Emitted b0 blk pos
         (new ++ imap (fun i size => sizeInstruction memRef size (0 + i)) shape) b'
    /\ ssaBindings st ⊆ m
    /\ (forall i e v, exprs !! i = Some e -> values !! i = Some v ->
          m !! getStoragePtr e = Some (Some v))
    /\ (forall k, k ∉ pos_seq (arena st) N -> m !! k = ssaBindings st !! k).
Proof.
  intros Hshape Hc Hpos He Hfresh N node exprs values.
  unfold makeBoundMemRefShape. rewrite Hshape. fold N.
  unfold bnd at 1. rewrite makeNewExprs_Ok. fold node. fold exprs.
  unfold getMemRefSizes. rewrite Hshape.
  destruct (getMemRefSizes_from_Emitted memRef shape 0 _ _ _ _ _ Hc Hpos He)
    as (b2 & Hsizes & He2).
  fold values in Hsizes.
  unfold bnd at 1, onBuilder. unfold set_arena at 1. cbn [builder].
  rewrite Hsizes. unfold bnd at 1, assert_.
  assert (Hlen : length exprs = length values).
  { subst exprs values. rewrite length_map, length_imap. unfold pos_seq.
    rewrite length_map, length_seq. reflexivity. }
  assert (Hptr : map getStoragePtr exprs = pos_seq (arena st) N).
  { subst exprs. rewrite map_map. cbn [getStoragePtr node]. apply map_id. }
  rewrite Hlen, Nat.eqb_refl.
  unfold bnd at 1.
  match goal with
  | |- context [bindZipRange exprs values ?s] =>
      destruct (bindZipRange_Ok exprs values s Hlen)
        as (m & Hzip & Hsub & Hl & Ho)
  end.
  { rewrite Hptr. unfold pos_seq. apply NoDup_fmap_2; [|apply NoDup_seq].
    intros x y. apply pos_plus_inj. }
  { intros e Hin. subst exprs. apply list_elem_of_fmap in Hin as (k & -> & Hk).
    cbn [getStoragePtr node ssaBindings set_builder set_arena].
    apply elem_of_pos_seq in Hk. apply Hfresh. lia. }
  rewrite Hzip. cbn [ret].
  cbn [ssaBindings set_builder set_arena] in Ho, Hsub.
  exists b2, m. split; [reflexivity|]. split; [exact He2|].
  split; [exact Hsub|]. split; [exact Hl|].
  intros k Hk. apply Ho. rewrite Hptr. exact Hk.
Qed.

(** X11. [makeBoundMemRefShape] on a memref of rank N returns N new,
    pairwise different placeholders of index type, none of which had a
    binding, and binds the i-th to the size of dimension i; the bindings
    there were are kept, the block table and the cursor are the same. *)
Theorem makeBoundMemRefShape_binds_new_nodes (memRef : Value) (shape : list Z)
    (st : MLIREmitter) (blk : BlockId) (pos : InsertPoint) :
  getShape memRef = Some shape ->
  cursor (builder st) = Some (blk, pos) ->
  cursor_before (builder st) pos ->
  fresh_arena st ->
  exists es st',
    makeBoundMemRefShape memRef st = Ok es st'
    /\ length es = length shape
    /\ NoDup (map getStoragePtr es)
    /\ (forall e, e ∈ es ->
          getKind e = Unbound /\ getResultTypes e = [IndexType]
          /\ ssaBindings st !! getStoragePtr e = None)
    /\ (forall i e size, es !! i = Some e -> shape !! i = Some size ->
          getValue e st'
          = Some (mkValue (DefInst (pos_plus (nextInst (builder st)) i)
                                   (if isDynamicSize (to_int size) then DimOp i
                                    else ConstantIndexOp size))
                          IndexType))
    /\ ssaBindings st ⊆ ssaBindings st'
    /\ blockBindings st' = blockBindings st
    /\ cursor (builder st') = cursor (builder st)
    /\ fresh_arena st'.
Proof.
  intros Hshape Hc Hpos Hfresh.
  destruct (makeBoundMemRefShape_run memRef shape st (builder st) blk pos []
              Hshape Hc Hpos (Emitted_nil _ _ _) Hfresh)
    as (b' & m & Hrun & He & Hsub & Hl & Ho).
  do 2 eexists. split; [exact Hrun|]. cbn [ssaBindings blockBindings builder arena].
  split; [unfold pos_seq; rewrite !length_map, length_seq; reflexivity|].
  split.
  { rewrite map_map. cbn [getStoragePtr]. rewrite map_id. unfold pos_seq.
    apply NoDup_fmap_2; [|apply NoDup_seq]. intros x y. apply pos_plus_inj. }
  split.
  { intros e Hin. apply list_elem_of_fmap in Hin as (k & -> & Hk).
    cbn [getKind getResultTypes getStoragePtr]. split; [reflexivity|].
    split; [reflexivity|]. apply elem_of_pos_seq in Hk. apply Hfresh. lia. }
  split.
  { intros i e size Hi Hsize. unfold getValue. cbn [ssaBindings].
    erewrite Hl; [reflexivity | exact Hi |].
    rewrite list_lookup_imap, Hsize. cbn. unfold sizeInstruction.
    destruct (isDynamicSize (to_int size)); reflexivity. }
  split; [exact Hsub|]. split; [reflexivity|].
  split; [exact (proj1 He)|].
  intros k Hk. cbn [arena ssaBindings] in *. rewrite Ho.
  - apply Hfresh. pose proof (pos_plus_le (arena st) (length shape)). lia.
  - intros Hin. apply elem_of_pos_seq in Hin.
    apply Pos2Z.pos_le_pos in Hk. rewrite pos_plus_Z in Hk. lia.
Qed.

Lemma makeBoundMemRefShape_binds_new_nodes_witness :
  exists es st',
    makeBoundMemRefShape Sample.argMemRef Sample.emitter = Ok es st'
    /\ length es = 3%nat.
Proof.
  assert (Hfresh : fresh_arena Sample.emitter) by (intros k _; apply lookup_empty).
  destruct (makeBoundMemRefShape_binds_new_nodes Sample.argMemRef [-1; 4; -1]
              Sample.emitter Sample.entry None eq_refl eq_refl I Hfresh)
    as (es & st' & H & Hlen & _).
  exists es, st'. split; [exact H | exact Hlen].
Defined.

(** ** Function arguments *)

Lemma bindArgumentsFrom_Ok (f : Function) (count pos : nat) (st : MLIREmitter) :
  (pos + count <= getNumArguments f)%nat ->
  fresh_arena st ->
  exists m,
    bindArgumentsFrom f pos count st
    = Ok (imap (fun i arg => mkExpr (pos_plus (arena st) i) Unbound "" [vtype arg] [])
               (take count (drop pos (fnArguments f))))
         (set_ssaBindings (set_arena st (pos_plus (arena st) count)) m)
    /\ ssaBindings st ⊆ m
    /\ (forall i arg, (i < count)%nat -> fnArguments f !! (pos + i)%nat = Some arg ->
          m !! pos_plus (arena st) i = Some (Some arg))
    /\ (forall k, (pos_plus (arena st) count <= k)%positive -> m !! k = None).
Proof.
  revert pos st. induction count as [|count IH]; intros pos st Hle Hfresh.
  - exists (ssaBindings st). split; [destruct st; reflexivity|].
    split; [reflexivity|]. split; [intros; lia|]. exact Hfresh.
  - cbn [bindArgumentsFrom]. unfold getArgument.
    destruct (fnArguments f !! pos) as [arg|] eqn:Earg.
    2:{ apply lookup_ge_None in Earg. unfold getNumArguments in Hle. lia. }
    unfold bnd at 1, newExpr. unfold bnd at 1, bind.
    cbn [getStoragePtr Bindable ssaBindings set_arena].
    rewrite (Hfresh (arena st)) by reflexivity.
    set (st1 := set_ssaBindings _ _).
    destruct (IH (S pos) st1) as (m & Hrun & Hsub & Hl & Ho).
    { lia. }
    { intros k Hk. subst st1. cbn [ssaBindings set_ssaBindings arena set_arena] in *.
      rewrite lookup_insert_ne by lia. apply Hfresh. lia. }
    rewrite (bnd_step _ _ _ _ _ Hrun). cbn [ret].
    subst st1. cbn [ssaBindings set_ssaBindings arena set_arena] in *.
    rewrite pos_plus_succ in *.
    exists m. split.
    + rewrite (drop_S _ _ _ Earg). cbn [take]. rewrite imap_cons. cbn [pos_plus].
      f_equal. f_equal. apply imap_ext. intros i x _. cbn [compose].
      rewrite pos_plus_succ. reflexivity.
    + split.
      { etransitivity; [|exact Hsub]. apply insert_subseteq, Hfresh. reflexivity. }
      split; [|exact Ho].
      intros [|i] a Hi Ha.
      * rewrite Nat.add_0_r in Ha. rewrite Earg in Ha. injection Ha as <-.
        eapply lookup_weaken; [|exact Hsub]. apply lookup_insert_eq.
      * rewrite <- pos_plus_succ. apply Hl; [lia|].
        replace (S pos + i)%nat with (pos + S i)%nat by lia. exact Ha.
Qed.

(** X12. [makeBoundFunctionArguments] returns one new placeholder per
    argument of the function, in order, of the type of the argument and
    bound to it; no placeholder is returned twice; it needs no insertion
    point and leaves the builder as it was, and it keeps the bindings there
    were. *)
Theorem makeBoundFunctionArguments_spec (f : Function) (st : MLIREmitter) :
  fresh_arena st ->
  exists es st',
    makeBoundFunctionArguments f st = Ok es st'
    /\ length es = getNumArguments f
    /\ NoDup (map getStoragePtr es)
    /\ (forall i arg, getArgument f i = Some arg ->
          exists e, es !! i = Some e
                    /\ getKind e = Unbound
                    /\ getResultTypes e = [vtype arg]
                    /\ ssaBindings st !! getStoragePtr e = None
                    /\ getValue e st' = Some arg)
    /\ ssaBindings st ⊆ ssaBindings st'
    /\ blockBindings st' = blockBindings st
    /\ builder st' = builder st
    /\ fresh_arena st'.
Proof.
  intros Hfresh. unfold makeBoundFunctionArguments.
  destruct (bindArgumentsFrom_Ok f (getNumArguments f) 0 st) as (m & Hrun & Hsub & Hl & Ho);
    [lia | exact Hfresh |].
  unfold getNumArguments in *. rewrite drop_0, firstn_all in Hrun.
  do 2 eexists. split; [exact Hrun|].
  cbn [ssaBindings blockBindings builder set_ssaBindings set_arena].
  split; [apply length_imap|].
  split.
  { apply NoDup_alt. intros i j k Hi Hj.
    rewrite list_lookup_fmap, list_lookup_imap in Hi, Hj.
    destruct (fnArguments f !! i); [|discriminate].
    destruct (fnArguments f !! j); [|discriminate].
    cbn in Hi, Hj. injection Hi as <-. injection Hj as Hj.
    apply pos_plus_inj in Hj. congruence. }
  split.
  { intros i arg Hi. unfold getArgument in Hi. eexists. split.
    { rewrite list_lookup_imap, Hi. reflexivity. }
    cbn [getKind getResultTypes getStoragePtr]. split; [reflexivity|].
    split; [reflexivity|].
    split; [apply Hfresh, pos_plus_le|].
    unfold getValue, set_ssaBindings. cbn [ssaBindings getStoragePtr].
    rewrite (Hl i arg); [reflexivity | | exact Hi].
    apply lookup_lt_Some in Hi. exact Hi. }
  split; [exact Hsub|]. split; [reflexivity|]. split; [reflexivity|].
  intros k Hk. apply Ho. exact Hk.
Qed.

Lemma makeBoundFunctionArguments_spec_witness :
  exists es st',
    makeBoundFunctionArguments Sample2.fn
      (set_builder Sample.emitter Sample2.unsetBld) = Ok es st'
    /\ length es = 5%nat
    /\ builder st' = Sample2.unsetBld.
Proof.
  assert (Hfresh : fresh_arena (set_builder Sample.emitter Sample2.unsetBld))
    by (intros k _; apply lookup_empty).
  destruct (makeBoundFunctionArguments_spec Sample2.fn _ Hfresh)
    as (es & st' & H & Hlen & _ & _ & _ & _ & Hb & _).
  exists es, st'. split; [exact H|]. split; [exact Hlen | exact Hb].
Defined.

Lemma CAPI_bindFunctionArgument_Ok (f : Function) (pos : nat) (arg : Value)
    (st : MLIREmitter) :
  fresh_arena st ->
  getArgument f pos = Some arg ->
  CAPI.bindFunctionArgument f pos st
  = Ok (mkExpr (arena st) Unbound "" [vtype arg] [])
       (set_ssaBindings (set_arena st (Pos.succ (arena st)))
          (<[arena st := Some arg]> (ssaBindings st))).
Proof.
  intros Hfresh Harg. unfold CAPI.bindFunctionArgument, bnd at 1, assert_.
  assert (Hlt : (pos <? getNumArguments f)%nat = true).
  { apply Nat.ltb_lt. unfold getArgument in Harg. apply lookup_lt_Some in Harg.
    exact Harg. }
  rewrite Hlt, Harg. unfold bnd at 1, newExpr. unfold bnd at 1, bind.
  cbn [getStoragePtr Bindable ssaBindings set_arena].
  rewrite (Hfresh (arena st)) by reflexivity. reflexivity.
Qed.

(** X13. The entry points on one function argument agree inside the range
    and fail outside it: for [pos] past the last argument the rank and type
    queries fail their assertion and [bindFunctionArgument] aborts with the
    emitter untouched; for an argument, [bindFunctionArgument] returns a
    new node of the type [getTypeOfFunctionArgument] reports, bound to the
    argument, without touching the builder.  For a memref argument the rank
    of the bound node is the rank of the argument, but for any other
    argument [getRankOfFunctionArgument] answers 0 while
    [getBoundMemRefRank] aborts. *)
Theorem function_argument_entry_points (f : Function) (pos : nat)
    (st : MLIREmitter) :
  fresh_arena st ->
  ((getNumArguments f <= pos)%nat ->
     CAPI.getRankOfFunctionArgument f pos = None
     /\ CAPI.getTypeOfFunctionArgument f pos = None
     /\ CAPI.bindFunctionArgument f pos st = Fatal "pos < f->getNumArguments()" st)
  /\ (forall arg, getArgument f pos = Some arg ->
        exists e st',
          CAPI.bindFunctionArgument f pos st = Ok e st'
          /\ CAPI.getTypeOfFunctionArgument f pos = Some (vtype arg)
          /\ getResultTypes e = [vtype arg]
          /\ getValue e st = None
          /\ getValue e st' = Some arg
          /\ builder st' = builder st
          /\ match getShape arg with
             | Some shape =>
                 CAPI.getRankOfFunctionArgument f pos = Some (length shape)
                 /\ CAPI.getBoundMemRefRank e st' = Ok (length shape) st'
             | None =>
                 CAPI.getRankOfFunctionArgument f pos = Some 0%nat
                 /\ aborts (CAPI.getBoundMemRefRank e st')
                 /\ final_state (CAPI.getBoundMemRefRank e st') = st'
             end).
Proof.
  intros Hfresh. split.
  - intros Hge. apply Nat.ltb_ge in Hge.
    unfold CAPI.getRankOfFunctionArgument, CAPI.getTypeOfFunctionArgument,
      CAPI.bindFunctionArgument, bnd, assert_.
    rewrite Hge. auto.
  - intros arg Harg.
    assert (Hlt : (pos <? getNumArguments f)%nat = true).
    { apply Nat.ltb_lt. unfold getArgument in Harg. apply lookup_lt_Some in Harg.
      exact Harg. }
    do 2 eexists. split; [apply (CAPI_bindFunctionArgument_Ok f pos arg st Hfresh Harg)|].
    unfold CAPI.getTypeOfFunctionArgument, CAPI.getRankOfFunctionArgument,
      CAPI.getBoundMemRefRank, getValue, bnd, gets.
    rewrite Hlt, Harg.
    cbn [getResultTypes getStoragePtr ssaBindings set_ssaBindings builder set_arena
         fmap option_fmap option_map mbind option_bind].
    rewrite lookup_insert_eq, (Hfresh (arena st)) by reflexivity. cbn [mjoin option_join].
    repeat (split; [reflexivity|]).
    unfold getShape. destruct (vtype arg); cbn; auto.
Qed.

Lemma function_argument_entry_points_witness :
  (exists e st',
     CAPI.bindFunctionArgument Sample2.fn 1 Sample.emitter = Ok e st'
     /\ CAPI.getBoundMemRefRank e st' = Ok 3%nat st')
  /\ (exists e st',
        CAPI.bindFunctionArgument Sample2.fn 2 Sample.emitter = Ok e st'
        /\ CAPI.getRankOfFunctionArgument Sample2.fn 2 = Some 0%nat
        /\ aborts (CAPI.getBoundMemRefRank e st'))
  /\ CAPI.bindFunctionArgument Sample2.fn 5 Sample.emitter
     = Fatal "pos < f->getNumArguments()" Sample.emitter.
Proof.
  assert (Hfresh : fresh_arena Sample.emitter) by (intros k _; apply lookup_empty).
  split; [|split].
  - destruct (proj2 (function_argument_entry_points Sample2.fn 1 Sample.emitter Hfresh)
                _ eq_refl) as (e & st' & H & _ & _ & _ & _ & _ & _ & Hrank).
    exists e, st'. split; [exact H | exact Hrank].
  - destruct (proj2 (function_argument_entry_points Sample2.fn 2 Sample.emitter Hfresh)
                _ eq_refl) as (e & st' & H & _ & _ & _ & _ & _ & Hr & Ha & _).
    exists e, st'. split; [exact H|]. split; [exact Hr | exact Ha].
  - apply (proj1 (function_argument_entry_points Sample2.fn 5 Sample.emitter Hfresh)).
    unfold getNumArguments. simpl. lia.
Defined.

Lemma CAPI_bindFunctionArguments_Ok (f : Function) (st : MLIREmitter) :
  fresh_arena st ->
  exists es st1,
    CAPI.bindFunctionArguments f (getNumArguments f) st = Ok es st1
    /\ (forall pos arg, getArgument f pos = Some arg ->
          exists e0, es !! pos = Some e0
                     /\ getValue e0 st1 = Some arg
                     /\ (getStoragePtr e0 < arena st1)%positive)
    /\ fresh_arena st1.
Proof.
  intros Hfresh.
  destruct (bindArgumentsFrom_Ok f (getNumArguments f) 0 st) as (m & Hrun & Hsub & Hl & Ho);
    [lia | exact Hfresh |].
  unfold CAPI.bindFunctionArguments, bnd at 1, assert_. rewrite Nat.eqb_refl.
  unfold getNumArguments in *. rewrite drop_0, firstn_all in Hrun.
  do 2 eexists. split; [exact Hrun|].
  unfold getValue, fresh_arena, set_ssaBindings, set_arena.
  cbn [ssaBindings arena]. split; [|exact Ho].
  intros pos arg Harg. unfold getArgument in Harg. eexists. split.
  { rewrite list_lookup_imap, Harg. reflexivity. }
  cbn [getStoragePtr]. pose proof (lookup_lt_Some _ _ _ Harg) as Hlt.
  rewrite (Hl pos arg Hlt Harg). split; [reflexivity|].
  pose proof (pos_plus_Z (arena st) pos).
  pose proof (pos_plus_Z (arena st) (length (fnArguments f))). lia.
Qed.

(** X14. Arguments can be bound again and again: after
    [bindFunctionArguments] has bound all of them, [bindFunctionArgument]
    on any position does not run into a double binding but returns another
    node, and both nodes have the argument as their value.  With a result
    list of any other length than the number of arguments,
    [bindFunctionArguments] aborts before it binds anything. *)
Theorem arguments_can_be_bound_repeatedly (f : Function) (pos : nat) (arg : Value)
    (st : MLIREmitter) :
  fresh_arena st ->
  getArgument f pos = Some arg ->
  (exists es st1 e0 e st2,
     CAPI.bindFunctionArguments f (getNumArguments f) st = Ok es st1
     /\ CAPI.bindFunctionArgument f pos st1 = Ok e st2
     /\ es !! pos = Some e0
     /\ getStoragePtr e0 <> getStoragePtr e
     /\ getValue e0 st2 = Some arg
     /\ getValue e st2 = Some arg)
  /\ (forall n, n <> getNumArguments f ->
        CAPI.bindFunctionArguments f n st
        = Fatal "result->n == f->getNumArguments()" st).
Proof.
  intros Hfresh Harg. split.
  - destruct (CAPI_bindFunctionArguments_Ok f st Hfresh)
      as (es & st1 & Hrun & Hnodes & Hfresh1).
    destruct (Hnodes pos arg Harg) as (e0 & He0 & Hv0 & Hlt).
    exists es, st1, e0. do 2 eexists.
    split; [exact Hrun|].
    split; [apply (CAPI_bindFunctionArgument_Ok f pos arg st1 Hfresh1 Harg)|].
    split; [exact He0|].
    cbn [getStoragePtr]. split; [lia|].
    unfold getValue in *. cbn [ssaBindings set_ssaBindings getStoragePtr set_arena].
    rewrite lookup_insert_ne by lia. rewrite lookup_insert_eq.
    split; [exact Hv0 | reflexivity].
  - intros n Hn. apply Nat.eqb_neq in Hn.
    unfold CAPI.bindFunctionArguments, bnd, assert_. rewrite Hn. reflexivity.
Qed.

Lemma arguments_can_be_bound_repeatedly_witness :
  exists es st1 e0 e st2,
    CAPI.bindFunctionArguments Sample2.fn 5 Sample.emitter = Ok es st1
    /\ CAPI.bindFunctionArgument Sample2.fn 1 st1 = Ok e st2
    /\ es !! 1%nat = Some e0
    /\ getStoragePtr e0 <> getStoragePtr e
    /\ getValue e0 st2 = Some Sample.argMemRef
    /\ getValue e st2 = Some Sample.argMemRef.
Proof.
  assert (Hfresh : fresh_arena Sample.emitter) by (intros k _; apply lookup_empty).
  exact (proj1 (arguments_can_be_bound_repeatedly Sample2.fn 1 Sample.argMemRef
                  Sample.emitter Hfresh eq_refl)).
Defined.

(** ** Shapes and views through the C entry points *)

Lemma makeBoundMemRefShape_length (memRef : Value) (st st' : MLIREmitter)
    (es : list Expr) :
  makeBoundMemRefShape memRef st = Ok es st' ->
  exists shape, getShape memRef = Some shape /\ length es = length shape.
Proof.
  unfold makeBoundMemRefShape. destruct (getShape memRef) as [shape|]; [|discriminate].
  intros H. exists shape. split; [reflexivity|].
  apply bnd_Ok in H as (exprs & s1 & H1 & H2).
  rewrite makeNewExprs_Ok in H1. injection H1 as <- <-.
  apply bnd_Ok in H2 as (vals & s2 & _ & H3).
  apply bnd_Ok in H3 as (u & s3 & _ & H4).
  apply bnd_Ok in H4 as (u' & s4 & _ & H5).
  injection H5 as <- _. unfold pos_seq. rewrite !length_map, length_seq. reflexivity.
Qed.

Lemma CAPI_getBoundMemRefRank_eq (e : Expr) (st : MLIREmitter) :
  CAPI.getBoundMemRefRank e st
  = match getValue e st with
    | None => Fatal "Expected a bound Expr" st
    | Some v =>
        match getShape v with
        | None => Fatal "cast<MemRefType>() argument of incompatible type" st
        | Some shape => Ok (length shape) st
        end
    end.
Proof.
  unfold CAPI.getBoundMemRefRank, bnd, gets.
  destruct (getValue e st) as [v|]; [destruct (getShape v)|]; reflexivity.
Qed.

Lemma CAPI_bindMemRefShape_eq (e : Expr) (n : nat) (st : MLIREmitter) :
  CAPI.bindMemRefShape e n st
  = match getValue e st with
    | None => Fatal "Expected a bound Expr" st
    | Some v =>
        match getShape v with
        | None => Fatal "cast<MemRefType>() argument of incompatible type" st
        | Some shape =>
            if (n =? length shape)%nat
            then (let* bindables := makeBoundMemRefShape v in
                  ret (take (length shape) bindables)) st
            else Fatal "Unexpected memref shape binding results count" st
        end
    end.
Proof.
  unfold CAPI.bindMemRefShape, bnd at 1, gets.
  destruct (getValue e st) as [v|]; [|reflexivity].
  destruct (getShape v) as [shape|]; [|reflexivity].
  unfold bnd at 1, assert_. destruct (n =? length shape)%nat; reflexivity.
Qed.

(** X15. The length [bindMemRefShape] accepts for its result list is the
    rank [getBoundMemRefRank] reports, and no other: when it returns, the
    length was the rank and that many nodes come back; with the rank as
    length and an insertion point it does return, each node bound to a value
    of index type; with any other length it aborts before it creates a node
    or an instruction.  On a node without value both abort. *)
Theorem bindMemRefShape_accepts_only_the_rank (boundMemRef : Expr) (n : nat)
    (st : MLIREmitter) :
  (forall es st', CAPI.bindMemRefShape boundMemRef n st = Ok es st' ->
     CAPI.getBoundMemRefRank boundMemRef st = Ok n st /\ length es = n)
  /\ (forall blk pos,
        CAPI.getBoundMemRefRank boundMemRef st = Ok n st ->
        cursor (builder st) = Some (blk, pos) ->
        cursor_before (builder st) pos ->
        fresh_arena st ->
        exists es st',
          CAPI.bindMemRefShape boundMemRef n st = Ok es st'
          /\ length es = n
          /\ forall e, e ∈ es ->
               exists v, getValue e st' = Some v /\ vtype v = IndexType)
  /\ (forall rank, CAPI.getBoundMemRefRank boundMemRef st = Ok rank st ->
        rank <> n ->
        CAPI.bindMemRefShape boundMemRef n st
        = Fatal "Unexpected memref shape binding results count" st)
  /\ (getValue boundMemRef st = None ->
        CAPI.getBoundMemRefRank boundMemRef st = Fatal "Expected a bound Expr" st
        /\ CAPI.bindMemRefShape boundMemRef n st = Fatal "Expected a bound Expr" st).
Proof.
  rewrite CAPI_bindMemRefShape_eq, CAPI_getBoundMemRefRank_eq.
  destruct (getValue boundMemRef st) as [v|] eqn:Ev.
  2:{ repeat split; try discriminate; intros; discriminate. }
  destruct (getShape v) as [shape|] eqn:Eshape.
  2:{ repeat split; try discriminate; intros; discriminate. }
  split; [|split; [|split]].
  - intros es st' H.
    destruct (n =? length shape)%nat eqn:Hn; [|discriminate].
    apply Nat.eqb_eq in Hn. subst n.
    split; [reflexivity|].
    apply bnd_Ok in H as (bs & s2 & Hb & H). injection H as <- _.
    apply makeBoundMemRefShape_length in Hb as (shape' & Hs & Hlen).
    rewrite length_take. rewrite Eshape in Hs. injection Hs as <-. lia.
  - intros blk pos Hrank Hc Hpos Hfresh. injection Hrank as <-.
    rewrite Nat.eqb_refl.
    destruct (makeBoundMemRefShape_run v shape st (builder st) blk pos []
                Eshape Hc Hpos (Emitted_nil _ _ _) Hfresh)
      as (b' & m & Hrun & He & Hsub & Hl & Ho).
    rewrite (bnd_step _ _ _ _ _ Hrun). cbn [ret].
    do 2 eexists. split; [reflexivity|].
    assert (Hlen : length (pos_seq (arena st) (length shape)) = length shape).
    { unfold pos_seq. rewrite length_map, length_seq. reflexivity. }
    rewrite firstn_all2 by (rewrite length_map, Hlen; lia).
    split; [rewrite length_map; exact Hlen|].
    intros e Hin. apply list_elem_of_lookup in Hin as (i & Hi).
    pose proof (lookup_lt_Some _ _ _ Hi) as Hlt. rewrite length_map, Hlen in Hlt.
    destruct (lookup_lt_is_Some_2 shape i Hlt) as (size & Hsize).
    eexists. split.
    + unfold getValue. cbn [ssaBindings]. erewrite Hl; [reflexivity | exact Hi |].
      rewrite list_lookup_imap, Hsize. reflexivity.
    + reflexivity.
  - intros rank Hrank Hne. injection Hrank as <-.
    destruct (n =? length shape)%nat eqn:E; [|reflexivity].
    apply Nat.eqb_eq in E. congruence.
  - discriminate.
Qed.

Lemma bindMemRefShape_accepts_only_the_rank_witness :
  CAPI.getBoundMemRefRank Sample2.memRefNode Sample2.memRefEmitter
  = Ok 3%nat Sample2.memRefEmitter
  /\ (exists es st',
        CAPI.bindMemRefShape Sample2.memRefNode 3 Sample2.memRefEmitter = Ok es st'
        /\ length es = 3%nat)
  /\ CAPI.bindMemRefShape Sample2.memRefNode 2 Sample2.memRefEmitter
     = Fatal "Unexpected memref shape binding results count" Sample2.memRefEmitter.
Proof.
  assert (Hrank : CAPI.getBoundMemRefRank Sample2.memRefNode Sample2.memRefEmitter
                  = Ok 3%nat Sample2.memRefEmitter) by reflexivity.
  assert (Hfresh : fresh_arena Sample2.memRefEmitter).
  { intros k Hk.
    change (ssaBindings Sample2.memRefEmitter)
      with (<[80%positive := Some Sample.argMemRef]>
              (∅ : gmap positive (option Value))).
    change (arena Sample2.memRefEmitter) with 100%positive in Hk.
    rewrite lookup_insert_ne by lia. apply lookup_empty. }
  split; [exact Hrank|]. split.
  - destruct (proj1 (proj2 (bindMemRefShape_accepts_only_the_rank
                              Sample2.memRefNode 3 Sample2.memRefEmitter))
                Sample.entry None Hrank eq_refl I Hfresh)
      as (es & st' & H & Hlen & _).
    exists es, st'. split; [exact H | exact Hlen].
  - apply (proj1 (proj2 (proj2 (bindMemRefShape_accepts_only_the_rank
                                  Sample2.memRefNode 2 Sample2.memRefEmitter)))
             3%nat Hrank).
    discriminate.
Defined.

Lemma CAPI_bindMemRefView_eq (e : Expr) (nLbs nUbs nSteps : nat) (st : MLIREmitter) :
  CAPI.bindMemRefView e nLbs nUbs nSteps st
  = match getValue e st with
    | None => Fatal "null value" st
    | Some v =>
        match getShape v with
        | None => Fatal "cast<MemRefType>() argument of incompatible type" st
        | Some shape =>
            let rank := length shape in
            if (nLbs =? rank)%nat && (nUbs =? rank)%nat && (nSteps =? rank)%nat
            then (let* bindables := makeBoundMemRefShape v in
                  let* zero := newExpr IndexType in
                  run bindConstantIndex zero 0 in
                  let* one := newExpr IndexType in
                  run bindConstantIndex one 1 in
                  ret (mkBoundMemRefView (replicate rank zero) (take rank bindables)
                                         (replicate rank one))) st
            else Fatal "Unexpected memref binding results count" st
        end
    end.
Proof.
  unfold CAPI.bindMemRefView, bnd at 1, gets.
  destruct (getValue e st) as [v|]; [|reflexivity].
  destruct (getShape v) as [shape|]; [|reflexivity].
  cbv zeta. unfold bnd at 1, assert_.
  destruct (nLbs =? length shape)%nat; [|reflexivity].
  unfold bnd at 1. destruct (nUbs =? length shape)%nat; [|reflexivity].
  unfold bnd at 1. destruct (nSteps =? length shape)%nat; reflexivity.
Qed.

Lemma CAPI_bindMemRefView_run (boundMemRef : Expr) (memRef : Value)
    (shape : list Z) (st : MLIREmitter) (blk : BlockId) (pos : InsertPoint) :
  getValue boundMemRef st = Some memRef ->
  getShape memRef = Some shape ->
  cursor (builder st) = Some (blk, pos) ->
  cursor_before (builder st) pos ->
  fresh_arena st ->
  let N := length shape in
  let a := arena st in
  let i0 := nextInst (builder st) in
  let node k := mkExpr k Unbound "" [IndexType] [] in
  let exprs := map node (pos_seq a N) in
  let values :=
    imap (fun i size =>
            mkValue (DefInst (pos_plus i0 (0 + i))
                             (iop (sizeInstruction memRef size (0 + i))))
                    IndexType) shape in
  let v0 := mkValue (DefInst (pos_plus i0 N) (ConstantIndexOp 0)) IndexType in
  let v1 := mkValue (DefInst (pos_plus i0 (S N)) (ConstantIndexOp 1)) IndexType in
  exists b3 m,
    CAPI.bindMemRefView boundMemRef N N N st
    = Ok (mkBoundMemRefView (replicate N (node (pos_plus a N))) exprs
                            (replicate N (node (pos_plus a (S N)))))
         (mkEmitter b3
            (<[pos_plus a (S N) := Some v1]> (<[pos_plus a N := Some v0]> m))
            (blockBindings st) (zeroIndex st) (oneIndex st)
            (pos_plus a (S (S N))) (errs st))
    /\ Emitted (builder st) blk pos
         (imap (fun i size => sizeInstruction memRef size (0 + i)) shape
          ++ [mkInstruction (ConstantIndexOp 0) [] [IndexType] None;
              mkInstruction (ConstantIndexOp 1) [] [IndexType] None]) b3
    /\ (forall i e v, exprs !! i = Some e -> values !! i = Some v ->
          m !! getStoragePtr e = Some (Some v)).
Proof.
  intros Hv Hshape Hc Hpos Hfresh N a i0 node exprs values v0 v1.
  rewrite CAPI_bindMemRefView_eq, Hv, Hshape. cbv zeta. fold N.
  rewrite !Nat.eqb_refl. cbn [andb].
  destruct (makeBoundMemRefShape_run memRef shape st (builder st) blk pos []
              Hshape Hc Hpos (Emitted_nil _ _ _) Hfresh)
    as (b1 & m & Hrun & He1 & Hsub & Hl & Ho).
  cbn [app length] in Hrun, He1, Hl. fold N a i0 node in Hrun, Hl. fold exprs in Hrun, Hl.
  fold values in Hl.
  rewrite (bnd_step _ _ _ _ _ Hrun). clear Hrun.
  assert (Hlen : length exprs = N).
  { subst exprs. unfold pos_seq. rewrite !length_map, length_seq. reflexivity. }
  rewrite firstn_all2 by lia.
  (* the zero *)
  unfold bnd at 1, newExpr. cbn [arena]. fold (node (pos_plus a N)).
  unfold bnd at 1.
  match goal with
  | |- context [bindConstantIndex _ 0 ?s] =>
      destruct (bindConstantIndex_Emitted (node (pos_plus a N)) 0
                  s (builder st) blk pos _ Hc Hpos He1) as (b2 & Hzero & He2)
  end.
  { cbn [ssaBindings set_arena getStoragePtr node]. rewrite Ho.
    - apply Hfresh, pos_plus_le.
    - intros Hin. apply elem_of_pos_seq in Hin. rewrite pos_plus_Z in Hin.
      unfold a, N in Hin. lia. }
  rewrite Hzero. clear Hzero. rewrite length_imap in *. fold N i0 in He2 |- *.
  fold v0. cbn [getStoragePtr node ssaBindings set_arena].
  (* the one *)
  unfold bnd at 1, newExpr.
  cbn [arena set_ssaBindings set_builder set_arena].
  change (Pos.succ (pos_plus a N)) with (pos_plus a (S N)).
  fold (node (pos_plus a (S N))).
  unfold bnd at 1.
  match goal with
  | |- context [bindConstantIndex _ 1 ?s] =>
      destruct (bindConstantIndex_Emitted (node (pos_plus a (S N))) 1
                  s (builder st) blk pos _ Hc Hpos He2) as (b3 & Hone & He3)
  end.
  { cbn [ssaBindings set_ssaBindings set_builder set_arena getStoragePtr node].
    rewrite lookup_insert_ne.
    2:{ intros Heq. apply pos_plus_inj in Heq. lia. }
    rewrite Ho.
    - apply Hfresh, pos_plus_le.
    - intros Hin. apply elem_of_pos_seq in Hin. rewrite pos_plus_Z in Hin.
      unfold a, N in Hin. lia. }
  rewrite Hone. clear Hone. cbn [ret].
  rewrite length_app, length_imap in *. cbn [length] in *. fold N i0 in He3 |- *.
  replace (N + 1)%nat with (S N) by lia. fold v1.
  rewrite <- app_assoc in He3. cbn [app] in He3.
  exists b3, m. split; [reflexivity|]. split; [exact He3 | exact Hl].
Qed.

(** X16. The two ways to a view differ in the order of what they emit:
    for a node bound to a memref of rank N, [makeBoundMemRefView] creates
    the constant 0, then the sizes, then the constant 1, whereas
    [bindMemRefView] creates the sizes first and the constants 0 and 1
    after them.  The view of [bindMemRefView] has N copies of the node of
    the 0 as lower bounds, N copies of the node of the 1 as steps, and as
    upper bounds N nodes bound to the sizes by ascending dimension.  When
    one of the three result lists has not the length N, [bindMemRefView]
    aborts before it creates anything. *)
Theorem bindMemRefView_emits_sizes_first (boundMemRef : Expr) (memRef : Value)
    (shape : list Z) (st : MLIREmitter) (blk : BlockId) (pos : InsertPoint) :
  getValue boundMemRef st = Some memRef ->
  getShape memRef = Some shape ->
  cursor (builder st) = Some (blk, pos) ->
  cursor_before (builder st) pos ->
  fresh_arena st ->
  let N := length shape in
  let i0 := nextInst (builder st) in
  let sizes := imap (fun i size => sizeInstruction memRef size i) shape in
  let c0 := mkInstruction (ConstantIndexOp 0) [] [IndexType] None in
  let c1 := mkInstruction (ConstantIndexOp 1) [] [IndexType] None in
  (exists view st',
     makeBoundMemRefView_expr boundMemRef st = Ok view st'
     /\ Emitted (builder st) blk pos ([c0] ++ sizes ++ [c1]) (builder st'))
  /\ (exists view st' zero one,
        CAPI.bindMemRefView boundMemRef N N N st = Ok view st'
        /\ Emitted (builder st) blk pos (sizes ++ [c0; c1]) (builder st')
        /\ lbs view = replicate N zero
        /\ steps view = replicate N one
        /\ length (ubs view) = N
        /\ getValue zero st'
           = Some (mkValue (DefInst (pos_plus i0 N) (ConstantIndexOp 0)) IndexType)
        /\ getValue one st'
           = Some (mkValue (DefInst (pos_plus i0 (S N)) (ConstantIndexOp 1)) IndexType)
        /\ (forall i e size, ubs view !! i = Some e -> shape !! i = Some size ->
              getValue e st'
              = Some (mkValue (DefInst (pos_plus i0 i)
                                       (if isDynamicSize (to_int size) then DimOp i
                                        else ConstantIndexOp size))
                              IndexType)))
  /\ (forall nLbs nUbs nSteps,
        nLbs <> N \/ nUbs <> N \/ nSteps <> N ->
        CAPI.bindMemRefView boundMemRef nLbs nUbs nSteps st
        = Fatal "Unexpected memref binding results count" st).
Proof.
  intros Hv Hshape Hc Hpos Hfresh N i0 sizes c0 c1.
  split; [|split].
  - destruct (makeBoundMemRefView_run memRef shape st blk pos Hshape Hc Hpos Hfresh)
      as (b3 & m2 & Hrun & He & _).
    unfold makeBoundMemRefView_expr, bnd at 1, gets. rewrite Hv.
    do 2 eexists. split; [exact Hrun | exact He].
  - destruct (CAPI_bindMemRefView_run boundMemRef memRef shape st blk pos
                Hv Hshape Hc Hpos Hfresh) as (b3 & m & Hrun & He & Hl).
    do 4 eexists. split; [exact Hrun|].
    cbn [builder lbs ubs steps]. split; [exact He|].
    split; [reflexivity|]. split; [reflexivity|].
    split; [unfold pos_seq; rewrite !length_map, length_seq; reflexivity|].
    unfold getValue. cbn [ssaBindings getStoragePtr].
    assert (Hne : pos_plus (arena st) (length shape)
                  <> pos_plus (arena st) (S (length shape))).
    { intros Heq. apply pos_plus_inj in Heq. lia. }
    split; [rewrite lookup_insert_ne by congruence; rewrite lookup_insert_eq; reflexivity|].
    split; [rewrite lookup_insert_eq; reflexivity|].
    intros i e size Hi Hsize.
    assert (He' : getStoragePtr e = pos_plus (arena st) i).
    { rewrite list_lookup_fmap in Hi. unfold pos_seq in Hi.
      rewrite list_lookup_fmap in Hi.
      destruct (seq 0 (length shape) !! i) as [j|] eqn:Ej; [|discriminate].
      apply lookup_seq in Ej as [-> _]. cbn in Hi. injection Hi as <-. reflexivity. }
    pose proof (lookup_lt_Some _ _ _ Hsize) as Hlt.
    rewrite !lookup_insert_ne.
    + erewrite Hl; [reflexivity | exact Hi |].
      rewrite list_lookup_imap, Hsize. cbn. unfold sizeInstruction.
      destruct (isDynamicSize (to_int size)); reflexivity.
    + rewrite He'. intros Heq. apply pos_plus_inj in Heq. lia.
    + rewrite He'. intros Heq. apply pos_plus_inj in Heq. lia.
  - intros nLbs nUbs nSteps Hne. rewrite CAPI_bindMemRefView_eq, Hv, Hshape.
    cbv zeta. fold N.
    destruct (nLbs =? N)%nat eqn:E1; [|reflexivity].
    destruct (nUbs =? N)%nat eqn:E2; [|reflexivity].
    destruct (nSteps =? N)%nat eqn:E3; [|reflexivity].
    apply Nat.eqb_eq in E1, E2, E3. lia.
Qed.

Lemma bindMemRefView_emits_sizes_first_witness :
  (exists view st',
     makeBoundMemRefView_expr Sample2.memRefNode Sample2.memRefEmitter = Ok view st')
  /\ (exists view st',
        CAPI.bindMemRefView Sample2.memRefNode 3 3 3 Sample2.memRefEmitter
        = Ok view st'
        /\ length (ubs view) = 3%nat)
  /\ CAPI.bindMemRefView Sample2.memRefNode 3 2 3 Sample2.memRefEmitter
     = Fatal "Unexpected memref binding results count" Sample2.memRefEmitter.
Proof.
  assert (Hfresh : fresh_arena Sample2.memRefEmitter).
  { intros k Hk.
    change (ssaBindings Sample2.memRefEmitter)
      with (<[80%positive := Some Sample.argMemRef]>
              (∅ : gmap positive (option Value))).
    change (arena Sample2.memRefEmitter) with 100%positive in Hk.
    rewrite lookup_insert_ne by lia. apply lookup_empty. }
  destruct (bindMemRefView_emits_sizes_first Sample2.memRefNode Sample.argMemRef
              [-1; 4; -1] Sample2.memRefEmitter Sample.entry None
              eq_refl eq_refl eq_refl I Hfresh) as (H1 & H2 & H3).
  split; [|split].
  - destruct H1 as (view & st' & H & _). exists view, st'. exact H.
  - destruct H2 as (view & st' & zero & one & H & _ & _ & _ & Hlen & _).
    exists view, st'. split; [exact H | exact Hlen].
  - apply H3. right. left. discriminate.
Defined.

(** ** Loop statements *)

Lemma bnd_cong {S A B} (m : M S A) (k1 k2 : A -> M S B) s :
  (forall a s', m s = Ok a s' -> k1 a s' = k2 a s') -> bnd m k1 s = bnd m k2 s.
Proof. intros H. unfold bnd. destruct (m s) as [a s'|]; [apply H|]; reflexivity. Qed.

Lemma bnd_cong_l {S A B} (m1 m2 : M S A) (k : A -> M S B) s :
  m1 s = m2 s -> bnd m1 k s = bnd m2 k s.
Proof. intros H. unfold bnd. rewrite H. reflexivity. Qed.

Lemma forInstruction_isa lb ub c : isa_AffineForOp (forInstruction lb ub c).1 = true.
Proof.
  unfold forInstruction.
  destruct (getDefiningInst lb) as [[]|]; try reflexivity.
  destruct (getDefiningInst ub) as [[]|]; reflexivity.
Qed.

(** What a returning [emitForOp] went through. *)
Lemma emitForOp_inv exprs st iv st' :
  emitForOp exprs st = Ok iv st' ->
  exists lb ub sv c blk pos,
    exprs = [Some lb; Some ub; Some sv]
    /\ cursor (builder st) = Some (blk, pos)
    /\ iv = getInductionVar (nextBlock (builder st))
    /\ st' = set_builder st (withLoop (builder st) blk pos
                               (forInstruction lb ub c).1 (forInstruction lb ub c).2).
Proof.
  intros H. pose proof H as H0. unfold emitForOp in H.
  apply bnd_Ok in H as (u & s1 & Ha & H). apply assert_Ok in Ha as [_ ->].
  destruct exprs as [|e1 [|e2 [|e3 [|e4 rest]]]]; try discriminate H;
    destruct e1 as [lb|]; try discriminate H;
    destruct e2 as [ub|]; try discriminate H;
    destruct e3 as [sv|]; try discriminate H.
  apply bnd_Ok in H as (u1 & s1 & Ha & H). apply assert_Ok in Ha as [Hl ->].
  apply bnd_Ok in H as (u2 & s1 & Ha & H). apply assert_Ok in Ha as [Hu ->].
  apply bnd_Ok in H as (c & s1 & Hs & H).
  assert (Hsv : getDefiningInst sv = Some (ConstantIndexOp c)).
  { destruct (getDefiningInst sv) as [[]|]; try discriminate Hs.
    injection Hs as -> _. reflexivity. }
  assert (s1 = st) as ->.
  { rewrite Hsv in Hs. unfold ret in Hs. congruence. }
  destruct (cursor (builder st)) as [[blk pos]|] eqn:Ec.
  - rewrite (emitForOp_Ok lb ub sv c st blk pos Hl Hu Hsv Ec) in H0.
    injection H0 as <- <-. exists lb, ub, sv, c, blk, pos. auto.
  - exfalso. apply bnd_Ok in H as (forOp & s2 & Hcreate & _).
    apply onBuilder_Ok in Hcreate as (b' & Hcreate & _).
    unfold createAffineFor in Hcreate.
    destruct (getDefiningInst lb) as [[]|];
      try destruct (getDefiningInst ub) as [[]|];
      unfold create in Hcreate; rewrite Ec in Hcreate; discriminate Hcreate.
Qed.

Section LoopBodies.

Variable build :
  Expr -> gmap positive (option Value) -> M Builder (list (option Value)).

(** X17. A statement whose right-hand side is a loop that this statement
    creates has its enclosed statements emitted inside the loop: the
    induction variable belongs to a new, empty block whose parent is the
    [for] instruction, the left-hand side is bound to the induction
    variable, the enclosed statements run with the cursor in that block, and
    the cursor of before is put back after them. *)
Theorem emitStmt_for_steps_into_body (s : Stmt) (st : MLIREmitter) (v : Value)
    (st1 : MLIREmitter) :
  isFor (getRHS s) = true ->
  ssaBindings st !! getStoragePtr (getRHS s) = None ->
  emitExpr build (getRHS s) st = Ok (Some v) st1 ->
  exists body forOp I,
    v = getInductionVar body
    /\ blocks (builder st1) !! body = Some (mkBlock (Some forOp) [IndexType] [])
    /\ insts (builder st1) !! forOp = Some I
    /\ isa_AffineForOp (iop I) = true
    /\ ibody I = Some body
    /\ emitStmt build s st
       = (run bind (getLHS s) (Some v) in
          run onBuilder (setInsertionPoint (Some (body, None))) in
          run emitStmts build (getEnclosedStmts s) in
          onBuilder (setInsertionPoint (cursor (builder st)))) st1.
Proof.
  intros Hf Hnone Hemit. pose proof Hemit as H.
  rewrite (emitExpr_unbound _ _ _ Hnone) in H.
  unfold buildOperator in H. rewrite (isFor_not_operator _ Hf), Hf in H.
  unfold bnd at 1 in H. cbn [ret] in H.
  apply bnd_Ok in H as (exprs & s1 & Hes & H).
  destruct (existsb isNull exprs); [discriminate H|].
  apply bnd_Ok in H as (iv & s2 & Hfor & Hfin).
  apply emitForOp_inv in Hfor as (lb & ub & sv & c & blk & pos & -> & Hc & -> & ->).
  apply emitExpr_finish_Ok in Hfin as [(Hnull & _)|(_ & Hv & _ & ->)];
    [discriminate Hnull|].
  injection Hv as ->.
  set (b := builder s1) in *.
  set (I := mkInstruction (forInstruction lb ub c).1 (forInstruction lb ub c).2 []
                          (Some (nextBlock b))).
  assert (Hblk : blocks (withLoop b blk pos (forInstruction lb ub c).1
                           (forInstruction lb ub c).2) !! nextBlock b
                 = Some (mkBlock (Some (nextInst b)) [IndexType] [])).
  { unfold withLoop. cbn [blocks]. apply lookup_insert_eq. }
  assert (Hinst : insts (withLoop b blk pos (forInstruction lb ub c).1
                           (forInstruction lb ub c).2) !! nextInst b = Some I).
  { unfold withLoop. cbn [insts]. rewrite lookup_alter_eq, lookup_insert_eq.
    reflexivity. }
  exists (nextBlock b), (nextInst b), I.
  cbn [builder set_ssaBindings set_builder].
  split; [reflexivity|]. split; [exact Hblk|]. split; [exact Hinst|].
  split; [apply forInstruction_isa|]. split; [reflexivity|].
  rewrite emitStmt_unfold. unfold bnd at 1, gets.
  rewrite (bnd_step _ _ _ _ _ Hemit). rewrite Hf.
  apply bnd_cong. intros u st2 Hbind.
  apply bind_Ok in Hbind as [_ ->].
  apply bnd_cong_l.
  unfold stepIntoLoop, bnd, gets, getForInductionVarOwner.
  cbn [builder set_ssaBindings set_builder vdef getInductionVar].
  rewrite Hblk. cbn [mbind option_bind bparent]. rewrite Hinst.
  cbn [mbind option_bind]. change (iop I) with (forInstruction lb ub c).1.
  rewrite forInstruction_isa. cbn [ibody I].
  unfold onBuilder, setInsertionPointToStart, set_ssaBindings, set_builder.
  cbn [builder]. rewrite Hblk. reflexivity.
Qed.

End LoopBodies.

Lemma emitStmt_for_steps_into_body_witness :
  exists st1 body forOp I,
    emitExpr Expr_build Sample.forE Sample.constLoopEmitter
    = Ok (Some (getInductionVar body)) st1
    /\ blocks (builder st1) !! body = Some (mkBlock (Some forOp) [IndexType] [])
    /\ insts (builder st1) !! forOp = Some I
    /\ ibody I = Some body.
Proof.
  assert (He : emitExpr Expr_build (getRHS Sample.nestedStmt) Sample.constLoopEmitter
               = Ok (Some (getInductionVar 2%positive))
                    (final_state (emitExpr Expr_build Sample.forE
                                    Sample.constLoopEmitter)))
    by (vm_compute; reflexivity).
  destruct (emitStmt_for_steps_into_body Expr_build Sample.nestedStmt
              Sample.constLoopEmitter _ _ eq_refl eq_refl He)
    as (body & forOp & I & Hv & Hb & Hi & _ & Hbody & _).
  exists (final_state (emitExpr Expr_build Sample.forE Sample.constLoopEmitter)),
    body, forOp, I.
  rewrite <- Hv. split; [exact He|]. split; [exact Hb|]. split; [exact Hi | exact Hbody].
Defined.

(** ** Bindings and function blocks *)

Section BoundNodes.

Variable build :
  Expr -> gmap positive (option Value) -> M Builder (list (option Value)).

(** X18. What has been bound is never built: once [bind] has given a node
    a value, null included, [emitExpr] on that node returns this value and
    leaves the emitter as it is, whatever the kind of the node, so the
    operation of a bound operator node or the loop of a bound loop node is
    not created. *)
Theorem bound_node_is_never_built (e : Expr) (v : option Value)
    (st : MLIREmitter) (u : unit) (st' : MLIREmitter) :
  bind e v st = Ok u st' ->
  getValue e st' = v
  /\ builder st' = builder st
  /\ forall e', getStoragePtr e' = getStoragePtr e ->
       emitExpr build e' st' = Ok v st'
       /\ emitExprs build [e'; e'] st' = Ok [v; v] st'.
Proof.
  intros H. apply bind_Ok in H as [Hnone ->].
  unfold getValue. cbn [ssaBindings set_ssaBindings builder].
  rewrite lookup_insert_eq. split; [reflexivity|]. split; [reflexivity|].
  intros e' He'.
  assert (Hb : ssaBindings (set_ssaBindings st (<[getStoragePtr e := v]> (ssaBindings st)))
               !! getStoragePtr e' = Some v).
  { rewrite He'. cbn [ssaBindings set_ssaBindings]. apply lookup_insert_eq. }
  split; [apply emitExpr_bound, Hb|].
  apply (emitExprs_replicate_bound build 2 e' _ v Hb).
Qed.

(** X20. When [Expr::build] keeps to its contract (it inserts at the
    cursor, does not move it and adds no block to the function), emitting
    expressions and statements adds no block to the function, on any path:
    the body of a loop is a block of its [for] instruction, not of the
    function. *)
Theorem emission_adds_no_function_block :
  inserts_at_cursor build ->
  (forall e st,
     funcBlocks (builder (final_state (emitExpr build e st)))
     = funcBlocks (builder st))
  /\ (forall s st,
        funcBlocks (builder (final_state (emitStmt build s st)))
        = funcBlocks (builder st))
  /\ (forall ss st,
        funcBlocks (builder (final_state (emitStmts build ss st)))
        = funcBlocks (builder st)).
Proof.
  intros Hb.
  assert (Hs : forall s, preserves keepsFuncBlocks (emitStmt build s)).
  { intros s. apply emitStmt_preserves; [exact _ | | |].
    - intros e. apply emitExpr_keepsFuncBlocks, Hb.
    - intros e v st. unfold keepsFuncBlocks. rewrite bind_keepsBuilder. reflexivity.
    - intros c st. rewrite final_state_onBuilder. reflexivity. }
  split; [intros e st; apply (emitExpr_keepsFuncBlocks build e Hb)|].
  split; [intros s st; apply Hs|].
  intros ss st. apply (emitStmts_preserves build keepsFuncBlocks).
  apply Forall_forall. intros s _. apply Hs.
Qed.

End BoundNodes.

Lemma bound_node_is_never_built_witness :
  getValue Sample.addE
    (final_state (bind Sample.addE (Some Sample.argF32) Sample.emitter))
  = Some Sample.argF32
  /\ emitExpr Expr_build Sample.addE
       (final_state (bind Sample.addE (Some Sample.argF32) Sample.emitter))
     = Ok (Some Sample.argF32)
          (final_state (bind Sample.addE (Some Sample.argF32) Sample.emitter)).
Proof.
  destruct (bound_node_is_never_built Expr_build Sample.addE (Some Sample.argF32)
              Sample.emitter tt
              (final_state (bind Sample.addE (Some Sample.argF32) Sample.emitter))
              eq_refl) as (Hv & _ & He).
  split; [exact Hv|]. exact (proj1 (He Sample.addE eq_refl)).
Defined.

Lemma emission_adds_no_function_block_witness :
  funcBlocks (builder (final_state
                        (emitStmt Expr_build Sample.nestedStmt Sample.constLoopEmitter)))
  = funcBlocks (builder Sample.constLoopEmitter).
Proof.
  exact (proj1 (proj2 (emission_adds_no_function_block Expr_build
                         Expr_build_inserts_at_cursor))
           Sample.nestedStmt Sample.constLoopEmitter).
Defined.

Lemma getMemRefSizes_from_cursor memRef shape idx b blk pos :
  cursor b = Some (blk, pos) ->
  exists vs b', getMemRefSizes_from memRef shape idx b = Ok vs b'
                /\ length vs = length shape.
Proof.
  revert idx b. induction shape as [|size shape IH]; intros idx b Hc.
  - exists [], b. split; reflexivity.
  - cbn [getMemRefSizes_from].
    assert (Hstep : exists v b1,
      (if isDynamicSize (to_int size)
       then create1 (DimOp idx) [memRef] IndexType
       else create1 (ConstantIndexOp size) [] IndexType) b = Ok v b1
      /\ cursor b1 = Some (blk, pos)).
    { destruct (isDynamicSize (to_int size)).
      - destruct (create1_Some (DimOp idx) [memRef] IndexType b blk pos Hc)
          as (b1 & H & Hc1 & _). eexists _, b1. split; [exact H | congruence].
      - destruct (create1_Some (ConstantIndexOp size) [] IndexType b blk pos Hc)
          as (b1 & H & Hc1 & _). eexists _, b1. split; [exact H | congruence]. }
    destruct Hstep as (v & b1 & Hv & Hc1).
    destruct (IH (S idx) b1 Hc1) as (vs & b' & Hvs & Hlen).
    exists (v :: vs), b'. rewrite (bnd_step _ _ _ _ _ Hv), (bnd_step _ _ _ _ _ Hvs).
    split; [reflexivity|]. cbn [length]. rewrite Hlen. reflexivity.
Qed.

(** X21. [getMemRefSizes] returns exactly when the value is a memref and
    either its rank is 0 or the builder has an insertion point; it then
    returns one value per dimension.  For a memref of rank 0 it creates
    nothing, and on a value that is no memref it aborts with the builder
    untouched. *)
Theorem getMemRefSizes_returns_iff (memRef : Value) (b : Builder) :
  ((exists vs b', getMemRefSizes memRef b = Ok vs b') <->
   (exists shape, getShape memRef = Some shape
                  /\ (shape = [] \/ cursor b <> None)))
  /\ (forall vs b' shape, getMemRefSizes memRef b = Ok vs b' ->
        getShape memRef = Some shape -> length vs = length shape)
  /\ (getShape memRef = Some [] -> getMemRefSizes memRef b = Ok [] b)
  /\ (getShape memRef = None ->
        getMemRefSizes memRef b = Fatal "Expected a MemRef value" b).
Proof.
  unfold getMemRefSizes.
  destruct (getShape memRef) as [shape|] eqn:Eshape.
  2:{ split; [|split; [|split]]; try discriminate; [|reflexivity].
      split; [intros (vs & b' & H); discriminate H|intros (shape & H & _); discriminate H]. }
  split; [|split; [|split]].
  - split.
    + intros (vs & b' & H). exists shape. split; [reflexivity|].
      destruct shape as [|size shape]; [left; reflexivity|right].
      intros Hc. cbn [getMemRefSizes_from] in H.
      apply bnd_Ok in H as (v & b1 & Hv & _).
      destruct (isDynamicSize (to_int size)); unfold create1, create, bnd in Hv;
        rewrite Hc in Hv; discriminate Hv.
    + intros (shape' & [= <-] & [-> | Hc]); [exists [], b; reflexivity|].
      destruct (cursor b) as [[blk pos]|] eqn:Ec; [|congruence].
      destruct (getMemRefSizes_from_cursor memRef shape 0 b blk pos Ec)
        as (vs & b' & H & _).
      exists vs, b'. exact H.
  - intros vs b' shape' H [= <-].
    destruct shape as [|size shape]; [injection H as <- _; reflexivity|].
    destruct (cursor b) as [[blk pos]|] eqn:Ec.
    + destruct (getMemRefSizes_from_cursor memRef (size :: shape) 0 b blk pos Ec)
        as (vs' & b'' & H' & Hlen).
      rewrite H in H'. injection H' as -> _. exact Hlen.
    + cbn [getMemRefSizes_from] in H.
      apply bnd_Ok in H as (v & b1 & Hv & _).
      destruct (isDynamicSize (to_int size)); unfold create1, create, bnd in Hv;
        rewrite Ec in Hv; discriminate Hv.
  - intros [= ->]. reflexivity.
  - discriminate.
Qed.

Lemma getMemRefSizes_returns_iff_witness :
  (exists vs b', getMemRefSizes Sample.argMemRef Sample.bld = Ok vs b')
  /\ getMemRefSizes Sample2.argScalarMemRef Sample2.unsetBld = Ok [] Sample2.unsetBld
  /\ getMemRefSizes Sample.argF32 Sample.bld
     = Fatal "Expected a MemRef value" Sample.bld.
Proof.
  split; [|split].
  - apply (proj1 (getMemRefSizes_returns_iff Sample.argMemRef Sample.bld)).
    exists [-1; 4; -1]. split; [reflexivity|]. right. discriminate.
  - apply (proj1 (proj2 (proj2 (getMemRefSizes_returns_iff Sample2.argScalarMemRef
                                  Sample2.unsetBld)))).
    reflexivity.
  - apply (proj2 (proj2 (proj2 (getMemRefSizes_returns_iff Sample.argF32 Sample.bld)))).
    reflexivity.
Defined.

(** ** Index arithmetic under loop bounds *)

Lemma emitForOp_lb_rejected lb ub sv st :
  hasAffineProvenance (getDefiningInst lb) = false ->
  emitForOp [Some lb; Some ub; Some sv] st
  = Fatal "lower bound expression does not have affine provenance" st.
Proof.
  intros Hl. unfold emitForOp. cbn [length Nat.eqb]. unfold bnd at 1. cbn [assert_].
  rewrite Hl. unfold bnd at 1. cbn [assert_]. reflexivity.
Qed.

Lemma emitForOp_ub_rejected lb ub sv st :
  hasAffineProvenance (getDefiningInst lb) = true ->
  hasAffineProvenance (getDefiningInst ub) = false ->
  emitForOp [Some lb; Some ub; Some sv] st
  = Fatal "upper bound expression does not have affine provenance" st.
Proof.
  intros Hl Hu. unfold emitForOp. cbn [length Nat.eqb]. unfold bnd at 1. cbn [assert_].
  rewrite Hl. unfold bnd at 1. cbn [assert_].
  rewrite Hu. unfold bnd at 1. cbn [assert_]. reflexivity.
Qed.

(** X22. A sum or a difference of indices can bound a loop, a product
    cannot: the value [add] or [sub] returns for an index operand is defined
    by an affine apply, which the loop accepts as a bound, whereas the value
    [mul] returns is defined by an integer multiplication, which makes the
    loop abort, as lower bound and as upper bound. *)
Theorem index_sums_bound_loops_products_do_not (a b v : Value) (bld bld' : Builder) :
  isIndexElement a = true ->
  (add a b bld = Ok v bld' \/ sub a b bld = Ok v bld' ->
     forall ub sv c st blk pos,
       hasAffineProvenance (getDefiningInst ub) = true ->
       getDefiningInst sv = Some (ConstantIndexOp c) ->
       cursor (builder st) = Some (blk, pos) ->
       emitForOp [Some v; Some ub; Some sv] st
       = Ok (getInductionVar (nextBlock (builder st)))
            (set_builder st
               (withLoop (builder st) blk pos
                  (AffineForOp (MapBounds getDimIdentityMap getDimIdentityMap) c)
                  [v; ub]))
       /\ emitForOp [Some ub; Some v; Some sv] st
          = Ok (getInductionVar (nextBlock (builder st)))
               (set_builder st
                  (withLoop (builder st) blk pos
                     (AffineForOp (MapBounds getDimIdentityMap getDimIdentityMap) c)
                     [ub; v])))
  /\ (mul a b bld = Ok v bld' ->
        forall ub sv st,
          emitForOp [Some v; Some ub; Some sv] st
          = Fatal "lower bound expression does not have affine provenance" st
          /\ aborts (emitForOp [Some ub; Some v; Some sv] st)
          /\ final_state (emitForOp [Some ub; Some v; Some sv] st) = st).
Proof.
  intros Hidx.
  assert (Hfl : isFloatElement a = false).
  { unfold isIndexElement, isFloatElement in *.
    destruct (getElementType a); cbn in *; congruence. }
  split.
  - intros Hv ub sv c st blk pos Hub Hsv Hc.
    assert (Hdef : exists i map, vdef v = DefInst i (AffineApplyOp map)).
    { unfold add, sub, makeComposedAffineApply, create1, create, bnd, ret in Hv.
      rewrite Hidx in Hv.
      destruct (cursor bld) as [[blk0 pos0]|];
        destruct Hv as [Hv|Hv]; try discriminate Hv;
        injection Hv as <- _; eauto. }
    destruct Hdef as (i & map & Hdef).
    assert (Hg : getDefiningInst v = Some (AffineApplyOp map)).
    { unfold getDefiningInst. rewrite Hdef. reflexivity. }
    assert (Hprov : hasAffineProvenance (getDefiningInst v) = true).
    { rewrite Hg. reflexivity. }
    split.
    + rewrite (emitForOp_Ok v ub sv c st blk pos Hprov Hub Hsv Hc).
      unfold forInstruction. rewrite Hg. reflexivity.
    + rewrite (emitForOp_Ok ub v sv c st blk pos Hub Hprov Hsv Hc).
      unfold forInstruction. rewrite Hg.
      destruct (getDefiningInst ub) as [[]|]; reflexivity.
  - intros Hv ub sv st.
    assert (Hdef : exists i, vdef v = DefInst i MulIOp).
    { unfold mul, create1, create, bnd, ret in Hv. rewrite Hfl in Hv. cbn [negb] in Hv.
      destruct (cursor bld) as [[blk0 pos0]|]; [|discriminate Hv].
      injection Hv as <- _. eauto. }
    destruct Hdef as (i & Hdef).
    assert (Hprov : hasAffineProvenance (getDefiningInst v) = false).
    { unfold getDefiningInst. rewrite Hdef. reflexivity. }
    split; [apply emitForOp_lb_rejected, Hprov|].
    destruct (hasAffineProvenance (getDefiningInst ub)) eqn:Hub.
    + rewrite (emitForOp_ub_rejected ub v sv st Hub Hprov). split; [exact I | reflexivity].
    + rewrite (emitForOp_lb_rejected ub v sv st Hub). split; [exact I | reflexivity].
Qed.

Lemma index_sums_bound_loops_products_do_not_witness :
  mul Sample.argIndex Sample.argIndex Sample.bld
  = Ok (mkValue (DefInst 1%positive MulIOp) IndexType)
       (final_state (mul Sample.argIndex Sample.argIndex Sample.bld))
  /\ emitForOp [Some (mkValue (DefInst 1%positive MulIOp) IndexType);
                Some Sample.c10; Some Sample.c1] Sample.constLoopEmitter
     = Fatal "lower bound expression does not have affine provenance"
             Sample.constLoopEmitter.
Proof.
  assert (H : mul Sample.argIndex Sample.argIndex Sample.bld
              = Ok (mkValue (DefInst 1%positive MulIOp) IndexType)
                   (final_state (mul Sample.argIndex Sample.argIndex Sample.bld)))
    by (vm_compute; reflexivity).
  split; [exact H|].
  exact (proj1 (proj2 (index_sums_bound_loops_products_do_not
                         Sample.argIndex Sample.argIndex _ Sample.bld _ eq_refl)
                  H Sample.c10 Sample.c1 Sample.constLoopEmitter)).
Defined.
